(** * Scan progress and quota reconciliation of the Columbus desktop app

    A shallow embedding of the Pinia stores [scan] and [products], of the
    Supabase realtime debounce, and of the [PlatformCard] / [ProgressBar]
    computed values, with the properties the specification states about them.

    Modelling conventions.
    - Counters and quota fields are JavaScript numbers that hold integers
      below [2^53]; they are [Z], and their sums and products by [2] are
      exact.  A JavaScript number in general is an IEEE 754 binary64
      value, modelled as the rational it denotes: every division and
      multiplication of the percentage formulas, and the addition of two
      quotients, is the exact operation on [Q] followed by [JS.fl],
      rounding to the nearest double, ties to even ([JS.fdiv], [JS.fmul],
      [JS.fadd]).  Overflow to an infinity (magnitudes from [2^1024]) and
      division by zero are not modelled.  The stores and the card test the
      divisor before they divide; [ProgressBar] divides by its [max], which
      is 100 unless the caller passes another value.
    - [Math.round] is [floor (x + 1/2)], computed exactly as ECMAScript
      specifies it; [Math.min] and [Math.max] compare exactly.  The
      quotient under [Math.floor] in [startScan] is taken exactly: rounding
      the quotient of two integers below [2^53] to a double never reaches
      the next integer, so the floor is the same.
    - An optional field of a payload is an [option]; a field that can also
      be [null] is a [js_opt].
    - A JavaScript object used as a dictionary is a [gmap string _].
    - A backend command is an entry of the [Backend] record (what the
      command answers) and every invocation is appended to the world's
      [trace]. *)

From Stdlib Require Import ZArith QArith Qround Qpower Lia Lqa List.
From Stdlib Require Import Strings.String Strings.Ascii DecimalString.
From stdpp Require Import base gmap strings list fin_maps.

Local Open Scope Z_scope.

(** ** JavaScript values and operators *)

Module JS.

(** A property that may be missing ([undefined]), [null], or a number. *)
Inductive js_opt : Type :=
| Undefined
| Null
| Num (n : Z).

(** [x || d] on a possibly missing number: [undefined] and [0] are falsy. *)
Definition num_or (x : option Z) (d : Z) : Z :=
  match x with
  | Some v => if Z.eqb v 0 then d else v
  | None => d
  end.

(** [x || d] on a number that is present. *)
Definition or0 (x d : Z) : Z := if Z.eqb x 0 then d else x.

(** [x || d] on a possibly missing string: [undefined] and [''] are falsy. *)
Definition str_or (x : option string) (d : string) : string :=
  match x with
  | Some EmptyString => d
  | Some s => s
  | None => d
  end.

(** [x ?? d]. *)
Definition nullish {A} (x : option A) (d : A) : A :=
  match x with
  | Some v => v
  | None => d
  end.

(** *** Numbers: IEEE 754 binary64

    A finite double is the rational it denotes.  [fl q] is the double
    nearest to [q], ties to the even significand: [q] is scaled by the
    power of two that brings its significand to 53 bits (or to the
    subnormal spacing [2^-1074]), rounded to an integer, and scaled back. *)

(** The integer nearest to [q], halves to the even neighbour. *)
Definition round_half_even (q : Q) : Z :=
  let f := Qfloor q in
  match Qcompare (q - inject_Z f) (1 # 2) with
  | Lt => f
  | Gt => f + 1
  | Eq => if Z.even f then f else f + 1
  end.

(** For [0 < q], the [k] with [2^k <= q < 2^(k+1)]. *)
Definition ilog2 (q : Q) : Z :=
  let k := Z.log2 (Qnum q) - Z.log2 (Zpos (Qden q)) in
  if Qle_bool (Qpower 2 k) q then k else k - 1.

(** The double nearest to a positive rational. *)
Definition fl_pos (q : Q) : Q :=
  let e := Z.max (ilog2 q - 52) (-1074) in
  (inject_Z (round_half_even (q / Qpower 2 e)) * Qpower 2 e)%Q.

(** The double nearest to a rational. *)
Definition fl (q : Q) : Q :=
  match Qnum q with
  | Z0 => 0%Q
  | Zpos _ => fl_pos q
  | Zneg _ => (- fl_pos (- q))%Q
  end.

(** [x / y], [x * y] and [x + y] on doubles. *)
Definition fdiv (x y : Q) : Q := fl (x / y).
Definition fmul (x y : Q) : Q := fl (x * y).
Definition fadd (x y : Q) : Q := fl (x + y).

(** [Math.round]: the nearest integer, halves towards plus infinity. *)
Definition Math_round (x : Q) : Z := Qfloor (x + (1 # 2))%Q.

(** [Math.floor]. *)
Definition Math_floor (x : Q) : Z := Qfloor x.

(** [Math.min] / [Math.max] on rationals. *)
Definition Math_min (x y : Q) : Q := if Qle_bool x y then x else y.
Definition Math_max (x y : Q) : Q := if Qle_bool x y then y else x.

(** [String.prototype.toLowerCase], on the code units that can produce
    an ASCII letter: [A]..[Z] go to [a]..[z], every other unit is kept. *)
Definition lower_ascii (c : ascii) : ascii :=
  let n := nat_of_ascii c in
  if (Nat.leb 65 n && Nat.leb n 90)%bool then ascii_of_nat (n + 32) else c.

Fixpoint toLowerCase (s : string) : string :=
  match s with
  | EmptyString => EmptyString
  | String c s' => String (lower_ascii c) (toLowerCase s')
  end.

(** [hay.includes(needle)]: is [needle] a substring of [hay]. *)
Fixpoint includes (hay needle : string) : bool :=
  if String.prefix needle hay then true
  else match hay with
       | EmptyString => false
       | String _ hay' => includes hay' needle
       end.

End JS.

(** ** Data model (src/types) *)

Module Types.

(** [PlatformState]: the counters of one platform. *)
Record PlatformState : Type := {
  status : string;
  total : Z;
  submitted : Z;
  collected : Z
}.

(** The payload of [scan:progress]; [updateProgress] takes every field
    as optional. *)
Record ScanProgress : Type := {
  pd_phase : option string;
  pd_platforms : option (gmap string PlatformState);
  pd_countdownSeconds : JS.js_opt
}.

Record ScanComplete : Type := {
  total_prompts : Z;
  successful_prompts : Z;
  mention_rate : Z;
  citation_rate : Z
}.

(** [DailyUsage]: the quota snapshot kept by the products store. *)
Record DailyUsage : Type := {
  current : Z;
  limit : Z;
  remaining : Z;
  effectiveRemaining : Z;
  pendingEvaluations : Z;
  isUnlimited : bool;
  plan : string
}.

(** What [check_daily_usage] answers: a [DailyUsage] any field of which
    may be missing. *)
Record UsageResponse : Type := {
  u_current : option Z;
  u_limit : option Z;
  u_remaining : option Z;
  u_effectiveRemaining : option Z;
  u_pendingEvaluations : option Z;
  u_isUnlimited : option bool;
  u_plan : option string
}.

(** [PromptData.quota]. *)
Record Quota : Type := {
  promptsUsedToday : Z;
  promptsPerDay : Z;
  promptsRemaining : option Z;
  q_effectiveRemaining : option Z;
  q_pendingEvaluations : option Z;
  q_isUnlimited : option bool;
  q_plan : option string
}.

(** [PromptData]; [prompts] is kept by its length only. *)
Record PromptData : Type := {
  prompts_length : option Z;
  totalPrompts : option Z;
  quota : option Quota
}.

Record ProductConfig : Type := {
  samples_per_prompt : Z
}.

Record StartScanParams : Type := {
  productId : string;
  samplesPerPrompt : Z;
  sp_platforms : list string;
  maxTests : option Z
}.

Record MessageModalState : Type := {
  visible : bool;
  title : string;
  message : string;
  type : string
}.

(** The payload of [scan:error]: a plain string or [{ message? }]. *)
Inductive ScanError : Type :=
| ErrString (s : string)
| ErrObject (msg : option string).

End Types.

Import Types.

(** ** The stores and the backend boundary *)

Record ScanStore : Type := {
  isScanning : bool;
  isStarting : bool;
  phase : string;
  progress : Z;
  countdownSeconds : option Z;
  platforms : gmap string PlatformState;
  lastResult : option ScanComplete
}.

Record ProductsStore : Type := {
  selectedProductId : option string;
  productConfig : option ProductConfig;
  promptCount : Z;
  dailyUsage : DailyUsage
}.

Record UiStore : Type := {
  currentView : string;
  modal_authRequired : bool;
  modal_message : MessageModalState;
  authRequiredData : list (string * list string)
}.

Record RegionsStore : Type := {
  configuredRegions : list string;
  platformAuthStatus : gmap string bool
}.

(** The platforms store, through its computed [platformIds]. *)
Record PlatformsStore : Type := {
  platformIds : list string
}.

(** A command sent over the invocation boundary. *)
Inductive Command : Type :=
| check_daily_usage
| fetch_extension_prompts (productId : string)
| get_prompt_target_regions (productId : string)
| start_scan (params : StartScanParams)
| cancel_scan.

(** The answer of a command: a value, or the rejection of the promise. *)
Inductive Result (A : Type) : Type :=
| Ok (a : A)
| Err (e : string).
Arguments Ok {A} a.
Arguments Err {A} e.

(** The backend, as far as the stores see it. *)
Record Backend : Type := {
  checkDailyUsage : Result UsageResponse;
  fetchExtensionPrompts : string -> Result (option PromptData);
  getPromptTargetRegions : string -> Result (list (string * list string));
  startScanCmd : StartScanParams -> Result unit
}.

Record World : Type := {
  scan : ScanStore;
  products : ProductsStore;
  ui : UiStore;
  regions : RegionsStore;
  platformsStore : PlatformsStore;
  trace : list Command
}.

(** Field updates. *)
Definition set_scan (f : ScanStore -> ScanStore) (w : World) : World :=
  {| scan := f (scan w); products := products w; ui := ui w;
     regions := regions w; platformsStore := platformsStore w;
     trace := trace w |}.
Definition set_products (f : ProductsStore -> ProductsStore) (w : World) : World :=
  {| scan := scan w; products := f (products w); ui := ui w;
     regions := regions w; platformsStore := platformsStore w;
     trace := trace w |}.
Definition set_ui (f : UiStore -> UiStore) (w : World) : World :=
  {| scan := scan w; products := products w; ui := f (ui w);
     regions := regions w; platformsStore := platformsStore w;
     trace := trace w |}.
Definition invoke (c : Command) (w : World) : World :=
  {| scan := scan w; products := products w; ui := ui w;
     regions := regions w; platformsStore := platformsStore w;
     trace := trace w ++ [c] |}.

Definition with_isScanning (b : bool) (s : ScanStore) : ScanStore :=
  {| isScanning := b; isStarting := isStarting s; phase := phase s;
     progress := progress s; countdownSeconds := countdownSeconds s;
     platforms := platforms s; lastResult := lastResult s |}.
Definition with_isStarting (b : bool) (s : ScanStore) : ScanStore :=
  {| isScanning := isScanning s; isStarting := b; phase := phase s;
     progress := progress s; countdownSeconds := countdownSeconds s;
     platforms := platforms s; lastResult := lastResult s |}.
Definition with_phase (p : string) (s : ScanStore) : ScanStore :=
  {| isScanning := isScanning s; isStarting := isStarting s; phase := p;
     progress := progress s; countdownSeconds := countdownSeconds s;
     platforms := platforms s; lastResult := lastResult s |}.
Definition with_progress (p : Z) (s : ScanStore) : ScanStore :=
  {| isScanning := isScanning s; isStarting := isStarting s; phase := phase s;
     progress := p; countdownSeconds := countdownSeconds s;
     platforms := platforms s; lastResult := lastResult s |}.
Definition with_countdownSeconds (c : option Z) (s : ScanStore) : ScanStore :=
  {| isScanning := isScanning s; isStarting := isStarting s; phase := phase s;
     progress := progress s; countdownSeconds := c;
     platforms := platforms s; lastResult := lastResult s |}.
Definition with_platforms (m : gmap string PlatformState) (s : ScanStore) : ScanStore :=
  {| isScanning := isScanning s; isStarting := isStarting s; phase := phase s;
     progress := progress s; countdownSeconds := countdownSeconds s;
     platforms := m; lastResult := lastResult s |}.
Definition with_lastResult (r : option ScanComplete) (s : ScanStore) : ScanStore :=
  {| isScanning := isScanning s; isStarting := isStarting s; phase := phase s;
     progress := progress s; countdownSeconds := countdownSeconds s;
     platforms := platforms s; lastResult := r |}.

Definition with_promptCount (n : Z) (p : ProductsStore) : ProductsStore :=
  {| selectedProductId := selectedProductId p; productConfig := productConfig p;
     promptCount := n; dailyUsage := dailyUsage p |}.
Definition with_dailyUsage (d : DailyUsage) (p : ProductsStore) : ProductsStore :=
  {| selectedProductId := selectedProductId p; productConfig := productConfig p;
     promptCount := promptCount p; dailyUsage := d |}.

(** The stores as they are created: the initial value of every [ref]. *)
Definition initial_scan : ScanStore :=
  {| isScanning := false; isStarting := false; phase := "initializing";
     progress := 0; countdownSeconds := None; platforms := ∅;
     lastResult := None |}.

Definition initial_products : ProductsStore :=
  {| selectedProductId := None; productConfig := None; promptCount := 0;
     dailyUsage := {| current := 0; limit := 30; remaining := 30;
                      effectiveRemaining := 30; pendingEvaluations := 0;
                      isUnlimited := false; plan := "free" |} |}.

Definition initial_ui : UiStore :=
  {| currentView := "login"; modal_authRequired := false;
     modal_message := {| visible := false; title := EmptyString; message := EmptyString;
                         type := "info" |};
     authRequiredData := [] |}.

Definition initial_regions : RegionsStore :=
  {| configuredRegions := ["local"]; platformAuthStatus := ∅ |}.

Definition initial_world : World :=
  {| scan := initial_scan; products := initial_products; ui := initial_ui;
     regions := initial_regions; platformsStore := {| platformIds := [] |};
     trace := [] |}.

(** ** The ui store (part of src/stores/ui) *)

Definition with_currentView (v : string) (u : UiStore) : UiStore :=
  {| currentView := v; modal_authRequired := modal_authRequired u;
     modal_message := modal_message u; authRequiredData := authRequiredData u |}.

Definition showView (view : string) : World -> World :=
  set_ui (with_currentView view).

Definition showMessage (message title type : string) : World -> World :=
  set_ui (fun u =>
    {| currentView := currentView u; modal_authRequired := modal_authRequired u;
       modal_message := {| visible := true; title := title;
                           message := message; type := type |};
       authRequiredData := authRequiredData u |}).

Definition showAuthRequiredModal (missingAuth : list (string * list string))
  : World -> World :=
  set_ui (fun u =>
    {| currentView := currentView u; modal_authRequired := true;
       modal_message := modal_message u; authRequiredData := missingAuth |}).

(** ** The regions store (part of src/stores/regions) *)

(** The key [`${region}:${platform}`]. *)
Definition auth_key (region platform : string) : string :=
  (region ++ ":" ++ platform)%string.

Definition isPlatformAuthForRegion (r : RegionsStore) (region platform : string)
  : bool :=
  match platformAuthStatus r !! auth_key region platform with
  | Some true => true
  | _ => false
  end.

(** [Object.values(m)]. *)
Definition Object_values {A} (m : gmap string A) : list A :=
  (map_to_list m).*2.

Definition hasAnyAuth (r : RegionsStore) : bool :=
  existsb (fun v => Bool.eqb v true) (Object_values (platformAuthStatus r)).

(** ** The scan store (src/stores/scan) *)

Module Scan.

Definition pending_state : PlatformState :=
  {| status := "pending"; total := 0; submitted := 0; collected := 0 |}.

Definition resetProgress (w : World) : World :=
  let states :=
    foldl (fun (m : gmap string PlatformState) id => <[id := pending_state]> m)
          ∅ (platformIds (platformsStore w)) in
  set_scan (fun s =>
    {| isScanning := isScanning s; isStarting := isStarting s;
       phase := "initializing"; progress := 0; countdownSeconds := None;
       platforms := states; lastResult := None |}) w.

(** The loop of [updateProgress] over [Object.values(platforms)]: the
    three running totals [(totalSubmitted, totalCollected, totalTasks)]. *)
Definition totals_step (acc : Z * Z * Z) (state : PlatformState) : Z * Z * Z :=
  let '(totalSubmitted, totalCollected, totalTasks) := acc in
  (totalSubmitted + JS.or0 (submitted state) 0,
   totalCollected + JS.or0 (collected state) 0,
   totalTasks + JS.or0 (total state) 0).

Definition totals (m : gmap string PlatformState) : Z * Z * Z :=
  foldl totals_step (0, 0, 0) (Object_values m).

(** [Math.round(submissionProgress + collectionProgress)], where
    [submissionProgress = (totalSubmitted / totalTasks) * 50] and
    [collectionProgress = (totalCollected / totalTasks) * 50]: five
    operations on doubles, each rounded. *)
Definition overall_percent (totalSubmitted totalCollected totalTasks : Z) : Z :=
  let submissionProgress :=
    JS.fmul (JS.fdiv (inject_Z totalSubmitted) (inject_Z totalTasks))
            (inject_Z 50) in
  let collectionProgress :=
    JS.fmul (JS.fdiv (inject_Z totalCollected) (inject_Z totalTasks))
            (inject_Z 50) in
  JS.Math_round (JS.fadd submissionProgress collectionProgress).

Definition updateProgress (progressData : option ScanProgress) (s : ScanStore)
  : ScanStore :=
  match progressData with
  | None => s
  | Some pd =>
    let s1 :=
      match pd_phase pd with
      | Some (String c p) => with_phase (String c p) s
      | _ => s
      end in
    let s2 :=
      match pd_platforms pd with
      | Some m =>
        let s' := with_platforms m s1 in
        let '(totalSubmitted, totalCollected, totalTasks) := totals m in
        if 0 <? totalTasks
        then with_progress
               (overall_percent totalSubmitted totalCollected totalTasks) s'
        else s'
      | None => s1
      end in
    match pd_countdownSeconds pd with
    | JS.Undefined => s2
    | JS.Null => with_countdownSeconds None s2
    | JS.Num n => with_countdownSeconds (Some n) s2
    end
  end.

Definition setCountdown (seconds : Z) (s : ScanStore) : ScanStore :=
  with_countdownSeconds (Some seconds) s.

(** [typeof error === 'string' ? error : error.message || String(error)];
    [String] of a plain object is ["[object Object]"]. *)
Definition errorMsg (error : ScanError) : string :=
  match error with
  | ErrString s => s
  | ErrObject m => JS.str_or m "[object Object]"
  end.

Definition isCancelled (error : ScanError) : bool :=
  JS.includes (JS.toLowerCase (errorMsg error)) "cancel".

Definition handleError (error : ScanError) (w : World) : World :=
  let w1 := set_scan (with_isScanning false) w in
  let cancelled := isCancelled error in
  let w2 := showMessage (errorMsg error)
              (if cancelled then "Scan Cancelled" else "Scan Error")
              (if cancelled then "info" else "error") w1 in
  showView "main" w2.

(** The countdown line of the scanning view is rendered under
    [v-if="scanStore.countdownSeconds !== null"]. *)
Definition countdown_shown (s : ScanStore) : bool :=
  match countdownSeconds s with
  | Some _ => true
  | None => false
  end.

End Scan.

(** ** Per-platform card and progress bar (components) *)

Module PlatformCard.

(** The computed [progress] of a card; [state] is an optional prop.
    [Math.round(((submitted + collected) / (total * 2)) * 100)]: the sum
    and the product by 2 are exact, the division and the product by 100
    are rounded to doubles. *)
Definition progress (state : option PlatformState) : Z :=
  match state with
  | None => 0
  | Some st =>
    if total st =? 0 then 0
    else JS.Math_round
           (JS.fmul (JS.fdiv (inject_Z (submitted st + collected st))
                             (inject_Z (total st * 2)))
                    (inject_Z 100))
  end.

End PlatformCard.

Module ProgressBar.

(** The computed [percentage]: the width of the fill, [max] being 100
    unless the caller passes another value.
    [Math.min(100, Math.max(0, (value / max) * 100))]. *)
Definition percentage (value max : Z) : Q :=
  JS.Math_min (inject_Z 100)
    (JS.Math_max (inject_Z 0)
       (JS.fmul (JS.fdiv (inject_Z value) (inject_Z max)) (inject_Z 100))).

End ProgressBar.

(** ** The products store (src/stores/products) *)

Module Products.

(** [flag || limit === -1]. *)
Definition unlimited (flag : option bool) (limit_is_minus_one : bool) : bool :=
  match flag with
  | Some true => true
  | _ => limit_is_minus_one
  end.

Definition is_minus_one (x : option Z) : bool :=
  match x with
  | Some v => v =? -1
  | None => false
  end.

(** The object literal [loadDailyUsage] assigns to [dailyUsage]. *)
Definition usage_snapshot (usage : UsageResponse) : DailyUsage :=
  {| current := JS.num_or (u_current usage) 0;
     limit := JS.num_or (u_limit usage) 5;
     remaining := JS.num_or (u_remaining usage) 0;
     effectiveRemaining :=
       JS.nullish (u_effectiveRemaining usage)
                  (JS.nullish (u_remaining usage) 30);
     pendingEvaluations := JS.nullish (u_pendingEvaluations usage) 0;
     isUnlimited :=
       unlimited (u_isUnlimited usage) (is_minus_one (u_limit usage));
     plan := JS.str_or (u_plan usage) "free" |}.

Definition loadDailyUsage (b : Backend) (w : World) : World :=
  let w1 := invoke check_daily_usage w in
  match checkDailyUsage b with
  | Ok usage => set_products (with_dailyUsage (usage_snapshot usage)) w1
  | Err _ => w1
  end.

(** The object literal [loadProductPromptCount] assigns to [dailyUsage]
    when the answer carries a [quota]. *)
Definition quota_snapshot (q : Quota) : DailyUsage :=
  let baseRemaining :=
    JS.nullish (promptsRemaining q) (promptsPerDay q - promptsUsedToday q) in
  {| current := JS.or0 (promptsUsedToday q) 0;
     limit := JS.or0 (promptsPerDay q) 30;
     remaining := baseRemaining;
     effectiveRemaining := JS.nullish (q_effectiveRemaining q) baseRemaining;
     pendingEvaluations := JS.nullish (q_pendingEvaluations q) 0;
     isUnlimited := unlimited (q_isUnlimited q) (promptsPerDay q =? -1);
     plan := JS.str_or (q_plan q) "free" |}.

Definition loadProductPromptCount (b : Backend) (productId : string)
    (w : World) : World :=
  let w1 := invoke (fetch_extension_prompts productId) w in
  match fetchExtensionPrompts b productId with
  | Ok promptData =>
    let count :=
      JS.num_or (promptData ≫= totalPrompts)
                (JS.num_or (promptData ≫= prompts_length) 0) in
    let w2 := set_products (with_promptCount count) w1 in
    match promptData ≫= quota with
    | Some q => set_products (with_dailyUsage (quota_snapshot q)) w2
    | None => w2
    end
  | Err _ => set_products (with_promptCount 0) w1
  end.

(** The getter [availableTests]:
    [dailyUsage.effectiveRemaining ?? dailyUsage.remaining]; the field
    is a number in every snapshot the store builds. *)
Definition availableTests (p : ProductsStore) : Z :=
  JS.nullish (Some (effectiveRemaining (dailyUsage p)))
             (remaining (dailyUsage p)).

End Products.

(** ** [startScan] (src/stores/scan) *)

Module StartScan.

Import Scan Products.

(** Decimal rendering of an integer inside a template string. *)
Definition Z_to_string (z : Z) : string :=
  DecimalString.NilZero.string_of_int (Z.to_int z).

(** [set.add(x)] on an insertion-ordered [Set]. *)
Definition set_add (x : string) (l : list string) : list string :=
  if existsb (String.eqb x) l then l else l ++ [x].

(** The regions the prompts need: ['local'] for a prompt without
    regions, the lower-cased regions otherwise. *)
Definition neededRegions (promptRegions : list (string * list string))
  : list string :=
  foldl (fun acc regions =>
           match regions with
           | [] => set_add "local" acc
           | _ => foldl (fun acc' r => set_add (JS.toLowerCase r) acc')
                        acc regions
           end)
        [] (promptRegions.*2).

Definition missingAuth (w : World) (needed : list string)
  : list (string * list string) :=
  foldl (fun acc region =>
           let hasAuthForRegion :=
             existsb (fun p => isPlatformAuthForRegion (regions w) region p)
                     (platformIds (platformsStore w)) in
           if hasAuthForRegion then acc
           else acc ++ [(region, platformIds (platformsStore w))])
        [] needed.

Definition authPlatforms (w : World) : list string :=
  List.filter
    (fun p => existsb (fun r => isPlatformAuthForRegion (regions w) r p)
                      (configuredRegions (regions w)))
    (platformIds (platformsStore w)).

(** The quota gate: [!dailyUsage.isUnlimited && availableTests <= 0]. *)
Definition quota_blocks (p : ProductsStore) : bool :=
  negb (isUnlimited (dailyUsage p)) && (availableTests p <=? 0).

Definition limitedPlatforms (p : ProductsStore) (samples : Z)
    (auth : list string) : list string :=
  let maxTestsToUse := promptCount p * samples * Z.of_nat (length auth) in
  if negb (isUnlimited (dailyUsage p)) && (availableTests p <? maxTestsToUse)
  then
    let testsPerPrompt := promptCount p * samples in
    let platformsWeCanAfford :=
      JS.Math_floor (inject_Z (availableTests p) / inject_Z testsPerPrompt)%Q in
    if (0 <? platformsWeCanAfford)
       && (platformsWeCanAfford <? Z.of_nat (length auth))
    then take (Z.to_nat platformsWeCanAfford) auth
    else auth
  else auth.

(** The [catch] block. *)
Definition start_failed (error : string) (w : World) : World :=
  let w1 := showMessage ("Failed to start scan: " ++ error) "Error" "error" w in
  let w2 := showView "main" w1 in
  let w3 := set_scan (with_isScanning false) w2 in
  set_scan (with_isStarting false) w3.

(** The [try] block, entered once the quota and prompt checks passed. *)
Definition start_checked (b : Backend) (pid : string) (w : World) : World :=
  let w1 := invoke (get_prompt_target_regions pid) w in
  match getPromptTargetRegions b pid with
  | Err e => start_failed e w1
  | Ok promptRegions =>
    let missing := missingAuth w1 (neededRegions promptRegions) in
    match missing with
    | _ :: _ =>
      set_scan (with_isStarting false) (showAuthRequiredModal missing w1)
    | [] =>
      let auth := authPlatforms w1 in
      match auth with
      | [] => set_scan (with_isStarting false) (showAuthRequiredModal [] w1)
      | _ :: _ =>
        let samples :=
          JS.num_or (samples_per_prompt <$> productConfig (products w1)) 1 in
        let limited := limitedPlatforms (products w1) samples auth in
        let w2 := set_scan (with_isScanning true) w1 in
        let w3 := resetProgress w2 in
        let w4 := showView "scanning" w3 in
        let params :=
          {| productId := pid; samplesPerPrompt := samples;
             sp_platforms := limited;
             maxTests := if isUnlimited (dailyUsage (products w4)) then None
                         else Some (availableTests (products w4)) |} in
        let w5 := invoke (start_scan params) w4 in
        match startScanCmd b params with
        | Ok _ => set_scan (with_isStarting false) w5
        | Err e => start_failed e w5
        end
      end
    end
  end.

(** [startScan], run to completion without another handler in between. *)
Definition startScan (b : Backend) (w : World) : World :=
  if isStarting (scan w) || isScanning (scan w) then w
  else
    match selectedProductId (products w) with
    | None | Some EmptyString => w
    | Some pid =>
      if negb (hasAnyAuth (regions w)) then showAuthRequiredModal [] w
      else
        let w1 := set_scan (with_isStarting true) w in
        let w2 := loadDailyUsage b w1 in
        let w3 := loadProductPromptCount b pid w2 in
        let du := dailyUsage (products w3) in
        if quota_blocks (products w3) then
          let w4 :=
            if 0 <? pendingEvaluations du
            then showMessage
                   ("Please wait - " ++ Z_to_string (pendingEvaluations du)
                    ++ " tests are pending evaluation")
                   "Cannot Start Scan" "warning" w3
            else showMessage
                   ("Daily limit reached (" ++ Z_to_string (current du)
                    ++ "/" ++ Z_to_string (limit du)
                    ++ "). Resets at midnight.")
                   "Cannot Start Scan" "warning" w3 in
          set_scan (with_isStarting false) w4
        else if promptCount (products w3) =? 0 then
          set_scan (with_isStarting false)
            (showMessage
               "No prompts configured for this product. Add prompts in the dashboard."
               "No Prompts" "warning" w3)
        else start_checked b pid w3
    end.

End StartScan.

(** ** The realtime debounce (src/composables/useSupabaseRealtime) *)

Module Realtime.

(** The debounce window of [debouncedRefresh], in milliseconds. *)
Definition window : nat := 500.

(** The host's timer table together with the module variable
    [refreshTimer].  Time is counted in milliseconds.  The only closure
    this module ever hands to [setTimeout] is the refresh callback, so a
    pending timeout is its handle and its deadline.  Handles are positive
    numbers, hence truthy. *)
Record State : Type := {
  now : nat;
  next_handle : positive;
  timers : gmap positive nat;
  refreshTimer : option positive;
  refreshes : list nat;
  world : World
}.

Definition init (w : World) : State :=
  {| now := 0; next_handle := 1%positive; timers := ∅;
     refreshTimer := None; refreshes := []; world := w |}.

(** [setTimeout(callback, delay)]: a fresh handle, due [delay] ms from now. *)
Definition setTimeout (delay : nat) (st : State) : positive * State :=
  (next_handle st,
   {| now := now st; next_handle := Pos.succ (next_handle st);
      timers := <[next_handle st := (now st + delay)%nat]> (timers st);
      refreshTimer := refreshTimer st; refreshes := refreshes st;
      world := world st |}).

Definition clearTimeout (h : positive) (st : State) : State :=
  {| now := now st; next_handle := next_handle st;
     timers := delete h (timers st);
     refreshTimer := refreshTimer st; refreshes := refreshes st;
     world := world st |}.

Definition set_refreshTimer (r : option positive) (st : State) : State :=
  {| now := now st; next_handle := next_handle st; timers := timers st;
     refreshTimer := r; refreshes := refreshes st; world := world st |}.

Definition set_now (t : nat) (st : State) : State :=
  {| now := t; next_handle := next_handle st; timers := timers st;
     refreshTimer := refreshTimer st; refreshes := refreshes st;
     world := world st |}.

Section WithBackend.

Variable b : Backend.

(** The closure passed to [setTimeout]: call
    [productsStore.loadDailyUsage()] and forget the handle.  The call
    is logged with the time it happens at. *)
Definition callback (st : State) : State :=
  {| now := now st; next_handle := next_handle st; timers := timers st;
     refreshTimer := None;
     refreshes := refreshes st ++ [now st];
     world := Products.loadDailyUsage b (world st) |}.

Definition debouncedRefresh (st : State) : State :=
  let st1 :=
    match refreshTimer st with
    | Some h => clearTimeout h st
    | None => st
    end in
  let '(h, st2) := setTimeout window st1 in
  set_refreshTimer (Some h) st2.

(** The timer part of [cleanupSubscriptions]. *)
Definition cleanupSubscriptions (st : State) : State :=
  match refreshTimer st with
  | Some h => set_refreshTimer None (clearTimeout h st)
  | None => st
  end.

(** The host runs a timeout that is still pending: it leaves the table
    and its callback runs. *)
Definition fire (h : positive) (st : State) : State :=
  match timers st !! h with
  | Some _ => callback (clearTimeout h st)
  | None => st
  end.

(** One millisecond passes; the timeouts that are due run. *)
Definition tick (st : State) : State :=
  let st1 := set_now (S (now st)) st in
  let due :=
    List.filter (fun kd => Nat.leb kd.2 (now st1)) (map_to_list (timers st1)) in
  foldl (fun s kd => fire kd.1 s) st1 due.

Definition wait (n : nat) (st : State) : State := Nat.iter n tick st.

(** What can happen to the module: a change notification, the passing
    of a millisecond, a cleanup. *)
Inductive event : Type :=
| Signal
| Tick
| Cleanup.

Definition step (st : State) (e : event) : State :=
  match e with
  | Signal => debouncedRefresh st
  | Tick => tick st
  | Cleanup => cleanupSubscriptions st
  end.

Definition exec (evs : list event) (st : State) : State := foldl step st evs.

(** A burst: a first notification, then one more after each gap. *)
Definition burst (gaps : list nat) (st : State) : State :=
  foldl (fun s g => debouncedRefresh (wait g s)) (debouncedRefresh st) gaps.

(** The state right after a notification at time [t] that was given
    the handle [h]: that timeout alone is pending, due a window later. *)
Definition armed_at (t : nat) (h : positive) (r : list nat) (w : World)
  : State :=
  {| now := t; next_handle := Pos.succ h;
     timers := {[ h := (t + window)%nat ]};
     refreshTimer := Some h; refreshes := r; world := w |}.

(** The time the last notification of a burst arrives at, for a burst
    that starts at [t0]. *)
Definition last_signal (t0 : nat) (gaps : list nat) : nat :=
  (t0 + foldr Nat.add 0 gaps)%nat.

(** The single-slot discipline: the table holds nothing, or exactly the
    timeout [refreshTimer] names, which is due within the window. *)
Definition single_slot (st : State) : Prop :=
  (refreshTimer st = None /\ timers st = ∅) \/
  (exists h d, refreshTimer st = Some h /\ timers st = {[h := d]} /\
               (now st < d <= now st + window)%nat).

End WithBackend.

End Realtime.

(** ** Notions the statements below are phrased with *)

Module Spec.

(** The sum of one counter over all platforms of a snapshot. *)
Definition sum_of (f : PlatformState -> Z) (m : gmap string PlatformState) : Z :=
  foldr Z.add 0 (f <$> Object_values m).

(** A snapshot with one platform. *)
Definition single (id st : string) (t s c : Z) : gmap string PlatformState :=
  {[ id := {| status := st; total := t; submitted := s; collected := c |} ]}.

(** A payload that carries a platform snapshot and nothing else. *)
Definition snapshot (m : gmap string PlatformState) : ScanProgress :=
  {| pd_phase := None; pd_platforms := Some m;
     pd_countdownSeconds := JS.Undefined |}.

(** A payload that carries only the countdown field. *)
Definition countdown_only (c : JS.js_opt) : ScanProgress :=
  {| pd_phase := None; pd_platforms := None; pd_countdownSeconds := c |}.

(** The counters of a platform are counts. *)
Definition nonneg_counters (st : PlatformState) : Prop :=
  0 <= total st /\ 0 <= submitted st /\ 0 <= collected st.

(** A scan store right after a scan started, no platform known yet. *)
Definition fresh_scan : ScanStore := with_isScanning true initial_scan.

(** [n] occurs in [h] as a substring. *)
Definition contains (h n : string) : Prop :=
  exists a b : string, h = (a ++ n ++ b)%string.

(** The message a [scan:error] payload carries; an object without
    [message] carries none. *)
Definition payload_message (error : ScanError) : string :=
  match error with
  | ErrString s => s
  | ErrObject (Some m) => m
  | ErrObject None => EmptyString
  end.

(** The intended invariant of a platform's counters. *)
Definition consistent (st : PlatformState) : Prop :=
  submitted st <= total st /\ collected st <= total st.

(** A scan in which two platforms were reported, one of them collecting. *)
Definition scan_two_platforms : ScanStore :=
  with_platforms
    (<["claude" := {| status := "collecting"; total := 5;
                      submitted := 5; collected := 2 |}]>
       (single "chatgpt" "submitting" 5 3 0))
    fresh_scan.

(** A world in which a scan is running and the scanning view is shown. *)
Definition scanning_world : World :=
  showView "scanning" (set_scan (with_isScanning true) initial_world).

(** A world ready to scan: a product is selected, two platforms are
    known and chatgpt is signed in for the local region. *)
Definition ready_world : World :=
  {| scan := initial_scan;
     products :=
       {| selectedProductId := Some "prod-1"; productConfig := None;
          promptCount := 0; dailyUsage := dailyUsage initial_products |};
     ui := with_currentView "main" initial_ui;
     regions := {| configuredRegions := ["local"];
                   platformAuthStatus := {[ "local:chatgpt" := true ]} |};
     platformsStore := {| platformIds := ["chatgpt"; "claude"] |};
     trace := [] |}.

(** What the backend answers for the product: five prompts without a
    quota of their own, no target region, and a scan that starts. *)
Definition backend_with (usage : Result UsageResponse) : Backend :=
  {| checkDailyUsage := usage;
     fetchExtensionPrompts := fun _ =>
       Ok (Some {| prompts_length := Some 5; totalPrompts := Some 5;
                   quota := None |});
     getPromptTargetRegions := fun _ => Ok [("prompt-1", [])];
     startScanCmd := fun _ => Ok () |}.

(** An unlimited plan, told by the limit -1, with nothing remaining. *)
Definition usage_unlimited : UsageResponse :=
  {| u_current := Some 12; u_limit := Some (-1); u_remaining := Some 0;
     u_effectiveRemaining := Some 0; u_pendingEvaluations := None;
     u_isUnlimited := None; u_plan := Some "pro" |}.

(** A complete answer of the usage check. *)
Definition usage_full : UsageResponse :=
  {| u_current := Some 3; u_limit := Some 10; u_remaining := Some 7;
     u_effectiveRemaining := Some 6; u_pendingEvaluations := Some 1;
     u_isUnlimited := Some false; u_plan := Some "starter" |}.

(** A later answer that carries the usage count only. *)
Definition usage_partial : UsageResponse :=
  {| u_current := Some 4; u_limit := None; u_remaining := None;
     u_effectiveRemaining := None; u_pendingEvaluations := None;
     u_isUnlimited := None; u_plan := None |}.

(** A scan that shows a countdown of 45 seconds. *)
Definition scan_counting_down : ScanStore :=
  with_countdownSeconds (Some 45) fresh_scan.

End Spec.

(** ** More of the regions store (src/stores/regions) *)

Module Regions.

Record Country : Type := {
  code : string;
  name : string;
  flag_emoji : string
}.

(** A command the regions store sends. *)
Inductive RegionCommand : Type :=
| get_configured_proxy_countries
| set_country_platform_auth (countryCode : string) (platform : option string)
    (authenticated : bool)
| set_platform_auth_status (countryCode platform : string)
    (authenticated : bool).

Definition with_platformAuthStatus (m : gmap string bool) (r : RegionsStore)
  : RegionsStore :=
  {| configuredRegions := configuredRegions r; platformAuthStatus := m |}.

Definition with_configuredRegions (l : list string) (r : RegionsStore)
  : RegionsStore :=
  {| configuredRegions := l; platformAuthStatus := platformAuthStatus r |}.

(** [platformAuthStatus[`${region}:${platform}`] = authenticated]: the
    handler of [platform-auth-changed] and the first statement of
    [setAuthStatus]. *)
Definition assign_auth (region platform : string) (authenticated : bool)
    (r : RegionsStore) : RegionsStore :=
  with_platformAuthStatus
    (<[auth_key region platform := authenticated]> (platformAuthStatus r)) r.

Definition setAuthStatus (region platform : string) (authenticated : bool)
    (r : RegionsStore) : RegionsStore * list RegionCommand :=
  (assign_auth region platform authenticated r,
   [set_platform_auth_status region platform authenticated]).

(** [handleToggleAuth] of the region-auth view, for the region shown. *)
Definition handleToggleAuth (selectedAuthRegion platform : string)
    (r : RegionsStore) : RegionsStore * list RegionCommand :=
  let currentStatus := isPlatformAuthForRegion r selectedAuthRegion platform in
  setAuthStatus selectedAuthRegion platform (negb currentStatus) r.

Definition getAuthCountForRegion (ids : list string) (r : RegionsStore)
    (region : string) : nat :=
  length (List.filter (fun p => isPlatformAuthForRegion r region p) ids).

(** [array.includes(x)] on strings. *)
Definition includes_str (l : list string) (x : string) : bool :=
  existsb (String.eqb x) l.

Definition addRegion (ids : list string) (regionCode : string)
    (r : RegionsStore) : RegionsStore * list RegionCommand :=
  if includes_str (configuredRegions r) regionCode then (r, [])
  else
    let r1 := with_configuredRegions (configuredRegions r ++ [regionCode]) r in
    let r2 :=
      foldl (fun acc platform => assign_auth regionCode platform false acc)
            r1 ids in
    (r2, [set_country_platform_auth regionCode (head ids) false]).

Definition removeRegion (ids : list string) (regionCode : string)
    (r : RegionsStore) : RegionsStore :=
  if String.eqb regionCode "local" then r
  else
    let r1 :=
      with_configuredRegions
        (List.filter (fun x => negb (String.eqb x regionCode))
                     (configuredRegions r)) r in
    foldl (fun acc platform =>
             with_platformAuthStatus
               (delete (auth_key regionCode platform) (platformAuthStatus acc))
               acc)
          r1 ids.

(** [loadConfiguredRegions]; [availableCountries] is the store's list of
    countries and [answer] what [get_configured_proxy_countries] returns
    when it is asked. *)
Definition loadConfiguredRegions (availableCountries : list Country)
    (answer : Result (option (list string))) (r : RegionsStore)
  : RegionsStore * list RegionCommand :=
  match availableCountries with
  | [] => (with_configuredRegions ["local"] r, [])
  | _ :: _ =>
    match answer with
    | Ok (Some (x :: xs)) =>
      let validRegions :=
        List.filter
          (fun r' =>
             existsb (fun c => String.eqb (JS.toLowerCase (code c))
                                          (JS.toLowerCase r'))
                     availableCountries)
          (x :: xs) in
      (with_configuredRegions ("local" :: validRegions) r,
       [get_configured_proxy_countries])
    | Ok _ => (with_configuredRegions ["local"] r,
               [get_configured_proxy_countries])
    | Err _ => (with_configuredRegions ["local"] r,
                [get_configured_proxy_countries])
    end
  end.

(** Does a region code contain the separator of [auth_key]. *)
Fixpoint has_colon (s : string) : bool :=
  match s with
  | EmptyString => false
  | String c s' => Ascii.eqb c ":" || has_colon s'
  end.

End Regions.

(** ** Event handlers (src/composables/useTauriEvents) and [cancelScan] *)

Module Events.

Definition set_regions (f : RegionsStore -> RegionsStore) (w : World) : World :=
  {| scan := scan w; products := products w; ui := ui w;
     regions := f (regions w); platformsStore := platformsStore w;
     trace := trace w |}.

(** The listener of [scan:started]. *)
Definition on_scan_started (b : Backend) (w : World) : World :=
  let w1 :=
    if isScanning (scan w) then w
    else showView "scanning"
           (Scan.resetProgress (set_scan (with_isScanning true) w)) in
  Products.loadDailyUsage b w1.

(** The listener of [scan:progress]. *)
Definition on_scan_progress (payload : option ScanProgress) (w : World) : World :=
  set_scan (Scan.updateProgress payload) w.

(** The listener of [scan:countdown]. *)
Definition on_scan_countdown (seconds : Z) (w : World) : World :=
  set_scan (Scan.setCountdown seconds) w.

(** The listener of [platform-auth-changed]. *)
Definition on_platform_auth_changed (region platform : string)
    (authenticated : bool) (w : World) : World :=
  set_regions (Regions.assign_auth region platform authenticated) w.

(** [cancelScan] of the scan store; [answer] is what [cancel_scan]
    returns.  A rejection is logged and nothing else happens. *)
Definition cancelScan (answer : Result unit) (w : World) : World :=
  let w1 := invoke cancel_scan w in
  match answer with
  | Ok _ => showView "main" (set_scan (with_isScanning false) w1)
  | Err _ => w1
  end.

End Events.

(** ** What the views compute from the stores *)

Module MainView.

(** [canScan] of the main view:
    [dailyUsage.isUnlimited || availableTests > 0]. *)
Definition canScan (p : ProductsStore) : bool :=
  isUnlimited (dailyUsage p) || (0 <? Products.availableTests p).

End MainView.

Module ScanControls.

(** [canScan] of the scan button: a product is selected, some platform is
    signed in, tests are available and no scan is running. *)
Definition canScan (w : World) : bool :=
  match selectedProductId (products w) with
  | Some (String _ _) =>
    hasAnyAuth (regions w)
    && (0 <? Products.availableTests (products w))
    && negb (isScanning (scan w))
  | _ => false
  end.

End ScanControls.

Module ProgressBarLabel.

(** The label of [ProgressBar]: [Math.round(percentage)]. *)
Definition label (value max : Z) : Z :=
  JS.Math_round (ProgressBar.percentage value max).

End ProgressBarLabel.

(** ** The first front end (main.js) *)

Module Legacy.

(** The local [percent] of [updateScanProgress]. *)
Definition percent (progress : ScanProgress) : Z :=
  let '(totalSubmitted, totalCollected, totalTasks) :=
    match pd_platforms progress with
    | Some m => foldl Scan.totals_step (0, 0, 0) (Object_values m)
    | None => (0, 0, 0)
    end in
  if 0 <? totalTasks
  then Scan.overall_percent totalSubmitted totalCollected totalTasks
  else 0.

(** What [updateScanProgress] does to the countdown line: the seconds it
    shows, or nothing when it hides the line. *)
Definition countdown (progress : ScanProgress) : option Z :=
  match pd_countdownSeconds progress with
  | JS.Num n => Some n
  | _ => None
  end.

(** [platformPercent] of one platform row. *)
Definition platformPercent (state : PlatformState) : Z :=
  if 0 <? total state
  then JS.Math_round
         (JS.fmul (JS.fdiv (inject_Z (submitted state + collected state))
                           (inject_Z (total state * 2)))
                  (inject_Z 100))
  else 0.

(** [error.message || String(error)] of [handleScanError]; a string has
    no [message]. *)
Definition errorMsg (error : ScanError) : string :=
  match error with
  | ErrString s => JS.str_or None s
  | ErrObject m => JS.str_or m "[object Object]"
  end.

Definition isCancelled (error : ScanError) : bool :=
  JS.includes (JS.toLowerCase (errorMsg error)) "cancel".

End Legacy.

(** ** More of the realtime composable *)

Module RealtimeConn.

(** A call on the Supabase client. *)
Inductive ChannelOp : Type :=
| subscribe (channel : string)
| removeChannel (channel : string).

(** The module variables [promptResultsChannel] and [realtimeSetup]
    beside the debounce state, and the calls made on the client.  The
    [isConnected] ref belongs to each caller of the composable; none of
    the functions below reads it. *)
Record Conn : Type := {
  rt : Realtime.State;
  promptResultsChannel : option string;
  realtimeSetup : bool;
  client_ops : list ChannelOp
}.

Definition init (w : World) : Conn :=
  {| rt := Realtime.init w; promptResultsChannel := None;
     realtimeSetup := false; client_ops := [] |}.

Definition cleanupSubscriptions (c : Conn) : Conn :=
  let '(ch, ops) :=
    match promptResultsChannel c with
    | Some name => (None, client_ops c ++ [removeChannel name])
    | None => (None, client_ops c)
    end in
  {| rt := Realtime.cleanupSubscriptions (rt c);
     promptResultsChannel := ch; realtimeSetup := realtimeSetup c;
     client_ops := ops |}.

Definition setupRealtimeSubscriptions (organizationId : string) (c : Conn)
  : Conn :=
  let c1 := cleanupSubscriptions c in
  let name := ("prompt-results-" ++ organizationId)%string in
  {| rt := rt c1; promptResultsChannel := Some name;
     realtimeSetup := realtimeSetup c1;
     client_ops := client_ops c1 ++ [subscribe name] |}.

Definition set_realtimeSetup (v : bool) (c : Conn) : Conn :=
  {| rt := rt c; promptResultsChannel := promptResultsChannel c;
     realtimeSetup := v; client_ops := client_ops c |}.

Definition initializeRealtime (organizationId : string) (c : Conn) : Conn :=
  if realtimeSetup c then c
  else set_realtimeSetup true (setupRealtimeSubscriptions organizationId c).

Definition disconnectRealtime (c : Conn) : Conn :=
  set_realtimeSetup false (cleanupSubscriptions c).

(** The handler of an UPDATE on [prompt_results]: only a record whose
    status is ['evaluated'] asks for a refresh. *)
Definition on_update (status : option string) (st : Realtime.State)
  : Realtime.State :=
  match status with
  | Some s => if String.eqb s "evaluated" then Realtime.debouncedRefresh st
              else st
  | None => st
  end.

(** The times at which refreshes happen during a train of notifications
    that starts at [t]: one a window after each notification that the
    next one does not follow within the window. *)
Fixpoint refresh_times (t : nat) (gaps : list nat) : list nat :=
  match gaps with
  | [] => []
  | g :: gaps' =>
    (if Nat.leb Realtime.window g then [(t + Realtime.window)%nat] else [])
    ++ refresh_times (t + g) gaps'
  end.

(** What [n] refreshes of the quota do to the world. *)
Definition refreshed (b : Backend) (n : nat) (w : World) : World :=
  Nat.iter n (Products.loadDailyUsage b) w.

End RealtimeConn.

(** ** Runs of the realtime connection *)

Module ConnRun.

Import RealtimeConn.

(** What can happen to the connection: the app signs in and initializes
    it, signs out and disconnects it, a row is inserted, a row is updated
    with some status, a millisecond passes. *)
Inductive conn_event : Type :=
| Initialize (organizationId : string)
| Disconnect
| Inserted
| Updated (status : option string)
| Millisecond.

Definition on_rt (f : Realtime.State -> Realtime.State) (c : Conn) : Conn :=
  {| rt := f (rt c); promptResultsChannel := promptResultsChannel c;
     realtimeSetup := realtimeSetup c; client_ops := client_ops c |}.

Definition conn_step (b : Backend) (c : Conn) (e : conn_event) : Conn :=
  match e with
  | Initialize org => initializeRealtime org c
  | Disconnect => disconnectRealtime c
  | Inserted => on_rt Realtime.debouncedRefresh c
  | Updated status => on_rt (on_update status) c
  | Millisecond => on_rt (Realtime.tick b) c
  end.

Definition conn_exec (b : Backend) (evs : list conn_event) (c : Conn) : Conn :=
  foldl (conn_step b) c evs.

(** The channels a sequence of client calls leaves subscribed. *)
Definition open_channels (ops : list ChannelOp) : list string :=
  foldl (fun acc op =>
           match op with
           | subscribe name => acc ++ [name]
           | removeChannel name =>
             List.filter (fun n => negb (String.eqb n name)) acc
           end)
        [] ops.

(** What every run of the connection keeps: the debounce is single-slot,
    the client holds exactly the channel the module remembers, and the
    set-up flag is only up while a channel is held. *)
Definition conn_inv (c : Conn) : Prop :=
  Realtime.single_slot (rt c)
  /\ open_channels (client_ops c)
     = match promptResultsChannel c with
       | Some name => [name]
       | None => []
       end
  /\ (realtimeSetup c = true ->
      exists name, promptResultsChannel c = Some name).

End ConnRun.

(** ** The download progress of the updater (src/stores/ui) *)

Module Updater.

(** An [UpdateProgress] event handed to the callback of
    [downloadAndInstall]. *)
Inductive UpdateEvent : Type :=
| Started (contentLength : option Z)
| Progress (chunkLength : option Z)
| Finished.

(** The two locals of [installUpdate] and the store's [updateProgress]. *)
Record Download : Type := {
  downloaded : Z;
  contentLength : Z;
  updateProgress : Z
}.

(** The state [installUpdate] hands to the callback. *)
Definition start : Download :=
  {| downloaded := 0; contentLength := 0; updateProgress := 0 |}.

Definition callback (d : Download) (ev : UpdateEvent) : Download :=
  match ev with
  | Started cl =>
    {| downloaded := downloaded d; contentLength := JS.num_or cl 0;
       updateProgress := 0 |}
  | Progress chunk =>
    let downloaded' := downloaded d + JS.num_or chunk 0 in
    {| downloaded := downloaded'; contentLength := contentLength d;
       updateProgress :=
         if 0 <? contentLength d
         then JS.Math_round
                (JS.fmul (JS.fdiv (inject_Z downloaded')
                                  (inject_Z (contentLength d)))
                         (inject_Z 100))
         else updateProgress d |}
  | Finished =>
    {| downloaded := downloaded d; contentLength := contentLength d;
       updateProgress := 100 |}
  end.

Definition run (evs : list UpdateEvent) (d : Download) : Download :=
  foldl callback d evs.

(** The bytes a list of events reports. *)
Definition chunk_of (ev : UpdateEvent) : Z :=
  match ev with
  | Progress chunk => JS.num_or chunk 0
  | _ => 0
  end.

Definition is_progress (ev : UpdateEvent) : Prop :=
  match ev with
  | Progress _ => True
  | _ => False
  end.

End Updater.

(** * Properties *)

(** ** Arithmetic of the percentage formulas *)

Lemma or0_zero (x : Z) : JS.or0 x 0 = x.
Proof. unfold JS.or0. destruct (Z.eqb_spec x 0); congruence. Qed.

Lemma Math_round_ratio (n d : Z) :
  JS.Math_round (inject_Z n / inject_Z d)%Q = (2 * n + d) / (2 * d).
Proof.
  unfold JS.Math_round.
  destruct (Z.eq_dec d 0) as [-> | Hd].
  - rewrite Z.mul_0_r, Z.div_0_r.
    assert (E : (inject_Z n / inject_Z 0 + (1 # 2) == 1 # 2)%Q).
    { unfold Qdiv, Qinv. simpl. ring. }
    rewrite E. reflexivity.
  - rewrite Zdiv_Qdiv. apply Qfloor_comp.
    rewrite !inject_Z_plus, !inject_Z_mult.
    assert (Hq : ~ (inject_Z d == 0)%Q).
    { intros H. apply Hd. unfold Qeq in H. simpl in H. lia. }
    change (inject_Z 2) with (2 # 1)%Q. field. auto.
Qed.

(** ** Rounding to doubles

    [JS.fl] is monotone, and it keeps the integers the formulas use. *)

Section Doubles.

Local Open Scope Q_scope.

Lemma rhe_floor_bounds (q : Q) :
  (Qfloor q <= JS.round_half_even q <= Qfloor q + 1)%Z.
Proof.
  unfold JS.round_half_even.
  destruct (Qcompare (q - inject_Z (Qfloor q)) (1 # 2));
    try destruct (Z.even (Qfloor q)); lia.
Qed.

Lemma rhe_ge (q : Q) (k : Z) : inject_Z k <= q -> (k <= JS.round_half_even q)%Z.
Proof.
  intros H. pose proof (rhe_floor_bounds q).
  assert (k <= Qfloor q)%Z.
  { rewrite <- (Qfloor_Z k). apply Qfloor_resp_le, H. }
  lia.
Qed.

Lemma rhe_le (q : Q) (k : Z) : q <= inject_Z k -> (JS.round_half_even q <= k)%Z.
Proof.
  intros H.
  assert (Hf : (Qfloor q <= k)%Z).
  { rewrite <- (Qfloor_Z k). apply Qfloor_resp_le, H. }
  destruct (Z.eq_dec (Qfloor q) k) as [E | E].
  - unfold JS.round_half_even.
    destruct (Qcompare (q - inject_Z (Qfloor q)) (1 # 2)) eqn:C.
    + apply Qeq_alt in C. rewrite E in C. lra.
    + lia.
    + apply Qgt_alt in C. rewrite E in C. lra.
  - pose proof (rhe_floor_bounds q). lia.
Qed.

Lemma rhe_mono (x y : Q) : x <= y -> (JS.round_half_even x <= JS.round_half_even y)%Z.
Proof.
  intros H.
  assert (Hf : (Qfloor x <= Qfloor y)%Z) by apply Qfloor_resp_le, H.
  destruct (Z.eq_dec (Qfloor x) (Qfloor y)) as [E | E].
  - unfold JS.round_half_even. rewrite <- E.
    destruct (Qcompare (x - inject_Z (Qfloor x)) (1 # 2)) eqn:Cx;
      destruct (Qcompare (y - inject_Z (Qfloor x)) (1 # 2)) eqn:Cy;
      try destruct (Z.even (Qfloor x)); try lia; exfalso;
      first [apply Qeq_alt in Cx | apply Qlt_alt in Cx | apply Qgt_alt in Cx];
      first [apply Qeq_alt in Cy | apply Qlt_alt in Cy | apply Qgt_alt in Cy];
      lra.
  - pose proof (rhe_floor_bounds x). pose proof (rhe_floor_bounds y). lia.
Qed.

Lemma pow2_pos (z : Z) : 0 < 2 ^ z.
Proof. apply Qpower_0_lt. reflexivity. Qed.

Lemma pow2_add (a b : Z) : 2 ^ (a + b) == 2 ^ a * 2 ^ b.
Proof. apply Qpower_plus. discriminate. Qed.

Lemma pow2_le (a b : Z) : (a <= b)%Z -> 2 ^ a <= 2 ^ b.
Proof. intros H. apply Qpower_le_compat_l; [exact H | discriminate]. Qed.

Lemma pow2_inject (n : Z) : (0 <= n)%Z -> inject_Z (2 ^ n) == 2 ^ n.
Proof. intros H. apply (Zpower_Qpower 2 n H). Qed.

Lemma Qnum_pos (q : Q) : 0 < q <-> (0 < Qnum q)%Z.
Proof. unfold Qlt. cbn. rewrite Z.mul_1_r. reflexivity. Qed.

Lemma Q_as_div (q : Q) : q == inject_Z (Qnum q) / inject_Z (Zpos (Qden q)).
Proof.
  destruct q as [n d]. unfold Qeq, Qdiv, Qmult, Qinv, inject_Z. cbn. lia.
Qed.

Lemma ilog2_spec (q : Q) :
  0 < q -> 2 ^ JS.ilog2 q <= q /\ q < 2 ^ (JS.ilog2 q + 1).
Proof.
  intros Hq. unfold JS.ilog2.
  set (n := Qnum q). set (d := Zpos (Qden q)).
  assert (Hn : (0 < n)%Z) by (apply Qnum_pos, Hq).
  assert (Hd : (0 < d)%Z) by reflexivity.
  set (a := Z.log2 n). set (b := Z.log2 d).
  pose proof (Z.log2_spec n Hn) as [Ha1 Ha2]. fold a in Ha1, Ha2.
  pose proof (Z.log2_spec d Hd) as [Hb1 Hb2]. fold b in Hb1, Hb2.
  assert (Ha0 : (0 <= a)%Z) by apply Z.log2_nonneg.
  assert (Hb0 : (0 <= b)%Z) by apply Z.log2_nonneg.
  assert (Eq : q == inject_Z n / inject_Z d) by apply Q_as_div.
  assert (Qa1 : 2 ^ a <= inject_Z n).
  { rewrite <- pow2_inject by exact Ha0. rewrite <- Zle_Qle. exact Ha1. }
  assert (Qa2 : inject_Z n < 2 ^ (a + 1)).
  { rewrite <- pow2_inject by lia. rewrite <- Zlt_Qlt.
    replace (a + 1)%Z with (Z.succ a) by lia. exact Ha2. }
  assert (Qb1 : 2 ^ b <= inject_Z d).
  { rewrite <- pow2_inject by exact Hb0. rewrite <- Zle_Qle. exact Hb1. }
  assert (Qb2 : inject_Z d < 2 ^ (b + 1)).
  { rewrite <- pow2_inject by lia. rewrite <- Zlt_Qlt.
    replace (b + 1)%Z with (Z.succ b) by lia. exact Hb2. }
  assert (Qd : 0 < inject_Z d) by (rewrite <- (Zlt_Qlt 0); exact Hd).
  assert (Qn : q * inject_Z d == inject_Z n).
  { rewrite Eq. field. lra. }
  pose proof (pow2_pos a). pose proof (pow2_pos b).
  pose proof (pow2_pos (a - b)). pose proof (pow2_pos (a - b - 1)).
  assert (P1 : 2 ^ (a + 1) == 2 ^ (a - b + 1) * 2 ^ b).
  { rewrite <- pow2_add. replace (a - b + 1 + b)%Z with (a + 1)%Z by lia.
    reflexivity. }
  assert (P2 : 2 ^ a == 2 ^ (a - b - 1) * 2 ^ (b + 1)).
  { rewrite <- pow2_add. replace (a - b - 1 + (b + 1))%Z with a by lia.
    reflexivity. }
  assert (P3 : 2 ^ (a - b) == 2 ^ (a - b - 1 + 1)).
  { replace (a - b - 1 + 1)%Z with (a - b)%Z by lia. reflexivity. }
  destruct (Qle_bool (2 ^ (a - b)) q) eqn:E.
  - apply Qle_bool_iff in E. split; [exact E |].
    (* q * d = n < 2^(a+1) = 2^(k+1) * 2^b <= 2^(k+1) * d *)
    pose proof (pow2_pos (a - b + 1)).
    apply Qnot_le_lt. intros Hc.
    assert (2 ^ (a - b + 1) * 2 ^ b <= q * inject_Z d).
    { apply Qle_trans with (2 ^ (a - b + 1) * inject_Z d).
      - apply Qmult_le_l; assumption.
      - apply Qmult_le_r; assumption. }
    lra.
  - assert (Hlt : q < 2 ^ (a - b)).
    { apply Qnot_le_lt. intros Hc. apply Qle_bool_iff in Hc. congruence. }
    split; [| rewrite <- P3; exact Hlt].
    apply Qnot_lt_le. intros Hc.
    assert (q * inject_Z d < 2 ^ (a - b - 1) * 2 ^ (b + 1)).
    { apply Qle_lt_trans with (2 ^ (a - b - 1) * inject_Z d).
      - apply Qmult_le_r; [assumption | apply Qlt_le_weak, Hc].
      - apply Qmult_lt_l; assumption. }
    lra.
Qed.

Lemma ilog2_mono (x y : Q) : 0 < x -> x <= y -> (JS.ilog2 x <= JS.ilog2 y)%Z.
Proof.
  intros Hx Hxy.
  destruct (ilog2_spec x Hx) as [Hx1 _].
  destruct (ilog2_spec y) as [_ Hy2]; [lra |].
  destruct (Z_le_gt_dec (JS.ilog2 x) (JS.ilog2 y)) as [H | H]; [exact H |].
  exfalso. assert (2 ^ (JS.ilog2 y + 1) <= 2 ^ JS.ilog2 x) by (apply pow2_le; lia).
  lra.
Qed.

Lemma exponent_mono (x y : Q) :
  0 < x -> x <= y ->
  (Z.max (JS.ilog2 x - 52) (-1074) <= Z.max (JS.ilog2 y - 52) (-1074))%Z.
Proof. intros Hx Hxy. pose proof (ilog2_mono x y Hx Hxy). lia. Qed.

Lemma scaled_le (x y : Q) (e : Z) : x <= y -> x / 2 ^ e <= y / 2 ^ e.
Proof.
  intros H. pose proof (pow2_pos e). unfold Qdiv.
  apply Qmult_le_compat_r; [exact H |].
  apply Qlt_le_weak, Qinv_lt_0_compat. assumption.
Qed.

Lemma fl_pos_upper (x : Q) :
  0 < x -> JS.fl_pos x <= 2 ^ (Z.max (JS.ilog2 x - 52) (-1074) + 53).
Proof.
  intros Hx. unfold JS.fl_pos.
  set (e := Z.max (JS.ilog2 x - 52) (-1074)).
  destruct (ilog2_spec x Hx) as [_ H2].
  pose proof (pow2_pos e) as He.
  assert (Hle : 2 ^ (JS.ilog2 x + 1) <= 2 ^ (53 + e)) by (apply pow2_le; lia).
  assert (Hs : x / 2 ^ e <= inject_Z (2 ^ 53)).
  { rewrite pow2_inject by lia. apply Qle_shift_div_r; [exact He |].
    rewrite <- pow2_add. lra. }
  apply rhe_le in Hs. rewrite Zle_Qle in Hs. rewrite pow2_inject in Hs by lia.
  rewrite Z.add_comm, pow2_add.
  apply Qmult_le_compat_r; [exact Hs | lra].
Qed.

Lemma fl_pos_lower (y : Q) :
  0 < y -> (-1074 < Z.max (JS.ilog2 y - 52) (-1074))%Z ->
  2 ^ (Z.max (JS.ilog2 y - 52) (-1074) + 52) <= JS.fl_pos y.
Proof.
  intros Hy Hn. unfold JS.fl_pos.
  set (e := Z.max (JS.ilog2 y - 52) (-1074)) in *.
  assert (Ee : (JS.ilog2 y = e + 52)%Z) by lia.
  destruct (ilog2_spec y Hy) as [H1 _]. rewrite Ee in H1.
  pose proof (pow2_pos e) as He.
  assert (Hs : inject_Z (2 ^ 52) <= y / 2 ^ e).
  { rewrite pow2_inject by lia. apply Qle_shift_div_l; [exact He |].
    rewrite <- pow2_add. rewrite Z.add_comm. exact H1. }
  apply rhe_ge in Hs. rewrite Zle_Qle in Hs. rewrite pow2_inject in Hs by lia.
  rewrite Z.add_comm, pow2_add.
  apply Qmult_le_compat_r; [exact Hs | lra].
Qed.

Lemma fl_pos_mono (x y : Q) : 0 < x -> x <= y -> JS.fl_pos x <= JS.fl_pos y.
Proof.
  intros Hx Hxy.
  assert (Hy : 0 < y) by lra.
  pose proof (exponent_mono x y Hx Hxy) as He.
  destruct (Z.eq_dec (Z.max (JS.ilog2 x - 52) (-1074))
                     (Z.max (JS.ilog2 y - 52) (-1074))) as [E | E].
  - unfold JS.fl_pos. rewrite <- E.
    set (e := Z.max (JS.ilog2 x - 52) (-1074)).
    pose proof (pow2_pos e).
    apply Qmult_le_compat_r; [| lra].
    rewrite <- Zle_Qle. apply rhe_mono, scaled_le, Hxy.
  - apply Qle_trans with (2 ^ (Z.max (JS.ilog2 x - 52) (-1074) + 53)).
    + apply fl_pos_upper, Hx.
    + apply Qle_trans with (2 ^ (Z.max (JS.ilog2 y - 52) (-1074) + 52)).
      * apply pow2_le. lia.
      * apply fl_pos_lower; [exact Hy | lia].
Qed.

Lemma fl_pos_nonneg (x : Q) : 0 < x -> 0 <= JS.fl_pos x.
Proof.
  intros Hx. unfold JS.fl_pos.
  set (e := Z.max (JS.ilog2 x - 52) (-1074)).
  pose proof (pow2_pos e) as He.
  apply Qmult_le_0_compat; [| lra].
  rewrite <- (Zle_Qle 0). apply rhe_ge.
  apply Qle_shift_div_l; [exact He | change (inject_Z 0) with 0; lra].
Qed.

Lemma Qnum_neg (q : Q) : q < 0 <-> (Qnum q < 0)%Z.
Proof. unfold Qlt. cbn. rewrite Z.mul_1_r. reflexivity. Qed.

Lemma fl_cases (q : Q) :
  (q == 0 /\ JS.fl q = 0)
  \/ (0 < q /\ JS.fl q = JS.fl_pos q)
  \/ (q < 0 /\ JS.fl q = - JS.fl_pos (- q)).
Proof.
  unfold JS.fl. destruct (Qnum q) as [| p | p] eqn:E.
  - left. split; [| reflexivity]. unfold Qeq. cbn. rewrite E. reflexivity.
  - right. left. split; [| reflexivity]. apply Qnum_pos. rewrite E. reflexivity.
  - right. right. split; [| reflexivity]. apply Qnum_neg. rewrite E. reflexivity.
Qed.

(** Rounding to a double is monotone. *)
Lemma fl_mono (x y : Q) : x <= y -> JS.fl x <= JS.fl y.
Proof.
  intros H.
  destruct (fl_cases x) as [[Hx ->] | [[Hx ->] | [Hx ->]]];
    destruct (fl_cases y) as [[Hy ->] | [[Hy ->] | [Hy ->]]];
    try (exfalso; lra).
  - lra.
  - apply fl_pos_nonneg, Hy.
  - apply fl_pos_mono; assumption.
  - assert (0 <= JS.fl_pos (- x)) by (apply fl_pos_nonneg; lra). lra.
  - assert (0 <= JS.fl_pos (- x)) by (apply fl_pos_nonneg; lra).
    assert (0 <= JS.fl_pos y) by (apply fl_pos_nonneg; lra). lra.
  - assert (JS.fl_pos (- y) <= JS.fl_pos (- x)) by (apply fl_pos_mono; lra). lra.
Qed.

Lemma fl_proper (x y : Q) : x == y -> JS.fl x == JS.fl y.
Proof.
  intros H. apply Qle_antisym; apply fl_mono; rewrite H; apply Qle_refl.
Qed.

Lemma fl_le_const (x : Q) (c : Z) :
  JS.fl (inject_Z c) == inject_Z c -> x <= inject_Z c -> JS.fl x <= inject_Z c.
Proof. intros Hc H. rewrite <- Hc. apply fl_mono, H. Qed.

Lemma fl_ge_const (x : Q) (c : Z) :
  JS.fl (inject_Z c) == inject_Z c -> inject_Z c <= x -> inject_Z c <= JS.fl x.
Proof. intros Hc H. rewrite <- Hc. apply fl_mono, H. Qed.

Lemma fl_0 : JS.fl (inject_Z 0) == inject_Z 0.
Proof. reflexivity. Qed.

Lemma fl_1 : JS.fl (inject_Z 1) == inject_Z 1.
Proof. vm_compute. reflexivity. Qed.

Lemma fl_50 : JS.fl (inject_Z 50) == inject_Z 50.
Proof. vm_compute. reflexivity. Qed.

Lemma fl_100 : JS.fl (inject_Z 100) == inject_Z 100.
Proof. vm_compute. reflexivity. Qed.

Lemma fdiv_mono (a b t : Z) :
  (0 < t)%Z -> (a <= b)%Z ->
  JS.fdiv (inject_Z a) (inject_Z t) <= JS.fdiv (inject_Z b) (inject_Z t).
Proof.
  intros Ht Hab. unfold JS.fdiv. apply fl_mono.
  assert (0 < inject_Z t) by (rewrite <- (Zlt_Qlt 0); exact Ht).
  unfold Qdiv. apply Qmult_le_compat_r.
  - rewrite <- Zle_Qle. exact Hab.
  - apply Qlt_le_weak, Qinv_lt_0_compat. assumption.
Qed.

Lemma fdiv_nonneg (a t : Z) :
  (0 <= a)%Z -> (0 < t)%Z -> 0 <= JS.fdiv (inject_Z a) (inject_Z t).
Proof.
  intros Ha Ht. unfold JS.fdiv. apply (fl_ge_const _ 0 fl_0).
  assert (0 < inject_Z t) by (rewrite <- (Zlt_Qlt 0); exact Ht).
  apply Qle_shift_div_l; [assumption |].
  change (inject_Z 0 * inject_Z t) with (0 * inject_Z t).
  rewrite Qmult_0_l. rewrite <- (Zle_Qle 0). exact Ha.
Qed.

Lemma fdiv_le_1 (a t : Z) :
  (0 < t)%Z -> (a <= t)%Z -> JS.fdiv (inject_Z a) (inject_Z t) <= 1.
Proof.
  intros Ht Ha. unfold JS.fdiv. apply (fl_le_const _ 1 fl_1).
  assert (0 < inject_Z t) by (rewrite <- (Zlt_Qlt 0); exact Ht).
  apply Qle_shift_div_r; [assumption |].
  change (inject_Z 1) with 1. rewrite Qmult_1_l.
  rewrite <- Zle_Qle. exact Ha.
Qed.

Lemma fdiv_ratio (a b c d : Z) :
  b <> 0%Z -> d <> 0%Z -> (a * d = c * b)%Z ->
  JS.fdiv (inject_Z a) (inject_Z b) == JS.fdiv (inject_Z c) (inject_Z d).
Proof.
  intros Hb Hd H. unfold JS.fdiv. apply fl_proper.
  assert (Qb : ~ inject_Z b == 0).
  { intros E. apply Hb. unfold Qeq in E. simpl in E. lia. }
  assert (Qd : ~ inject_Z d == 0).
  { intros E. apply Hd. unfold Qeq in E. simpl in E. lia. }
  transitivity ((inject_Z a * inject_Z d) / (inject_Z b * inject_Z d)).
  - field. split; assumption.
  - rewrite <- inject_Z_mult, H, inject_Z_mult. field. split; assumption.
Qed.

Lemma fmul_proper (x y k : Q) : x == y -> JS.fmul x k == JS.fmul y k.
Proof. intros H. unfold JS.fmul. apply fl_proper. rewrite H. reflexivity. Qed.

Lemma fadd_proper (x y x' y' : Q) :
  x == x' -> y == y' -> JS.fadd x y == JS.fadd x' y'.
Proof.
  intros H1 H2. unfold JS.fadd. apply fl_proper. rewrite H1, H2. reflexivity.
Qed.

Lemma fmul_mono (x y : Q) (k : Z) :
  (0 <= k)%Z -> x <= y -> JS.fmul x (inject_Z k) <= JS.fmul y (inject_Z k).
Proof.
  intros Hk H. unfold JS.fmul. apply fl_mono.
  apply Qmult_le_compat_r; [exact H |].
  rewrite <- (Zle_Qle 0). exact Hk.
Qed.

Lemma fmul_nonneg (x : Q) (k : Z) :
  (0 <= k)%Z -> 0 <= x -> 0 <= JS.fmul x (inject_Z k).
Proof.
  intros Hk H. unfold JS.fmul. apply (fl_ge_const _ 0 fl_0).
  change (inject_Z 0) with 0. apply Qmult_le_0_compat; [exact H |].
  rewrite <- (Zle_Qle 0). exact Hk.
Qed.

Lemma fmul_le (x : Q) (k : Z) :
  (0 <= k)%Z -> JS.fl (inject_Z k) == inject_Z k -> x <= 1 ->
  JS.fmul x (inject_Z k) <= inject_Z k.
Proof.
  intros Hk Hfl H. unfold JS.fmul. apply (fl_le_const _ k Hfl).
  assert (0 <= inject_Z k) by (rewrite <- (Zle_Qle 0); exact Hk).
  rewrite <- (Qmult_1_l (inject_Z k)) at 2.
  apply Qmult_le_compat_r; assumption.
Qed.

Lemma fadd_mono (x y x' y' : Q) :
  x <= x' -> y <= y' -> JS.fadd x y <= JS.fadd x' y'.
Proof.
  intros H1 H2. unfold JS.fadd. apply fl_mono. apply Qplus_le_compat; assumption.
Qed.

End Doubles.

Lemma Math_round_mono (x y : Q) :
  (x <= y)%Q -> JS.Math_round x <= JS.Math_round y.
Proof.
  intros H. unfold JS.Math_round. apply Qfloor_resp_le.
  apply Qplus_le_compat; [exact H | apply Qle_refl].
Qed.

Lemma Math_round_comp (x y : Q) :
  (x == y)%Q -> JS.Math_round x = JS.Math_round y.
Proof.
  intros H. unfold JS.Math_round. apply Qfloor_comp. rewrite H. reflexivity.
Qed.

Lemma Math_round_inject_Z (v : Z) : JS.Math_round (inject_Z v) = v.
Proof.
  assert (E : (inject_Z v == inject_Z v / inject_Z 1)%Q).
  { unfold Qdiv. change (/ inject_Z 1)%Q with (inject_Z 1). ring. }
  unfold JS.Math_round.
  rewrite (Qfloor_comp _ (inject_Z v / inject_Z 1 + (1 # 2))%Q)
    by (rewrite <- E; reflexivity).
  change (JS.Math_round (inject_Z v / inject_Z 1)%Q = v).
  rewrite Math_round_ratio.
  rewrite Z.mul_1_r. symmetry. apply Z.div_unique with (r := 1); lia.
Qed.

(** ** The percentage formulas on doubles *)

(** [Math.round((x / c) * 100)], the shape of the card's, the row's and
    the updater's percent. *)
Lemma share_percent_lower (x c : Z) :
  0 <= x -> 0 < c ->
  0 <= JS.Math_round
         (JS.fmul (JS.fdiv (inject_Z x) (inject_Z c)) (inject_Z 100)).
Proof.
  intros Hx Hc.
  assert (H : (inject_Z 0
               <= JS.fmul (JS.fdiv (inject_Z x) (inject_Z c)) (inject_Z 100))%Q).
  { apply fmul_nonneg; [lia |]. apply fdiv_nonneg; assumption. }
  apply Math_round_mono in H. rewrite Math_round_inject_Z in H. exact H.
Qed.

Lemma share_percent_upper (x c : Z) :
  0 < c -> x <= c ->
  JS.Math_round
    (JS.fmul (JS.fdiv (inject_Z x) (inject_Z c)) (inject_Z 100)) <= 100.
Proof.
  intros Hc Hx.
  assert (H : (JS.fmul (JS.fdiv (inject_Z x) (inject_Z c)) (inject_Z 100)
               <= inject_Z 100)%Q).
  { apply fmul_le; [lia | apply fl_100 |]. apply fdiv_le_1; assumption. }
  apply Math_round_mono in H. rewrite Math_round_inject_Z in H. exact H.
Qed.

Lemma share_percent_mono (x y c : Z) :
  0 < c -> x <= y ->
  JS.Math_round (JS.fmul (JS.fdiv (inject_Z x) (inject_Z c)) (inject_Z 100))
  <= JS.Math_round (JS.fmul (JS.fdiv (inject_Z y) (inject_Z c)) (inject_Z 100)).
Proof.
  intros Hc Hxy. apply Math_round_mono. apply fmul_mono; [lia |].
  apply fdiv_mono; assumption.
Qed.

Lemma overall_percent_mono (s c s' c' t : Z) :
  0 < t -> s <= s' -> c <= c' ->
  Scan.overall_percent s c t <= Scan.overall_percent s' c' t.
Proof.
  intros Ht Hs Hc. unfold Scan.overall_percent.
  apply Math_round_mono. apply fadd_mono;
    (apply fmul_mono; [lia | apply fdiv_mono; assumption]).
Qed.

Lemma overall_percent_lower (s c t : Z) :
  0 < t -> 0 <= s -> 0 <= c -> 0 <= Scan.overall_percent s c t.
Proof.
  intros Ht Hs Hc. unfold Scan.overall_percent. cbv zeta.
  match goal with
  | |- _ <= JS.Math_round ?x => assert (H : (inject_Z 0 <= x)%Q)
  end.
  { unfold JS.fadd. apply (fl_ge_const _ 0 fl_0).
    change (inject_Z 0) with (0 + 0)%Q.
    apply Qplus_le_compat;
      (apply fmul_nonneg; [lia | apply fdiv_nonneg; assumption]). }
  apply Math_round_mono in H. rewrite Math_round_inject_Z in H. exact H.
Qed.

Lemma overall_percent_upper (s c t : Z) :
  0 < t -> s <= t -> c <= t -> Scan.overall_percent s c t <= 100.
Proof.
  intros Ht Hs Hc. unfold Scan.overall_percent. cbv zeta.
  match goal with
  | |- JS.Math_round ?x <= _ => assert (H : (x <= inject_Z 100)%Q)
  end.
  { unfold JS.fadd. apply (fl_le_const _ 100 fl_100).
    change (inject_Z 100) with (inject_Z 50 + inject_Z 50)%Q.
    apply Qplus_le_compat;
      (apply fmul_le; [lia | apply fl_50 | apply fdiv_le_1; assumption]). }
  apply Math_round_mono in H. rewrite Math_round_inject_Z in H. exact H.
Qed.

(** A quotient that is a ratio of small integers gives the percent of
    that ratio, whatever the size of the counters. *)
Lemma share_percent_ratio (x c a b : Z) :
  c <> 0 -> b <> 0 -> x * b = a * c ->
  JS.Math_round (JS.fmul (JS.fdiv (inject_Z x) (inject_Z c)) (inject_Z 100))
  = JS.Math_round (JS.fmul (JS.fdiv (inject_Z a) (inject_Z b)) (inject_Z 100)).
Proof.
  intros Hc Hb H. apply Math_round_comp, fmul_proper, fdiv_ratio; assumption.
Qed.

Lemma overall_percent_ratio (s c t a b : Z) :
  t <> 0 -> s * 1 = a * t -> c * 1 = b * t ->
  Scan.overall_percent s c t = Scan.overall_percent a b 1.
Proof.
  intros Ht Hs Hc. unfold Scan.overall_percent. cbv zeta.
  apply Math_round_comp, fadd_proper; apply fmul_proper, fdiv_ratio;
    first [assumption | discriminate].
Qed.

(** The roundings are visible: at these counters the exact value of the
    formula is a half (12.5, 57.5, 57.5) and the doubles fall short of
    it, so the code stores the integer below. *)
Lemma percent_ties_in_doubles :
  Scan.overall_percent 1 2 12 = 12
  /\ Scan.overall_percent 3 0 12 = 13
  /\ Scan.overall_percent 20 3 20 = 58
  /\ PlatformCard.progress
       (Some {| status := "collecting"; total := 20;
                submitted := 20; collected := 3 |}) = 57.
Proof. vm_compute. repeat split. Qed.

(** The loop of [updateProgress] computes the three sums. *)
Lemma foldl_totals_step (l : list PlatformState) (a b c : Z) :
  foldl Scan.totals_step (a, b, c) l
  = (a + foldr Z.add 0 (submitted <$> l),
     b + foldr Z.add 0 (collected <$> l),
     c + foldr Z.add 0 (total <$> l)).
Proof.
  revert a b c. induction l as [| st l IH]; intros a b c.
  - cbn. rewrite !Z.add_0_r. reflexivity.
  - rewrite !fmap_cons. cbn [foldl foldr Scan.totals_step].
    rewrite IH, !or0_zero, !Z.add_assoc. reflexivity.
Qed.

Lemma totals_sums (m : gmap string PlatformState) :
  Scan.totals m
  = (Spec.sum_of submitted m, Spec.sum_of collected m, Spec.sum_of total m).
Proof. unfold Scan.totals. rewrite foldl_totals_step. reflexivity. Qed.

Lemma Object_values_singleton {A} (k : string) (v : A) :
  Object_values ({[ k := v ]} : gmap string A) = [v].
Proof. unfold Object_values. rewrite map_to_list_singleton. reflexivity. Qed.

Lemma totals_single id st t s c :
  Scan.totals (Spec.single id st t s c) = (s, c, t).
Proof.
  unfold Scan.totals, Spec.single. rewrite Object_values_singleton. simpl.
  rewrite !or0_zero. reflexivity.
Qed.

(** ** The progress reconciler *)

Lemma updateProgress_platforms (s : ScanStore) (pd : ScanProgress)
    (m : gmap string PlatformState) :
  pd_platforms pd = Some m ->
  platforms (Scan.updateProgress (Some pd) s) = m.
Proof.
  intros H. unfold Scan.updateProgress. rewrite H.
  destruct (Scan.totals m) as [[ts tc] tt].
  destruct (pd_phase pd) as [[| c p] |], (0 <? tt), (pd_countdownSeconds pd);
    reflexivity.
Qed.

Lemma updateProgress_progress (s : ScanStore) (pd : ScanProgress)
    (m : gmap string PlatformState) :
  pd_platforms pd = Some m ->
  progress (Scan.updateProgress (Some pd) s)
  = if 0 <? Spec.sum_of total m
    then Scan.overall_percent (Spec.sum_of submitted m)
           (Spec.sum_of collected m) (Spec.sum_of total m)
    else progress s.
Proof.
  intros H. unfold Scan.updateProgress. rewrite H, totals_sums.
  destruct (pd_phase pd) as [[| c p] |], (0 <? Spec.sum_of total m),
    (pd_countdownSeconds pd); reflexivity.
Qed.

Lemma snapshot_progress (s : ScanStore) (m : gmap string PlatformState) :
  progress (Scan.updateProgress (Some (Spec.snapshot m)) s)
  = if 0 <? Spec.sum_of total m
    then Scan.overall_percent (Spec.sum_of submitted m)
           (Spec.sum_of collected m) (Spec.sum_of total m)
    else progress s.
Proof. apply updateProgress_progress. reflexivity. Qed.

Lemma snapshot_platforms (s : ScanStore) (m : gmap string PlatformState) :
  platforms (Scan.updateProgress (Some (Spec.snapshot m)) s) = m.
Proof. apply updateProgress_platforms. reflexivity. Qed.

Lemma sum_of_single f id st t s c :
  Spec.sum_of f (Spec.single id st t s c)
  = f {| status := st; total := t; submitted := s; collected := c |}.
Proof.
  unfold Spec.sum_of, Spec.single. rewrite Object_values_singleton.
  simpl. lia.
Qed.

Lemma sum_of_nonneg (f : PlatformState -> Z) (m : gmap string PlatformState) :
  (forall id st, m !! id = Some st -> 0 <= f st) -> 0 <= Spec.sum_of f m.
Proof.
  intros H. unfold Spec.sum_of, Object_values.
  assert (Hl : forall kv, kv ∈ map_to_list m -> 0 <= f kv.2).
  { intros [k v] Hin. apply elem_of_map_to_list in Hin. eauto. }
  induction (map_to_list m) as [| kv l IH]; [cbn; lia |].
  rewrite !fmap_cons. cbn [foldr].
  assert (0 <= f kv.2) by (apply Hl; left).
  assert (0 <= foldr Z.add 0 (f <$> l.*2)).
  { apply IH. intros kv' Hin. apply Hl. right. exact Hin. }
  lia.
Qed.

Lemma sum_of_le (f g : PlatformState -> Z) (m : gmap string PlatformState) :
  (forall id st, m !! id = Some st -> f st <= g st) ->
  Spec.sum_of f m <= Spec.sum_of g m.
Proof.
  intros H. unfold Spec.sum_of, Object_values.
  assert (Hl : forall kv, kv ∈ map_to_list m -> f kv.2 <= g kv.2).
  { intros [k v] Hin. apply elem_of_map_to_list in Hin. eauto. }
  induction (map_to_list m) as [| kv l IH]; [cbn; lia |].
  rewrite !fmap_cons. cbn [foldr].
  assert (f kv.2 <= g kv.2) by (apply Hl; left).
  assert (foldr Z.add 0 (f <$> l.*2) <= foldr Z.add 0 (g <$> l.*2)).
  { apply IH. intros kv' Hin. apply Hl. right. exact Hin. }
  lia.
Qed.

(** C1. When the platforms of a payload have a positive aggregate total,
    [updateProgress] stores as overall progress
    round((sum submitted / sum total) * 50 + (sum collected / sum total) * 50),
    the sums running over the platforms of the payload and the divisions,
    the products and the addition being those of JavaScript numbers
    (doubles), as the formula is written in the code; one platform with
    total 10, submitted 10, collected 0 gives 50, and with collected 10
    gives 100. *)
Theorem C1_overall_percent_formula :
  (forall (s : ScanStore) (pd : ScanProgress) (m : gmap string PlatformState),
      pd_platforms pd = Some m ->
      0 < Spec.sum_of total m ->
      progress (Scan.updateProgress (Some pd) s)
      = JS.Math_round
          (JS.fadd
             (JS.fmul (JS.fdiv (inject_Z (Spec.sum_of submitted m))
                               (inject_Z (Spec.sum_of total m)))
                      (inject_Z 50))
             (JS.fmul (JS.fdiv (inject_Z (Spec.sum_of collected m))
                               (inject_Z (Spec.sum_of total m)))
                      (inject_Z 50))))
  /\ (forall s id st,
        progress (Scan.updateProgress
                    (Some (Spec.snapshot (Spec.single id st 10 10 0))) s) = 50)
  /\ (forall s id st,
        progress (Scan.updateProgress
                    (Some (Spec.snapshot (Spec.single id st 10 10 10))) s) = 100).
Proof.
  split; [| split].
  - intros s pd m Hm Ht. rewrite (updateProgress_progress s pd m Hm).
    destruct (Z.ltb_spec 0 (Spec.sum_of total m)); [reflexivity | lia].
  - intros s id st. rewrite snapshot_progress, !sum_of_single.
    vm_compute. reflexivity.
  - intros s id st. rewrite snapshot_progress, !sum_of_single.
    vm_compute. reflexivity.
Qed.

Lemma C1_overall_percent_formula_witness :
  progress (Scan.updateProgress
              (Some (Spec.snapshot (Spec.single "chatgpt" "collecting" 8 8 3)))
              Spec.fresh_scan) = 69.
Proof.
  rewrite (proj1 C1_overall_percent_formula Spec.fresh_scan
             (Spec.snapshot (Spec.single "chatgpt" "collecting" 8 8 3))
             (Spec.single "chatgpt" "collecting" 8 8 3) eq_refl).
  - vm_compute. reflexivity.
  - vm_compute. reflexivity.
Defined.

(** C2. The specification wants an overall percent of 0 after a payload
    whose platforms all have total 0.  [updateProgress] assigns the
    percentage only under [totalTasks > 0]: after a payload that brought
    the percent to 50, an all-zero payload replaces the platforms and
    leaves 50. *)
Theorem C2_zero_total_keeps_previous_percent :
  let s1 := Scan.updateProgress
              (Some (Spec.snapshot (Spec.single "chatgpt" "submitting" 10 10 0)))
              Spec.fresh_scan in
  let s2 := Scan.updateProgress
              (Some (Spec.snapshot (Spec.single "chatgpt" "pending" 0 0 0))) s1 in
  progress s1 = 50
  /\ platforms s2 = Spec.single "chatgpt" "pending" 0 0 0
  /\ Spec.sum_of total (platforms s2) = 0
  /\ progress s2 = 50.
Proof.
  cbv zeta.
  rewrite snapshot_platforms, !snapshot_progress, !sum_of_single.
  repeat split.
Qed.

(** C5. A payload that carries a platforms map replaces the stored map
    with it: a platform known before and missing from the payload is not
    in the store afterwards. *)
Theorem C5_platforms_replaced_wholesale :
  forall (s : ScanStore) (pd : ScanProgress) (m : gmap string PlatformState),
    pd_platforms pd = Some m ->
    platforms (Scan.updateProgress (Some pd) s) = m
    /\ forall id, is_Some (platforms s !! id) -> m !! id = None ->
                  platforms (Scan.updateProgress (Some pd) s) !! id = None.
Proof.
  intros s pd m Hm. rewrite (updateProgress_platforms s pd m Hm).
  split; [reflexivity | intros id _ Hid; exact Hid].
Qed.

Lemma C5_platforms_replaced_wholesale_witness :
  platforms (Scan.updateProgress
               (Some (Spec.snapshot (Spec.single "chatgpt" "collecting" 5 5 1)))
               Spec.scan_two_platforms) !! "claude" = None.
Proof.
  apply (proj2 (C5_platforms_replaced_wholesale Spec.scan_two_platforms
                  (Spec.snapshot (Spec.single "chatgpt" "collecting" 5 5 1))
                  (Spec.single "chatgpt" "collecting" 5 5 1) eq_refl)).
  - vm_compute. eexists. reflexivity.
  - vm_compute. reflexivity.
Defined.

(** C6. The specification wants a payload that omits [countdownSeconds]
    to clear the countdown shown.  [updateProgress] writes the countdown
    only under [countdownSeconds !== undefined] and has no other branch:
    with 45 seconds stored, a payload without the field leaves the 45
    seconds stored and shown.  [updateScanProgress] of the first front end
    hides the countdown line for the same payload. *)
Theorem C6_omitted_countdown_not_cleared :
  let s' := Scan.updateProgress (Some (Spec.countdown_only JS.Undefined))
              Spec.scan_counting_down in
  countdownSeconds s' = Some 45 /\ Scan.countdown_shown s' = true
  /\ countdownSeconds s' <> None
  /\ Legacy.countdown (Spec.countdown_only JS.Undefined) = None.
Proof. cbv zeta. repeat split. discriminate. Qed.

(** X29. [updateProgress] stores a number carried by [countdownSeconds]
    as it is, 0 included, and the countdown is then shown; a [null] clears
    the stored countdown; in both cases the store holds what
    [updateScanProgress] of the first front end displays for the payload.
    A payload that omits the field leaves the stored countdown as it was,
    where the first front end hides the countdown line. *)
Theorem X29_countdown_three_cases :
  forall (s : ScanStore) (pd : ScanProgress),
    let s' := Scan.updateProgress (Some pd) s in
    match pd_countdownSeconds pd with
    | JS.Num n =>
      countdownSeconds s' = Some n /\ Scan.countdown_shown s' = true
      /\ Legacy.countdown pd = countdownSeconds s'
    | JS.Null =>
      countdownSeconds s' = None /\ Scan.countdown_shown s' = false
      /\ Legacy.countdown pd = countdownSeconds s'
    | JS.Undefined =>
      countdownSeconds s' = countdownSeconds s /\ Legacy.countdown pd = None
    end.
Proof.
  intros s pd. cbv zeta. unfold Scan.updateProgress, Legacy.countdown.
  destruct (pd_platforms pd) as [m |].
  - destruct (Scan.totals m) as [[ts tc] tt].
    destruct (pd_phase pd) as [[| c p] |], (0 <? tt), (pd_countdownSeconds pd);
      repeat split.
  - destruct (pd_phase pd) as [[| c p] |], (pd_countdownSeconds pd);
      repeat split.
Qed.

(** C9 in the specification's wording does not hold: with submitted and
    collected above total the stored overall percent and the card's
    percent are 200. *)
Lemma C9_percent_above_100 :
  let overall :=
    progress (Scan.updateProgress
                (Some (Spec.snapshot (Spec.single "chatgpt" "collecting" 10 20 20)))
                Spec.fresh_scan) in
  let card :=
    PlatformCard.progress
      (Some {| status := "collecting"; total := 10;
               submitted := 20; collected := 20 |}) in
  overall = 200 /\ card = 200
  /\ ~ (0 <= overall <= 100) /\ ~ (0 <= card <= 100).
Proof.
  cbv zeta.
  assert (E1 : progress (Scan.updateProgress
                (Some (Spec.snapshot (Spec.single "chatgpt" "collecting" 10 20 20)))
                Spec.fresh_scan) = 200) by (vm_compute; reflexivity).
  assert (E2 : PlatformCard.progress
      (Some {| status := "collecting"; total := 10;
               submitted := 20; collected := 20 |}) = 200)
    by (vm_compute; reflexivity).
  rewrite E1, E2. repeat split; lia.
Qed.

Lemma Math_clamp_bounds (x : Q) :
  (0 <= JS.Math_min (inject_Z 100) (JS.Math_max (inject_Z 0) x) <= 100)%Q.
Proof.
  unfold JS.Math_min, JS.Math_max.
  destruct (Qle_bool (inject_Z 0) x) eqn:E0.
  - apply Qle_bool_iff in E0.
    destruct (Qle_bool (inject_Z 100) x) eqn:E1.
    + split; [discriminate | apply Qle_refl].
    + split; [exact E0 |].
      apply Qlt_le_weak, Qnot_le_lt. intros H.
      apply Qle_bool_iff in H.
      change (Qle_bool (inject_Z 100) x = true) in H. congruence.
  - destruct (Qle_bool (inject_Z 100) (inject_Z 0)) eqn:E1.
    + discriminate E1.
    + split; [apply Qle_refl | discriminate].
Qed.

(** C9, amended. The reconcilers are total functions.  For counters that
    are not negative every derived percentage is at least 0; the overall
    percent is at most 100 when every platform has submitted <= total and
    collected <= total, and so is a card's percent for its platform.
    Nothing clamps the percentages otherwise; only the fill width of
    [ProgressBar] is clamped to [0, 100]. *)
Theorem C9_percentages_bounded_for_consistent_counters :
  (forall (s : ScanStore) (pd : ScanProgress) (m : gmap string PlatformState),
      pd_platforms pd = Some m ->
      0 < Spec.sum_of total m ->
      (forall id st, m !! id = Some st -> Spec.nonneg_counters st) ->
      0 <= progress (Scan.updateProgress (Some pd) s)
      /\ ((forall id st, m !! id = Some st -> Spec.consistent st) ->
          progress (Scan.updateProgress (Some pd) s) <= 100))
  /\ (forall st : PlatformState,
        Spec.nonneg_counters st ->
        0 <= PlatformCard.progress (Some st)
        /\ (Spec.consistent st -> PlatformCard.progress (Some st) <= 100))
  /\ (forall value max : Z,
        max <> 0 -> (0 <= ProgressBar.percentage value max <= 100)%Q).
Proof.
  split; [| split].
  - intros s pd m Hm Ht Hnn. rewrite (updateProgress_progress s pd m Hm).
    destruct (Z.ltb_spec 0 (Spec.sum_of total m)); [| lia].
    assert (0 <= Spec.sum_of submitted m).
    { apply sum_of_nonneg. intros id st E. apply (Hnn id st E). }
    assert (0 <= Spec.sum_of collected m).
    { apply sum_of_nonneg. intros id st E. apply (Hnn id st E). }
    split.
    + apply overall_percent_lower; lia.
    + intros Hc.
      assert (Spec.sum_of submitted m <= Spec.sum_of total m).
      { apply sum_of_le. intros id st E. apply (Hc id st E). }
      assert (Spec.sum_of collected m <= Spec.sum_of total m).
      { apply sum_of_le. intros id st E. apply (Hc id st E). }
      apply overall_percent_upper; lia.
  - intros st (Ht & Hs & Hc).
    unfold PlatformCard.progress.
    destruct (Z.eqb_spec (total st) 0) as [E | E].
    + split; [lia | intros _; lia].
    + split.
      * apply share_percent_lower; lia.
      * intros [H1 H2]. apply share_percent_upper; lia.
  - intros value max _. unfold ProgressBar.percentage. apply Math_clamp_bounds.
Qed.

Lemma C9_percentages_bounded_for_consistent_counters_witness :
  0 <= progress (Scan.updateProgress
                   (Some (Spec.snapshot (Spec.single "chatgpt" "collecting" 8 8 3)))
                   Spec.fresh_scan) <= 100.
Proof.
  destruct (proj1 C9_percentages_bounded_for_consistent_counters
              Spec.fresh_scan
              (Spec.snapshot (Spec.single "chatgpt" "collecting" 8 8 3))
              (Spec.single "chatgpt" "collecting" 8 8 3) eq_refl)
    as [Hlo Hhi].
  - vm_compute. reflexivity.
  - intros id st E. unfold Spec.single in E.
    apply lookup_singleton_Some in E as [_ <-].
    unfold Spec.nonneg_counters. simpl. lia.
  - split; [exact Hlo |]. apply Hhi.
    intros id st E. unfold Spec.single in E.
    apply lookup_singleton_Some in E as [_ <-].
    unfold Spec.consistent. simpl. lia.
Defined.

(** ** Error classification *)

Lemma append_String (c : ascii) (a b : string) :
  (String c a ++ b)%string = String c (a ++ b)%string.
Proof. reflexivity. Qed.

Lemma append_Empty (b : string) : (EmptyString ++ b)%string = b.
Proof. reflexivity. Qed.

Lemma prefix_app (n h : string) :
  String.prefix n h = true <-> exists b : string, h = (n ++ b)%string.
Proof.
  revert h. induction n as [| c n IH]; intros h.
  - split; [intros _; exists h; reflexivity |].
    intros _. destruct h; reflexivity.
  - destruct h as [| d h]; cbn [String.prefix].
    + split; [discriminate | intros [b Hb]; discriminate].
    + destruct (ascii_dec c d) as [-> | Hne].
      * rewrite IH.
        split; intros [b Hb]; exists b; rewrite append_String in *; congruence.
      * split; [discriminate |].
        intros [b Hb]. rewrite append_String in Hb. congruence.
Qed.

Lemma includes_contains (h n : string) :
  JS.includes h n = true <-> Spec.contains h n.
Proof.
  unfold Spec.contains. induction h as [| c h IH]; cbn [JS.includes].
  - destruct (String.prefix n EmptyString) eqn:E.
    + split; [| reflexivity]. intros _.
      apply prefix_app in E as [b Hb]. exists EmptyString, b. exact Hb.
    + split; [discriminate |]. intros (a & b & Hab).
      destruct a as [| ? ?]; [| discriminate].
      rewrite append_Empty in Hab.
      assert (String.prefix n EmptyString = true) by (apply prefix_app; eauto).
      congruence.
  - destruct (String.prefix n (String c h)) eqn:E.
    + split; [| reflexivity]. intros _.
      apply prefix_app in E as [b Hb]. exists EmptyString, b. exact Hb.
    + rewrite IH. split.
      * intros (a & b & Hab). exists (String c a), b.
        rewrite append_String. congruence.
      * intros (a & b & Hab). destruct a as [| c' a].
        -- rewrite append_Empty in Hab.
           assert (String.prefix n (String c h) = true)
             by (apply prefix_app; eauto).
           congruence.
        -- exists a, b. rewrite append_String in Hab. congruence.
Qed.

Lemma isCancelled_payload_message (error : ScanError) :
  Scan.isCancelled error = true
  <-> Spec.contains (JS.toLowerCase (Spec.payload_message error)) "cancel".
Proof.
  unfold Scan.isCancelled.
  destruct error as [s | [[| c m] |]]; simpl Scan.errorMsg;
    simpl Spec.payload_message; try apply includes_contains.
  - rewrite <- includes_contains. split; intros H; vm_compute in H; discriminate.
  - rewrite <- includes_contains. split; intros H; vm_compute in H; discriminate.
Qed.

(** C7. [handleError] takes a payload for a cancellation exactly when its
    message, lower-cased, contains "cancel", and presents it as
    information, otherwise as an error; "Scan cancelled by user" is a
    cancellation and "Network request failed" is not; in every case the
    scanning flag is cleared and the view is the main screen. *)
Theorem C7_handleError_classifies_and_resets :
  (forall (error : ScanError) (w : World),
      let w' := Scan.handleError error w in
      isScanning (scan w') = false
      /\ currentView (ui w') = "main"
      /\ visible (modal_message (ui w')) = true
      /\ message (modal_message (ui w')) = Scan.errorMsg error
      /\ (Spec.contains (JS.toLowerCase (Spec.payload_message error)) "cancel" ->
          title (modal_message (ui w')) = "Scan Cancelled"
          /\ type (modal_message (ui w')) = "info")
      /\ (~ Spec.contains (JS.toLowerCase (Spec.payload_message error)) "cancel" ->
          title (modal_message (ui w')) = "Scan Error"
          /\ type (modal_message (ui w')) = "error"))
  /\ Scan.isCancelled (ErrString "Scan cancelled by user") = true
  /\ Scan.isCancelled (ErrObject (Some "Scan cancelled by user")) = true
  /\ Scan.isCancelled (ErrString "Network request failed") = false
  /\ Scan.isCancelled (ErrObject (Some "Network request failed")) = false.
Proof.
  split; [| repeat split].
  intros error w. cbv zeta.
  pose proof (isCancelled_payload_message error) as Hc.
  unfold Scan.handleError. simpl.
  split; [reflexivity |]. split; [reflexivity |]. split; [reflexivity |].
  split; [reflexivity |]. split.
  - intros H. apply Hc in H. rewrite H. split; reflexivity.
  - intros H. destruct (Scan.isCancelled error); [| split; reflexivity].
    exfalso. apply H, Hc. reflexivity.
Qed.

Lemma C7_handleError_classifies_and_resets_witness :
  type (modal_message
          (ui (Scan.handleError (ErrString "Scan cancelled by user")
                 Spec.scanning_world))) = "info".
Proof.
  refine (proj2 (proj1 (proj2 (proj2 (proj2 (proj2
            (proj1 C7_handleError_classifies_and_resets
               (ErrString "Scan cancelled by user") _))))) _)).
  exists "scan "%string, "led by user"%string. vm_compute. reflexivity.
Defined.

(** ** The quota reconciler and the start of a scan *)

Lemma unlimited_true_iff (flag : option bool) (l : bool) :
  Products.unlimited flag l = true <-> flag = Some true \/ l = true.
Proof.
  unfold Products.unlimited. destruct flag as [[|] |]; split;
    solve [ auto | intros [H | H]; (discriminate || assumption) ].
Qed.

Lemma is_minus_one_iff (x : option Z) :
  Products.is_minus_one x = true <-> x = Some (-1).
Proof.
  unfold Products.is_minus_one. destruct x as [v |].
  - rewrite Z.eqb_eq. split; [intros ->; reflexivity | congruence].
  - split; discriminate.
Qed.

Lemma loadDailyUsage_ok (b : Backend) (w : World) (usage : UsageResponse) :
  checkDailyUsage b = Ok usage ->
  Products.loadDailyUsage b w
  = set_products (with_dailyUsage (Products.usage_snapshot usage))
      (invoke check_daily_usage w).
Proof. intros H. unfold Products.loadDailyUsage. rewrite H. reflexivity. Qed.


Lemma loadDailyUsage_trace (b : Backend) (w : World) :
  trace (Products.loadDailyUsage b w) = trace w ++ [check_daily_usage].
Proof.
  unfold Products.loadDailyUsage. destruct (checkDailyUsage b); reflexivity.
Qed.

(** C4. The stored [isUnlimited] is the explicit flag or the limit -1, for
    the usage check and for the quota carried by the prompt count alike;
    when it is true the quota gate of [startScan] does not block, whatever
    the remaining counters are, and [startScan] goes on to the prompt
    check and the start of the scan. *)
Theorem C4_unlimited_bypasses_quota_gate :
  (forall usage : UsageResponse,
      isUnlimited (Products.usage_snapshot usage) = true
      <-> u_isUnlimited usage = Some true \/ u_limit usage = Some (-1))
  /\ (forall q : Quota,
        isUnlimited (Products.quota_snapshot q) = true
        <-> q_isUnlimited q = Some true \/ promptsPerDay q = -1)
  /\ (forall p : ProductsStore,
        isUnlimited (dailyUsage p) = true -> StartScan.quota_blocks p = false)
  /\ (forall (b : Backend) (w : World) (c : ascii) (pid : string),
        isStarting (scan w) = false ->
        isScanning (scan w) = false ->
        selectedProductId (products w) = Some (String c pid) ->
        hasAnyAuth (regions w) = true ->
        let w3 :=
          Products.loadProductPromptCount b (String c pid)
            (Products.loadDailyUsage b (set_scan (with_isStarting true) w)) in
        isUnlimited (dailyUsage (products w3)) = true ->
        StartScan.startScan b w
        = if promptCount (products w3) =? 0
          then set_scan (with_isStarting false)
                 (showMessage
                    "No prompts configured for this product. Add prompts in the dashboard."
                    "No Prompts" "warning" w3)
          else StartScan.start_checked b (String c pid) w3).
Proof.
  split; [| split; [| split]].
  - intros usage. simpl. rewrite unlimited_true_iff, is_minus_one_iff. tauto.
  - intros q. simpl. rewrite unlimited_true_iff, Z.eqb_eq. tauto.
  - intros p H. unfold StartScan.quota_blocks. rewrite H. reflexivity.
  - intros b w c pid Hst Hsc Hsel Hauth w3 Hun.
    unfold StartScan.startScan. rewrite Hst, Hsc, Hsel, Hauth. simpl.
    fold w3. unfold StartScan.quota_blocks. rewrite Hun. reflexivity.
Qed.

Lemma C4_unlimited_bypasses_quota_gate_witness :
  let w' := StartScan.startScan (Spec.backend_with (Ok Spec.usage_unlimited))
              Spec.ready_world in
  remaining (dailyUsage (products w')) = 0
  /\ Products.availableTests (products w') = 0
  /\ isScanning (scan w') = true
  /\ currentView (ui w') = "scanning"
  /\ trace w'
     = [check_daily_usage; fetch_extension_prompts "prod-1";
        get_prompt_target_regions "prod-1";
        start_scan {| productId := "prod-1"; samplesPerPrompt := 1;
                      sp_platforms := ["chatgpt"]; maxTests := None |}].
Proof.
  cbv zeta.
  rewrite (proj2 (proj2 (proj2 C4_unlimited_bypasses_quota_gate))
             (Spec.backend_with (Ok Spec.usage_unlimited)) Spec.ready_world
             "p"%char "rod-1"%string eq_refl eq_refl eq_refl).
  - vm_compute. repeat split.
  - vm_compute. reflexivity.
  - vm_compute. reflexivity.
Defined.




(** C10. A call of [startScan] while a start is in flight or a scan is
    active returns at once: no command is sent to the backend and no store
    changes. *)
Theorem C10_startScan_reentrancy_guard :
  forall (b : Backend) (w : World),
    isStarting (scan w) = true \/ isScanning (scan w) = true ->
    StartScan.startScan b w = w
    /\ trace (StartScan.startScan b w) = trace w.
Proof.
  intros b w H. unfold StartScan.startScan.
  destruct H as [-> | ->]; [| rewrite orb_true_r]; split; reflexivity.
Qed.

Lemma C10_startScan_reentrancy_guard_witness :
  StartScan.startScan (Spec.backend_with (Ok Spec.usage_full))
    Spec.scanning_world = Spec.scanning_world.
Proof.
  apply (C10_startScan_reentrancy_guard
           (Spec.backend_with (Ok Spec.usage_full)) Spec.scanning_world).
  right. vm_compute. reflexivity.
Defined.

(** ** The debounce of change notifications *)

Section Debounce.

Import Realtime.

Variable b : Backend.

Local Open Scope nat_scope.

Lemma single_slot_init (w : World) : single_slot (init w).
Proof. left. split; reflexivity. Qed.

Lemma single_slot_size (st : State) : single_slot st -> size (timers st) <= 1.
Proof.
  intros [[_ ->] | (h & d & _ & -> & _)].
  - rewrite map_size_empty. lia.
  - rewrite map_size_singleton. lia.
Qed.

Lemma debouncedRefresh_spec (st : State) :
  single_slot st ->
  debouncedRefresh st
  = {| now := now st; next_handle := Pos.succ (next_handle st);
       timers := {[ next_handle st := (now st + window)%nat ]};
       refreshTimer := Some (next_handle st);
       refreshes := refreshes st; world := world st |}.
Proof.
  intros [[Hr Ht] | (h & d & Hr & Ht & _)]; unfold debouncedRefresh;
    rewrite Hr; cbn; rewrite Ht.
  - rewrite insert_empty. reflexivity.
  - rewrite delete_singleton_eq, insert_empty. reflexivity.
Qed.

Lemma tick_idle (st : State) :
  timers st = ∅ -> tick b st = set_now (S (now st)) st.
Proof.
  intros Ht. unfold tick. cbn. rewrite Ht, map_to_list_empty. reflexivity.
Qed.

Lemma tick_not_due (st : State) (h : positive) (d : nat) :
  timers st = {[ h := d ]} -> (S (now st) < d)%nat ->
  tick b st = set_now (S (now st)) st.
Proof.
  intros Ht Hd. unfold tick. cbn. rewrite Ht, map_to_list_singleton. cbn.
  destruct (Nat.leb_spec d (S (now st))); [lia | reflexivity].
Qed.

Lemma tick_due (st : State) (h : positive) (d : nat) :
  timers st = {[ h := d ]} -> (d <= S (now st))%nat ->
  tick b st
  = {| now := S (now st); next_handle := next_handle st; timers := ∅;
       refreshTimer := None; refreshes := refreshes st ++ [S (now st)];
       world := Products.loadDailyUsage b (world st) |}.
Proof.
  intros Ht Hd. unfold tick. cbn. rewrite Ht, map_to_list_singleton. cbn.
  destruct (Nat.leb_spec d (S (now st))); [| lia]. cbn.
  unfold fire. cbn. rewrite Ht, lookup_singleton_eq.
  unfold callback, clearTimeout. cbn. rewrite Ht, delete_singleton_eq.
  reflexivity.
Qed.

Lemma wait_0 (st : State) : wait b 0 st = st.
Proof. reflexivity. Qed.

Lemma wait_S (n : nat) (st : State) : wait b (S n) st = tick b (wait b n st).
Proof. reflexivity. Qed.

Lemma set_now_id (st : State) : set_now (now st) st = st.
Proof. destruct st; reflexivity. Qed.

Lemma wait_add (n m : nat) (st : State) :
  wait b (n + m) st = wait b m (wait b n st).
Proof. unfold wait. rewrite Nat.add_comm. apply Nat.iter_add. Qed.

Lemma wait_idle (n : nat) (st : State) :
  timers st = ∅ -> wait b n st = set_now (now st + n) st.
Proof.
  intros Ht. induction n as [| n IH].
  - rewrite wait_0, Nat.add_0_r, set_now_id. reflexivity.
  - rewrite wait_S, IH, tick_idle by exact Ht.
    unfold set_now. cbn. f_equal. lia.
Qed.

Lemma wait_not_due (n : nat) (st : State) (h : positive) (d : nat) :
  timers st = {[ h := d ]} -> (now st + n < d)%nat ->
  wait b n st = set_now (now st + n) st.
Proof.
  intros Ht. induction n as [| n IH]; intros Hd.
  - rewrite wait_0, Nat.add_0_r, set_now_id. reflexivity.
  - rewrite wait_S, IH by lia.
    rewrite (tick_not_due _ h d) by (cbn; first [exact Ht | lia]).
    unfold set_now. cbn. f_equal. lia.
Qed.

(** A pending timeout runs when its deadline is reached, once. *)
Lemma wait_due (n : nat) (st : State) (h : positive) (d : nat) :
  timers st = {[ h := d ]} -> (now st < d <= now st + n)%nat ->
  wait b n st
  = {| now := (now st + n)%nat; next_handle := next_handle st; timers := ∅;
       refreshTimer := None; refreshes := refreshes st ++ [d];
       world := Products.loadDailyUsage b (world st) |}.
Proof.
  intros Ht [Hlo Hhi].
  replace n with ((d - now st - 1) + (1 + (n - (d - now st))))%nat by lia.
  rewrite wait_add, (wait_not_due _ st h d) by (exact Ht || lia).
  rewrite wait_add, wait_S, wait_0.
  rewrite (tick_due _ h d) by (cbn; first [exact Ht | lia]).
  rewrite wait_idle by reflexivity.
  unfold set_now. cbn. f_equal; [lia | f_equal; f_equal; lia].
Qed.

Lemma single_slot_tick (st : State) : single_slot st -> single_slot (tick b st).
Proof.
  intros [[Hr Ht] | (h & d & Hr & Ht & Hd)].
  - rewrite tick_idle by exact Ht. left. split; assumption.
  - destruct (Nat.le_gt_cases d (S (now st))) as [Hle | Hgt].
    + rewrite (tick_due st h d) by assumption. left. split; reflexivity.
    + rewrite (tick_not_due st h d) by assumption.
      right. exists h, d. cbn. unfold window in *. repeat split; try assumption; lia.
Qed.

Lemma single_slot_step (st : State) (e : event) :
  single_slot st -> single_slot (step b st e).
Proof.
  intros H. destruct e; cbn [step].
  - rewrite debouncedRefresh_spec by exact H. right.
    exists (next_handle st), (now st + window)%nat. cbn. unfold window.
    repeat split; lia.
  - apply single_slot_tick, H.
  - unfold cleanupSubscriptions.
    destruct H as [[Hr Ht] | (h & d & Hr & Ht & Hd)]; rewrite Hr.
    + left. split; assumption.
    + left. cbn. rewrite Ht, delete_singleton_eq. split; reflexivity.
Qed.

Lemma single_slot_exec (evs : list event) (st : State) :
  single_slot st -> single_slot (exec b evs st).
Proof.
  revert st. induction evs as [| e evs IH]; intros st H; cbn.
  - exact H.
  - apply IH, single_slot_step, H.
Qed.

Lemma debouncedRefresh_armed (st : State) :
  single_slot st ->
  debouncedRefresh st
  = armed_at (now st) (next_handle st) (refreshes st) (world st).
Proof. apply debouncedRefresh_spec. Qed.

Lemma single_slot_armed_later (t g : nat) h r w :
  g < window -> single_slot (set_now (t + g) (armed_at t h r w)).
Proof.
  intros Hg. right. exists h, (t + window). cbn.
  split; [reflexivity |]. split; [reflexivity |]. unfold window in *. lia.
Qed.

(** After a burst exactly the timeout of its last notification is
    pending; nothing has run. *)
Lemma burst_from (gaps : list nat) :
  Forall (fun g => g < window) gaps ->
  forall t h r w, exists h',
    foldl (fun s g => debouncedRefresh (wait b g s)) (armed_at t h r w) gaps
    = armed_at (last_signal t gaps) h' r w.
Proof.
  induction 1 as [| g gaps Hlt Hg IH]; intros t h r w.
  - exists h. unfold last_signal. cbn. rewrite Nat.add_0_r. reflexivity.
  - cbn [foldl].
    rewrite (wait_not_due g _ h (t + window))
      by (cbn; first [reflexivity | lia]).
    rewrite debouncedRefresh_armed
      by (cbn [now armed_at]; apply single_slot_armed_later, Hlt).
    cbn [now next_handle refreshes world armed_at set_now].
    destruct (IH (t + g) (Pos.succ h) r w) as [h' Hh'].
    exists h'. rewrite Hh'. unfold last_signal. cbn [foldr].
    rewrite Nat.add_assoc. reflexivity.
Qed.

Lemma burst_spec (gaps : list nat) (st : State) :
  single_slot st -> Forall (fun g => g < window) gaps ->
  exists h,
    burst b gaps st
    = armed_at (last_signal (now st) gaps) h (refreshes st) (world st).
Proof.
  intros Hs Hg. unfold burst. rewrite debouncedRefresh_armed by exact Hs.
  apply burst_from, Hg.
Qed.

End Debounce.

(** C3. The debounce is a single-slot timer.  In every state the module
    can reach at most one timeout is pending, and a notification leaves
    exactly one, due 500 ms later, whatever was pending before.  A burst
    of notifications, each less than 500 ms after the previous one, sets
    no refresh off while it lasts; the one refresh it causes, a single
    call of [loadDailyUsage], happens 500 ms after the last notification. *)
Theorem C3_debounce_coalesces_burst :
  forall (b : Backend) (w : World) (evs : list Realtime.event),
    let st0 := Realtime.exec b evs (Realtime.init w) in
    Realtime.window = 500%nat
    /\ (size (Realtime.timers st0) <= 1)%nat
    /\ (exists h,
          Realtime.refreshTimer (Realtime.debouncedRefresh st0) = Some h
          /\ Realtime.timers (Realtime.debouncedRefresh st0)
             = {[ h := (Realtime.now st0 + 500)%nat ]})
    /\ forall (gaps : list nat) (n : nat),
         Forall (fun g => (g < 500)%nat) gaps ->
         let last := Realtime.last_signal (Realtime.now st0) gaps in
         let st := Realtime.wait b n (Realtime.burst b gaps st0) in
         Realtime.now st = (last + n)%nat
         /\ ((n < 500)%nat ->
             Realtime.refreshes st = Realtime.refreshes st0
             /\ trace (Realtime.world st) = trace (Realtime.world st0)
             /\ size (Realtime.timers st) = 1%nat)
         /\ ((500 <= n)%nat ->
             Realtime.refreshes st = Realtime.refreshes st0 ++ [(last + 500)%nat]
             /\ trace (Realtime.world st)
                = trace (Realtime.world st0) ++ [check_daily_usage]
             /\ Realtime.timers st = ∅
             /\ Realtime.refreshTimer st = None).
Proof.
  intros b w evs st0.
  assert (Hs : Realtime.single_slot st0)
    by apply single_slot_exec, single_slot_init.
  split; [reflexivity |]. split; [apply single_slot_size, Hs |]. split.
  - exists (Realtime.next_handle st0).
    rewrite debouncedRefresh_spec by exact Hs. split; reflexivity.
  - intros gaps n Hg last st.
    destruct (burst_spec b gaps st0 Hs Hg) as [h Hb].
    subst st. rewrite Hb. fold last. split; [| split].
    + destruct (Nat.lt_ge_cases n 500) as [Hn | Hn].
      * rewrite (wait_not_due b n _ h (last + 500)%nat)
          by (cbn; first [reflexivity | lia]).
        reflexivity.
      * rewrite (wait_due b n _ h (last + 500)%nat)
          by (cbn; first [reflexivity | lia]).
        reflexivity.
    + intros Hn.
      rewrite (wait_not_due b n _ h (last + 500)%nat)
        by (cbn; first [reflexivity | lia]).
      cbn. rewrite map_size_singleton. repeat split.
    + intros Hn.
      rewrite (wait_due b n _ h (last + 500)%nat)
        by (cbn; first [reflexivity | lia]).
      cbn. rewrite loadDailyUsage_trace. repeat split.
Qed.

Lemma C3_debounce_coalesces_burst_witness :
  Realtime.refreshes
    (Realtime.wait (Spec.backend_with (Ok Spec.usage_full)) 500
       (Realtime.burst (Spec.backend_with (Ok Spec.usage_full)) [100; 100]%nat
          (Realtime.init initial_world)))
  = [700%nat].
Proof.
  destruct (C3_debounce_coalesces_burst
              (Spec.backend_with (Ok Spec.usage_full)) initial_world [])
    as (_ & _ & _ & H).
  destruct (H [100; 100]%nat 500%nat) as (_ & _ & H500).
  - repeat constructor; lia.
  - exact (proj1 (H500 (le_n 500))).
Defined.

(** * Further properties of the progress reconciler *)

Lemma sum_of_zero (f : PlatformState -> Z) (m : gmap string PlatformState) :
  (forall id st, m !! id = Some st -> f st = 0) -> Spec.sum_of f m = 0.
Proof.
  intros H.
  assert (0 <= Spec.sum_of f m).
  { apply sum_of_nonneg. intros id st E. rewrite (H id st E). lia. }
  assert (Spec.sum_of f m <= Spec.sum_of (fun _ => 0) m).
  { apply sum_of_le. intros id st E. rewrite (H id st E). lia. }
  assert (Spec.sum_of (fun _ => 0) m = 0).
  { unfold Spec.sum_of. induction (Object_values m) as [| x l IH]; [reflexivity |].
    rewrite fmap_cons. cbn [foldr]. rewrite IH. reflexivity. }
  lia.
Qed.

(** X1. For a fixed positive aggregate total the overall percent stored
    by [updateProgress] grows with the work reported: when neither the
    submitted nor the collected sum decreases the percent does not
    decrease, whatever the store held.  The two sums count separately:
    the percent is rounded from two quotients of doubles, and with total
    12 the payload 3 submitted, 0 collected stores 13 while 1 submitted,
    2 collected stores 12. *)
Theorem X1_overall_percent_monotone :
  (forall (s s' : ScanStore) (pd pd' : ScanProgress)
          (m m' : gmap string PlatformState),
      pd_platforms pd = Some m ->
      pd_platforms pd' = Some m' ->
      0 < Spec.sum_of total m ->
      Spec.sum_of total m' = Spec.sum_of total m ->
      Spec.sum_of submitted m <= Spec.sum_of submitted m' ->
      Spec.sum_of collected m <= Spec.sum_of collected m' ->
      progress (Scan.updateProgress (Some pd) s)
      <= progress (Scan.updateProgress (Some pd') s'))
  /\ progress (Scan.updateProgress
                 (Some (Spec.snapshot (Spec.single "chatgpt" "submitting" 12 3 0)))
                 Spec.fresh_scan) = 13
  /\ progress (Scan.updateProgress
                 (Some (Spec.snapshot (Spec.single "chatgpt" "collecting" 12 1 2)))
                 Spec.fresh_scan) = 12.
Proof.
  split; [| split; vm_compute; reflexivity].
  intros s s' pd pd' m m' Hm Hm' Ht Heq Hs Hc.
  rewrite (updateProgress_progress s pd m Hm),
          (updateProgress_progress s' pd' m' Hm'), Heq.
  destruct (Z.ltb_spec 0 (Spec.sum_of total m)); [| lia].
  apply overall_percent_mono; assumption.
Qed.

Lemma X1_overall_percent_monotone_witness :
  progress (Scan.updateProgress
              (Some (Spec.snapshot (Spec.single "chatgpt" "submitting" 8 5 0)))
              Spec.fresh_scan)
  <= progress (Scan.updateProgress
                 (Some (Spec.snapshot (Spec.single "chatgpt" "collecting" 8 8 3)))
                 Spec.scan_counting_down).
Proof.
  apply (proj1 X1_overall_percent_monotone
           Spec.fresh_scan Spec.scan_counting_down
           (Spec.snapshot (Spec.single "chatgpt" "submitting" 8 5 0))
           (Spec.snapshot (Spec.single "chatgpt" "collecting" 8 8 3))
           (Spec.single "chatgpt" "submitting" 8 5 0)
           (Spec.single "chatgpt" "collecting" 8 8 3) eq_refl eq_refl).
  - vm_compute. reflexivity.
  - vm_compute. reflexivity.
  - vm_compute. discriminate.
  - vm_compute. discriminate.
Defined.

(** X2. A [scan:progress] event touches the progress fields of the scan
    store only: the scanning and starting flags, the last result, the
    view, the modals, the quota, the regions and the command trace are as
    before, and a field the payload lacks (an empty phase included) keeps
    its stored value. *)
Theorem X2_progress_event_frame :
  forall (payload : option ScanProgress) (w : World),
    let w' := Events.on_scan_progress payload w in
    isScanning (scan w') = isScanning (scan w)
    /\ isStarting (scan w') = isStarting (scan w)
    /\ lastResult (scan w') = lastResult (scan w)
    /\ ui w' = ui w /\ products w' = products w /\ regions w' = regions w
    /\ platformsStore w' = platformsStore w /\ trace w' = trace w
    /\ match payload with
       | None => scan w' = scan w
       | Some pd =>
         match pd_phase pd with
         | None | Some EmptyString => phase (scan w') = phase (scan w)
         | Some p => phase (scan w') = p
         end
         /\ match pd_platforms pd with
            | None => platforms (scan w') = platforms (scan w)
                      /\ progress (scan w') = progress (scan w)
            | Some m => platforms (scan w') = m
            end
       end.
Proof.
  intros payload w. cbv zeta. unfold Events.on_scan_progress. cbn.
  destruct payload as [pd |]; [| repeat split].
  unfold Scan.updateProgress.
  destruct (pd_platforms pd) as [m |].
  - destruct (Scan.totals m) as [[ts tc] tt].
    destruct (pd_phase pd) as [[| c p] |], (0 <? tt), (pd_countdownSeconds pd);
      repeat split.
  - destruct (pd_phase pd) as [[| c p] |], (pd_countdownSeconds pd);
      repeat split.
Qed.

Lemma foldl_insert_lookup {A} (v : A) (l : list string) (m0 : gmap string A)
    (k : string) :
  foldl (fun (m : gmap string A) id => <[id := v]> m) m0 l !! k
  = if decide (k ∈ l) then Some v else m0 !! k.
Proof.
  revert m0. induction l as [| x l IH]; intros m0; cbn [foldl].
  - destruct (decide (k ∈ [])) as [H | _]; [| reflexivity].
    apply elem_of_nil in H. contradiction.
  - rewrite IH. destruct (decide (k ∈ l)) as [Hin | Hnin].
    + destruct (decide (k ∈ x :: l)) as [_ | H]; [reflexivity |].
      exfalso. apply H. right. exact Hin.
    + destruct (decide (k = x)) as [-> | Hne].
      * rewrite lookup_insert_eq.
        destruct (decide (x ∈ x :: l)) as [_ | H]; [reflexivity |].
        exfalso. apply H. left.
      * rewrite lookup_insert_ne by congruence.
        destruct (decide (k ∈ x :: l)) as [H | _]; [| reflexivity].
        apply elem_of_cons in H as [H | H]; contradiction.
Qed.

(** X3. [resetProgress] gives every known platform, and no other, a
    pending state with zero counters, puts the percent at 0, the phase at
    initializing, clears the countdown and the last result, and leaves
    the two flags and every other store alone. *)
Theorem X3_resetProgress_state :
  forall (w : World),
    let w' := Scan.resetProgress w in
    (forall id,
        platforms (scan w') !! id
        = if decide (id ∈ platformIds (platformsStore w))
          then Some Scan.pending_state else None)
    /\ progress (scan w') = 0
    /\ phase (scan w') = "initializing"
    /\ countdownSeconds (scan w') = None
    /\ lastResult (scan w') = None
    /\ isScanning (scan w') = isScanning (scan w)
    /\ isStarting (scan w') = isStarting (scan w)
    /\ products w' = products w /\ ui w' = ui w /\ regions w' = regions w
    /\ trace w' = trace w.
Proof.
  intros w. cbv zeta. unfold Scan.resetProgress. cbn.
  split; [| repeat split].
  intros id. rewrite foldl_insert_lookup, lookup_empty. reflexivity.
Qed.

(** X4. A payload whose platforms all have total 0 leaves the stored
    percent as it is; right after [resetProgress] the percent is 0 and
    stays 0 under such a payload. *)
Theorem X4_zero_total_keeps_percent :
  forall (pd : ScanProgress) (m : gmap string PlatformState),
    pd_platforms pd = Some m ->
    (forall id st, m !! id = Some st -> total st = 0) ->
    (forall s, progress (Scan.updateProgress (Some pd) s) = progress s)
    /\ (forall w,
          progress (Scan.updateProgress (Some pd) (scan (Scan.resetProgress w)))
          = 0).
Proof.
  intros pd m Hm Hz.
  assert (E : forall s, progress (Scan.updateProgress (Some pd) s) = progress s).
  { intros s. rewrite (updateProgress_progress s pd m Hm).
    rewrite (sum_of_zero total m Hz). reflexivity. }
  split; [exact E |]. intros w. rewrite E. reflexivity.
Qed.

Lemma X4_zero_total_keeps_percent_witness :
  progress (Scan.updateProgress
              (Some (Spec.snapshot (Spec.single "chatgpt" "pending" 0 0 0)))
              (scan (Scan.resetProgress Spec.ready_world))) = 0.
Proof.
  apply (proj2 (X4_zero_total_keeps_percent
                  (Spec.snapshot (Spec.single "chatgpt" "pending" 0 0 0))
                  (Spec.single "chatgpt" "pending" 0 0 0) eq_refl
                  ltac:(intros id st E; unfold Spec.single in E;
                        apply lookup_singleton_Some in E as [_ <-];
                        reflexivity))).
Defined.

(** X5. With a single platform the overall percent of the store and the
    percent of the platform's card are two roundings of the same share.
    For every positive total they agree at the milestones: 0 when nothing
    is done, 50 when everything is submitted and nothing collected, 100
    when everything is collected.  In between they can differ by the
    rounding of the doubles: with total 20, submitted 20 and collected 3
    the store holds 58 and the card shows 57. *)
Theorem X5_single_platform_overall_vs_card :
  (forall (s : ScanStore) (id st : string) (t : Z),
      0 < t ->
      (progress (Scan.updateProgress
                   (Some (Spec.snapshot (Spec.single id st t 0 0))) s) = 0
       /\ PlatformCard.progress
            (Some {| status := st; total := t;
                     submitted := 0; collected := 0 |}) = 0)
      /\ (progress (Scan.updateProgress
                      (Some (Spec.snapshot (Spec.single id st t t 0))) s) = 50
          /\ PlatformCard.progress
               (Some {| status := st; total := t;
                        submitted := t; collected := 0 |}) = 50)
      /\ (progress (Scan.updateProgress
                      (Some (Spec.snapshot (Spec.single id st t t t))) s) = 100
          /\ PlatformCard.progress
               (Some {| status := st; total := t;
                        submitted := t; collected := t |}) = 100))
  /\ progress (Scan.updateProgress
                 (Some (Spec.snapshot (Spec.single "claude" "collecting" 20 20 3)))
                 Spec.fresh_scan) = 58
  /\ PlatformCard.progress
       (Some {| status := "collecting"; total := 20;
                submitted := 20; collected := 3 |}) = 57.
Proof.
  split; [| split; vm_compute; reflexivity].
  intros s id st t Ht.
  assert (Hstore : forall a b : Z,
             progress (Scan.updateProgress
                         (Some (Spec.snapshot (Spec.single id st t (a * t) (b * t))))
                         s)
             = Scan.overall_percent a b 1).
  { intros a b. rewrite snapshot_progress, !sum_of_single.
    cbn [total submitted collected].
    destruct (Z.ltb_spec 0 t); [| lia].
    apply overall_percent_ratio; lia. }
  assert (Hcard : forall x a b : Z,
             b <> 0 -> x * b = a * (t * 2) ->
             forall sub col, sub + col = x ->
             PlatformCard.progress
               (Some {| status := st; total := t;
                        submitted := sub; collected := col |})
             = JS.Math_round
                 (JS.fmul (JS.fdiv (inject_Z a) (inject_Z b)) (inject_Z 100))).
  { intros x a b Hb H sub col <-. unfold PlatformCard.progress.
    cbn [total submitted collected].
    destruct (Z.eqb_spec t 0); [lia |].
    apply share_percent_ratio; [lia | exact Hb | exact H]. }
  split; [| split]; split.
  - generalize (Hstore 0 0). rewrite !Z.mul_0_l. intros ->.
    vm_compute. reflexivity.
  - rewrite (Hcard 0 0 1) by lia. vm_compute. reflexivity.
  - generalize (Hstore 1 0). rewrite Z.mul_1_l, Z.mul_0_l. intros ->.
    vm_compute. reflexivity.
  - rewrite (Hcard t 1 2) by lia. vm_compute. reflexivity.
  - generalize (Hstore 1 1). rewrite !Z.mul_1_l. intros ->.
    vm_compute. reflexivity.
  - rewrite (Hcard (t + t) 1 1) by lia. vm_compute. reflexivity.
Qed.

Lemma X5_single_platform_overall_vs_card_witness :
  progress (Scan.updateProgress
              (Some (Spec.snapshot (Spec.single "claude" "submitting" 7 7 0)))
              Spec.fresh_scan) = 50
  /\ PlatformCard.progress
       (Some {| status := "submitting"; total := 7;
                submitted := 7; collected := 0 |}) = 50.
Proof.
  apply (proj1 (proj2 (proj1 X5_single_platform_overall_vs_card
                         Spec.fresh_scan "claude" "submitting" 7
                         ltac:(vm_compute; reflexivity)))).
Defined.

Lemma clamp_round_below (x : Q) :
  (x <= 0)%Q ->
  JS.Math_round (JS.Math_min (inject_Z 100) (JS.Math_max (inject_Z 0) x)) = 0.
Proof.
  intros H. unfold JS.Math_max.
  destruct (Qle_bool (inject_Z 0) x) eqn:E0; [| reflexivity].
  apply Qle_bool_iff in E0. change (inject_Z 0) with 0%Q in E0.
  unfold JS.Math_min.
  destruct (Qle_bool (inject_Z 100) x) eqn:E1.
  - apply Qle_bool_iff in E1. exfalso.
    apply (Qle_trans _ _ _ E1) in H. revert H. vm_compute. auto.
  - rewrite (Math_round_comp x (inject_Z 0)); [apply Math_round_inject_Z |].
    apply Qle_antisym; assumption.
Qed.

Lemma clamp_round_above (x : Q) :
  (inject_Z 100 <= x)%Q ->
  JS.Math_round (JS.Math_min (inject_Z 100) (JS.Math_max (inject_Z 0) x)) = 100.
Proof.
  intros H. unfold JS.Math_max.
  assert (H0 : Qle_bool (inject_Z 0) x = true).
  { apply Qle_bool_iff. apply Qle_trans with (inject_Z 100); [| exact H].
    vm_compute. discriminate. }
  rewrite H0. unfold JS.Math_min.
  apply Qle_bool_iff in H. rewrite H. apply Math_round_inject_Z.
Qed.

Lemma percent_of_100_mono (v w : Z) :
  v <= w ->
  (JS.fmul (JS.fdiv (inject_Z v) (inject_Z 100)) (inject_Z 100)
   <= JS.fmul (JS.fdiv (inject_Z w) (inject_Z 100)) (inject_Z 100))%Q.
Proof.
  intros H. apply fmul_mono; [lia |]. apply fdiv_mono; [lia | exact H].
Qed.

(** X6. With the default maximum of 100 the label of [ProgressBar] is the
    value it is given when that lies between 0 and 100, 0 for a negative
    value and 100 for a value above 100. *)
Theorem X6_progress_bar_label_clamps :
  forall value : Z,
    ProgressBarLabel.label value 100 = Z.max 0 (Z.min 100 value).
Proof.
  intros v. unfold ProgressBarLabel.label, ProgressBar.percentage.
  destruct (Z_le_gt_dec v 0) as [Hneg | Hpos].
  - rewrite clamp_round_below; [lia |].
    apply Qle_trans with
      (JS.fmul (JS.fdiv (inject_Z 0) (inject_Z 100)) (inject_Z 100)).
    + apply percent_of_100_mono, Hneg.
    + vm_compute. discriminate.
  - destruct (Z_le_gt_dec 100 v) as [Hbig | Hsmall].
    + rewrite clamp_round_above; [lia |].
      apply Qle_trans with
        (JS.fmul (JS.fdiv (inject_Z 100) (inject_Z 100)) (inject_Z 100)).
      * vm_compute. discriminate.
      * apply percent_of_100_mono, Hbig.
    + assert (Hall :
        forallb (fun n : nat =>
                   JS.Math_round
                     (JS.Math_min (inject_Z 100)
                        (JS.Math_max (inject_Z 0)
                           (JS.fmul (JS.fdiv (inject_Z (Z.of_nat n))
                                             (inject_Z 100))
                                    (inject_Z 100))))
                   =? Z.of_nat n)
                (seq 0 101) = true) by (vm_compute; reflexivity).
      rewrite forallb_forall in Hall.
      specialize (Hall (Z.to_nat v)).
      rewrite Z2Nat.id in Hall by lia.
      rewrite Z.eqb_eq in Hall. rewrite Hall; [lia |].
      apply in_seq. lia.
Qed.

Lemma legacy_platformPercent_card (st : PlatformState) :
  0 <= total st -> Legacy.platformPercent st = PlatformCard.progress (Some st).
Proof.
  intros Ht. unfold Legacy.platformPercent, PlatformCard.progress.
  destruct (Z.ltb_spec 0 (total st)), (Z.eqb_spec (total st) 0);
    try reflexivity; lia.
Qed.

(** X7. The first front end and the stores agree where both compute: the
    percent of [updateScanProgress] is the percent [updateProgress]
    stores whenever the aggregate total is positive, and it is 0 when the
    total is not positive or the payload has no platforms; a platform row
    shows the percent of the platform's card for a total that is not
    negative; and [handleScanError] classifies a payload as [handleError]
    does. *)
Theorem X7_legacy_agrees_with_stores :
  (forall (s : ScanStore) (pd : ScanProgress) (m : gmap string PlatformState),
      pd_platforms pd = Some m ->
      (0 < Spec.sum_of total m ->
       Legacy.percent pd = progress (Scan.updateProgress (Some pd) s))
      /\ (Spec.sum_of total m <= 0 -> Legacy.percent pd = 0))
  /\ (forall pd : ScanProgress, pd_platforms pd = None -> Legacy.percent pd = 0)
  /\ (forall st : PlatformState,
        0 <= total st ->
        Legacy.platformPercent st = PlatformCard.progress (Some st))
  /\ (forall error : ScanError,
        Legacy.errorMsg error = Scan.errorMsg error
        /\ Legacy.isCancelled error = Scan.isCancelled error).
Proof.
  split; [| split; [| split]].
  - intros s pd m Hm.
    assert (E : Legacy.percent pd
                = if 0 <? Spec.sum_of total m
                  then Scan.overall_percent (Spec.sum_of submitted m)
                         (Spec.sum_of collected m) (Spec.sum_of total m)
                  else 0).
    { unfold Legacy.percent. rewrite Hm.
      change (foldl Scan.totals_step (0, 0, 0) (Object_values m))
        with (Scan.totals m).
      rewrite totals_sums. reflexivity. }
    rewrite E, (updateProgress_progress s pd m Hm).
    split; intros H; destruct (Z.ltb_spec 0 (Spec.sum_of total m));
      (reflexivity || lia).
  - intros pd H. unfold Legacy.percent. rewrite H. reflexivity.
  - apply legacy_platformPercent_card.
  - intros error. unfold Legacy.isCancelled, Scan.isCancelled.
    destruct error as [s | m]; split; reflexivity.
Qed.

Lemma X7_legacy_agrees_with_stores_witness :
  Legacy.percent (Spec.snapshot (Spec.single "chatgpt" "collecting" 8 8 3))
  = progress (Scan.updateProgress
                (Some (Spec.snapshot (Spec.single "chatgpt" "collecting" 8 8 3)))
                Spec.scan_counting_down).
Proof.
  apply (proj1 (proj1 X7_legacy_agrees_with_stores Spec.scan_counting_down
                  (Spec.snapshot (Spec.single "chatgpt" "collecting" 8 8 3))
                  (Spec.single "chatgpt" "collecting" 8 8 3) eq_refl)).
  vm_compute. reflexivity.
Defined.

(** * Further properties of the scan life cycle *)

Lemma loadDailyUsage_frame (b : Backend) (w : World) :
  scan (Products.loadDailyUsage b w) = scan w
  /\ ui (Products.loadDailyUsage b w) = ui w
  /\ regions (Products.loadDailyUsage b w) = regions w
  /\ platformsStore (Products.loadDailyUsage b w) = platformsStore w.
Proof.
  unfold Products.loadDailyUsage. destruct (checkDailyUsage b); repeat split.
Qed.

Lemma loadProductPromptCount_frame (b : Backend) (pid : string) (w : World) :
  scan (Products.loadProductPromptCount b pid w) = scan w
  /\ ui (Products.loadProductPromptCount b pid w) = ui w
  /\ regions (Products.loadProductPromptCount b pid w) = regions w
  /\ platformsStore (Products.loadProductPromptCount b pid w) = platformsStore w
  /\ trace (Products.loadProductPromptCount b pid w)
     = trace w ++ [fetch_extension_prompts pid].
Proof.
  unfold Products.loadProductPromptCount.
  destruct (fetchExtensionPrompts b pid) as [[pd |] | e]; cbn;
    try destruct (quota pd); repeat split.
Qed.

(** X8. The [scan:started] listener always leaves the scan marked active
    and asks for the quota exactly once.  When a scan was already active
    it changes nothing else: the progress shown and the view stay.
    Otherwise it resets the progress and shows the scanning view. *)
Theorem X8_scan_started_listener :
  forall (b : Backend) (w : World),
    let w' := Events.on_scan_started b w in
    isScanning (scan w') = true
    /\ trace w' = trace w ++ [check_daily_usage]
    /\ regions w' = regions w
    /\ (isScanning (scan w) = true -> scan w' = scan w /\ ui w' = ui w)
    /\ (isScanning (scan w) = false ->
        currentView (ui w') = "scanning"
        /\ scan w' = with_isScanning true (scan (Scan.resetProgress w))
        /\ progress (scan w') = 0
        /\ countdownSeconds (scan w') = None
        /\ lastResult (scan w') = None).
Proof.
  intros b w. cbv zeta. unfold Events.on_scan_started.
  destruct (loadDailyUsage_frame b
              (if isScanning (scan w) then w
               else showView "scanning"
                      (Scan.resetProgress (set_scan (with_isScanning true) w))))
    as (Hs & Hu & Hr & _).
  rewrite Hs, Hu, Hr, loadDailyUsage_trace.
  destruct (isScanning (scan w)) eqn:E; cbn.
  - repeat split; try assumption; discriminate.
  - repeat split; discriminate.
Qed.

Lemma X8_scan_started_listener_witness :
  scan (Events.on_scan_started (Spec.backend_with (Ok Spec.usage_full))
          Spec.scanning_world) = scan Spec.scanning_world.
Proof.
  apply (proj1 (proj2 (proj2 (proj2
           (X8_scan_started_listener (Spec.backend_with (Ok Spec.usage_full))
              Spec.scanning_world))))).
  vm_compute. reflexivity.
Defined.

(** X9. A cancel the backend accepts puts the scan store at not scanning
    and the view at main, and later progress or countdown events of the
    cancelled scan change neither; a later [scan:started] event starts
    the scanning view again.  A cancel the backend rejects leaves the
    scan store and the view as they were.  The starting flag is never
    touched by a cancel. *)
Theorem X9_cancelScan_and_late_events :
  forall (b : Backend) (w : World) (payload : option ScanProgress)
         (seconds : Z) (e : string),
    let wc := Events.cancelScan (Ok ()) w in
    isScanning (scan wc) = false
    /\ currentView (ui wc) = "main"
    /\ isStarting (scan wc) = isStarting (scan w)
    /\ trace wc = trace w ++ [cancel_scan]
    /\ isScanning (scan (Events.on_scan_progress payload wc)) = false
    /\ currentView (ui (Events.on_scan_progress payload wc)) = "main"
    /\ isScanning (scan (Events.on_scan_countdown seconds wc)) = false
    /\ currentView (ui (Events.on_scan_countdown seconds wc)) = "main"
    /\ isScanning (scan (Events.on_scan_started b wc)) = true
    /\ currentView (ui (Events.on_scan_started b wc)) = "scanning"
    /\ scan (Events.cancelScan (Err e) w) = scan w
    /\ ui (Events.cancelScan (Err e) w) = ui w.
Proof.
  intros b w payload seconds e wc.
  assert (HP : isScanning (Scan.updateProgress payload (scan wc)) = false).
  { unfold Scan.updateProgress. destruct payload as [pd |]; [| reflexivity].
    destruct (pd_platforms pd) as [m |].
    - destruct (Scan.totals m) as [[ts tc] tt].
      destruct (pd_phase pd) as [[| c p] |], (0 <? tt),
        (pd_countdownSeconds pd); reflexivity.
    - destruct (pd_phase pd) as [[| c p] |], (pd_countdownSeconds pd);
        reflexivity. }
  assert (HS : scan (Events.on_scan_started b wc)
               = with_isScanning true (scan (Scan.resetProgress wc))
               /\ currentView (ui (Events.on_scan_started b wc)) = "scanning").
  { unfold Events.on_scan_started.
    destruct (loadDailyUsage_frame b
                (if isScanning (scan wc) then wc
                 else showView "scanning"
                        (Scan.resetProgress
                           (set_scan (with_isScanning true) wc))))
      as (Hs & Hu & _).
    rewrite Hs, Hu. subst wc. cbn. split; reflexivity. }
  destruct HS as [HS1 HS2]. rewrite HS1, HS2.
  unfold Events.on_scan_progress. cbn [scan ui set_scan]. rewrite HP.
  subst wc. cbn. repeat split.
Qed.

(** * Further properties of [startScan] *)

Lemma limitedPlatforms_cases (p : ProductsStore) (samples : Z)
    (auth : list string) :
  StartScan.limitedPlatforms p samples auth = auth
  \/ (isUnlimited (dailyUsage p) = false
      /\ Products.availableTests p
         < promptCount p * samples * Z.of_nat (length auth)
      /\ let n := Products.availableTests p / (promptCount p * samples) in
         0 < n < Z.of_nat (length auth)
         /\ StartScan.limitedPlatforms p samples auth = take (Z.to_nat n) auth).
Proof.
  unfold StartScan.limitedPlatforms, JS.Math_floor.
  rewrite <- Zdiv_Qdiv.
  destruct (isUnlimited (dailyUsage p)); cbn [negb andb]; [left; reflexivity |].
  destruct (Z.ltb_spec (Products.availableTests p)
              (promptCount p * samples * Z.of_nat (length auth)));
    [| left; reflexivity].
  destruct (Z.ltb_spec 0
              (Products.availableTests p / (promptCount p * samples)));
    [| left; reflexivity].
  destruct (Z.ltb_spec (Products.availableTests p / (promptCount p * samples))
              (Z.of_nat (length auth))); [| left; reflexivity].
  right. cbn [andb]. repeat split; assumption.
Qed.

(** X10. The platforms [startScan] sends are a leading part of the
    signed-in platforms and never empty when a platform is signed in.
    They are all of them on an unlimited plan, when the quota covers
    every platform, and also when it does not cover a single one; when
    the list is cut, the tests of the platforms kept fit the available
    quota. *)
Theorem X10_limitedPlatforms :
  forall (p : ProductsStore) (samples : Z) (auth : list string),
    let limited := StartScan.limitedPlatforms p samples auth in
    (exists n, limited = take n auth)
    /\ (auth <> [] -> limited <> [])
    /\ (isUnlimited (dailyUsage p) = true -> limited = auth)
    /\ (promptCount p * samples * Z.of_nat (length auth)
        <= Products.availableTests p -> limited = auth)
    /\ (0 <= Products.availableTests p < promptCount p * samples ->
        limited = auth)
    /\ (limited <> auth -> 0 < promptCount p * samples ->
        Z.of_nat (length limited) * (promptCount p * samples)
        <= Products.availableTests p).
Proof.
  intros p samples auth limited. subst limited.
  destruct (limitedPlatforms_cases p samples auth)
    as [-> | (Hun & Hlt & Hn & ->)].
  - split; [exists (length auth); symmetry; apply firstn_all |].
    repeat split; try reflexivity; try tauto.
  - cbv zeta in Hn.
    set (n := Products.availableTests p / (promptCount p * samples)) in *.
    split; [eexists; reflexivity |].
    split.
    { intros _ H. apply (f_equal length) in H.
      rewrite length_take in H. cbn in H. lia. }
    split; [congruence |].
    split; [lia |].
    split.
    { intros [H0 H1]. exfalso.
      assert (n = 0) by (apply Z.div_small; lia). lia. }
    intros _ Hpos. rewrite length_take.
    replace (Z.of_nat (Z.to_nat n `min` length auth)) with n by lia.
    rewrite Z.mul_comm. apply Z.mul_div_le. exact Hpos.
Qed.

Lemma X10_limitedPlatforms_witness :
  StartScan.limitedPlatforms
    {| selectedProductId := Some "prod-1"; productConfig := None;
       promptCount := 5;
       dailyUsage := Products.usage_snapshot Spec.usage_full |}
    1 ["chatgpt"; "claude"; "gemini"] <> [].
Proof.
  apply (proj1 (proj2
           (X10_limitedPlatforms
              {| selectedProductId := Some "prod-1"; productConfig := None;
                 promptCount := 5;
                 dailyUsage := Products.usage_snapshot Spec.usage_full |}
              1 ["chatgpt"; "claude"; "gemini"]))).
  discriminate.
Defined.

Lemma set_add_In (x y : string) (l : list string) :
  In y (StartScan.set_add x l) <-> y = x \/ In y l.
Proof.
  unfold StartScan.set_add. destruct (existsb (String.eqb x) l) eqn:E.
  - apply existsb_exists in E as (z & Hz & Heq).
    apply String.eqb_eq in Heq. subst z.
    split; [auto | intros [-> | H]; assumption].
  - rewrite in_app_iff. cbn. split; intros H; intuition (subst; auto).
Qed.

Lemma set_add_NoDup (x : string) (l : list string) :
  List.NoDup l -> List.NoDup (StartScan.set_add x l).
Proof.
  intros Hl. unfold StartScan.set_add.
  destruct (existsb (String.eqb x) l) eqn:E; [exact Hl |].
  apply NoDup_ListNoDup, NoDup_app. apply NoDup_ListNoDup in Hl.
  split; [exact Hl |]. split.
  - intros y Hy Hx. apply list_elem_of_singleton in Hx. subst y.
    apply list_elem_of_In in Hy.
    assert (existsb (String.eqb x) l = true).
    { apply existsb_exists. exists x. split; [exact Hy | apply String.eqb_refl]. }
    congruence.
  - apply NoDup_singleton.
Qed.

(** The loop over one prompt's regions. *)
Lemma foldl_set_add_lower (regions acc : list string) :
  (List.NoDup acc ->
   List.NoDup (foldl (fun acc' r => StartScan.set_add (JS.toLowerCase r) acc')
                     acc regions))
  /\ (forall y,
        In y (foldl (fun acc' r => StartScan.set_add (JS.toLowerCase r) acc')
                    acc regions)
        <-> In y acc \/ exists r, In r regions /\ y = JS.toLowerCase r).
Proof.
  revert acc. induction regions as [| r regions IH]; intros acc; cbn [foldl].
  - split; [auto |]. intros y. split; [auto |].
    intros [H | (r & [] & _)]. exact H.
  - destruct (IH (StartScan.set_add (JS.toLowerCase r) acc)) as [IH1 IH2].
    split.
    + intros H. apply IH1, set_add_NoDup, H.
    + intros y. rewrite IH2, set_add_In. split.
      * intros [[-> | H] | (r' & Hr' & ->)].
        -- right. exists r. split; [left; reflexivity | reflexivity].
        -- left. exact H.
        -- right. exists r'. split; [right; exact Hr' | reflexivity].
      * intros [H | (r' & [<- | Hr'] & ->)].
        -- left. right. exact H.
        -- left. left. reflexivity.
        -- right. exists r'. split; [exact Hr' | reflexivity].
Qed.

Lemma neededRegions_loop (values : list (list string)) (acc : list string) :
  let step := fun acc regions =>
    match regions with
    | [] => StartScan.set_add "local" acc
    | _ => foldl (fun acc' r => StartScan.set_add (JS.toLowerCase r) acc')
                 acc regions
    end in
  (List.NoDup acc -> List.NoDup (foldl step acc values))
  /\ (forall y,
        In y (foldl step acc values)
        <-> In y acc
            \/ (y = "local" /\ In [] values)
            \/ exists regions r,
                 In regions values /\ In r regions /\ y = JS.toLowerCase r).
Proof.
  cbv zeta. revert acc.
  induction values as [| regions values IH]; intros acc; cbn [foldl].
  - split; [auto |]. intros y. split; [auto |].
    intros [H | [[_ []] | (regions & r & [] & _)]]. exact H.
  - destruct regions as [| r0 regions].
    + destruct (IH (StartScan.set_add "local" acc)) as [IH1 IH2].
      split; [intros H; apply IH1, set_add_NoDup, H |].
      intros y. rewrite IH2, set_add_In. split.
      * intros [[-> | H] | [[-> H] | (rs & r & H1 & H2 & ->)]].
        -- right. left. split; [reflexivity | left; reflexivity].
        -- left. exact H.
        -- right. left. split; [reflexivity | right; exact H].
        -- right. right. exists rs, r. repeat split; [right; exact H1 | exact H2].
      * intros [H | [[-> [_ | H]] | (rs & r & [<- | H1] & H2 & ->)]].
        -- left. right. exact H.
        -- left. left. reflexivity.
        -- right. left. split; [reflexivity | exact H].
        -- destruct H2.
        -- right. right. exists rs, r. repeat split; assumption.
    + destruct (foldl_set_add_lower (r0 :: regions) acc) as [F1 F2].
      destruct (IH (foldl (fun acc' r =>
                             StartScan.set_add (JS.toLowerCase r) acc')
                          acc (r0 :: regions))) as [IH1 IH2].
      split; [intros H; apply IH1, F1, H |].
      intros y. rewrite IH2, F2. split.
      * intros [[H | (r & Hr & ->)] | [[-> H] | (rs & r & H1 & H2 & ->)]].
        -- left. exact H.
        -- right. right. exists (r0 :: regions), r.
           repeat split; [left; reflexivity | exact Hr].
        -- right. left. split; [reflexivity | right; exact H].
        -- right. right. exists rs, r. repeat split; [right; exact H1 | exact H2].
      * intros [H | [[-> [H | H]] | (rs & r & [<- | H1] & H2 & ->)]].
        -- left. left. exact H.
        -- discriminate H.
        -- right. left. split; [reflexivity | exact H].
        -- left. right. exists r. split; [exact H2 | reflexivity].
        -- right. right. exists rs, r. repeat split; assumption.
Qed.

(** X11. The regions [startScan] requires hold no region twice, and they
    are exactly: ["local"] when some prompt has no target region, and the
    lower-cased form of every target region of every prompt. *)
Theorem X11_neededRegions :
  forall (promptRegions : list (string * list string)),
    List.NoDup (StartScan.neededRegions promptRegions)
    /\ forall y,
         In y (StartScan.neededRegions promptRegions)
         <-> (y = "local" /\ In [] (promptRegions.*2))
             \/ exists regions r,
                  In regions (promptRegions.*2) /\ In r regions
                  /\ y = JS.toLowerCase r.
Proof.
  intros promptRegions. unfold StartScan.neededRegions.
  destruct (neededRegions_loop (promptRegions.*2) []) as [H1 H2].
  split; [apply H1; constructor |].
  intros y. rewrite H2. split; [intros [[] | H]; exact H | auto].
Qed.

Lemma limitedPlatforms_nonempty (p : ProductsStore) (samples : Z)
    (auth : list string) :
  auth <> [] -> StartScan.limitedPlatforms p samples auth <> [].
Proof.
  intros Ha.
  destruct (limitedPlatforms_cases p samples auth)
    as [-> | (_ & _ & Hn & ->)]; [exact Ha |].
  cbv zeta in Hn. intros H. apply (f_equal length) in H.
  rewrite length_take in H. cbn [length] in H. lia.
Qed.

Lemma start_failed_scan (e : string) (w : World) :
  scan (StartScan.start_failed e w)
  = with_isStarting false (with_isScanning false (scan w))
  /\ currentView (ui (StartScan.start_failed e w)) = "main"
  /\ trace (StartScan.start_failed e w) = trace w.
Proof. repeat split. Qed.

(** What the [try] block of [startScan] leaves behind. *)
Lemma start_checked_outcome (b : Backend) (pid : string) (w : World) :
  let w' := StartScan.start_checked b pid w in
  isStarting (scan w') = false
  /\ ((isScanning (scan w') = isScanning (scan w)
       \/ isScanning (scan w') = false)
      \/ exists params,
           isScanning (scan w') = true
           /\ trace w' = trace w ++ [get_prompt_target_regions pid;
                                     start_scan params]
           /\ startScanCmd b params = Ok ()
           /\ productId params = pid
           /\ sp_platforms params <> []
           /\ (maxTests params = None
               <-> isUnlimited (dailyUsage (products w)) = true)
           /\ currentView (ui w') = "scanning"
           /\ progress (scan w') = 0
           /\ products w' = products w).
Proof.
  cbv zeta. unfold StartScan.start_checked.
  destruct (getPromptTargetRegions b pid) as [promptRegions | e].
  2:{ split; [reflexivity | left; right; reflexivity]. }
  destruct (StartScan.missingAuth (invoke (get_prompt_target_regions pid) w)
              (StartScan.neededRegions promptRegions)) as [| miss missing].
  2:{ split; [reflexivity | left; left; reflexivity]. }
  destruct (StartScan.authPlatforms (invoke (get_prompt_target_regions pid) w))
    as [| a auth] eqn:Ea.
  { split; [reflexivity | left; left; reflexivity]. }
  match goal with
  | |- context [startScanCmd b ?p] => set (params := p)
  end.
  destruct (startScanCmd b params) as [[] | e] eqn:Es.
  2:{ split; [reflexivity | left; right; reflexivity]. }
  split; [reflexivity |]. right. exists params.
  split; [reflexivity |]. split.
  { cbn. rewrite <- app_assoc. reflexivity. }
  split; [exact Es |]. split; [reflexivity |]. split.
  { subst params. cbn [sp_platforms].
    apply limitedPlatforms_nonempty. discriminate. }
  split.
  { subst params. cbn. destruct (isUnlimited (dailyUsage (products w)));
      split; congruence. }
  repeat split.
Qed.

(** The state [startScan] is in when it reaches its quota check. *)
Lemma startScan_after_loads (b : Backend) (pid : string) (w : World) :
  let w3 :=
    Products.loadProductPromptCount b pid
      (Products.loadDailyUsage b (set_scan (with_isStarting true) w)) in
  scan w3 = with_isStarting true (scan w)
  /\ ui w3 = ui w
  /\ trace w3 = trace w ++ [check_daily_usage; fetch_extension_prompts pid].
Proof.
  cbv zeta.
  destruct (loadProductPromptCount_frame b pid
              (Products.loadDailyUsage b (set_scan (with_isStarting true) w)))
    as (Hs & Hu & _ & _ & Ht).
  destruct (loadDailyUsage_frame b (set_scan (with_isStarting true) w))
    as (Hs' & Hu' & _).
  rewrite Hs, Hu, Ht, Hs', Hu', loadDailyUsage_trace, <- app_assoc.
  repeat split.
Qed.

(** X12. [startScan] never returns with the starting flag set: whichever
    path it takes (a guard, a blocked quota, no prompts, a missing sign
    in, a rejected command, a started scan) the flag is false afterwards
    when it was false before. *)
Theorem X12_startScan_clears_starting_flag :
  forall (b : Backend) (w : World),
    isStarting (scan w) = false ->
    isStarting (scan (StartScan.startScan b w)) = false.
Proof.
  intros b w H. unfold StartScan.startScan. rewrite H. cbn [orb].
  destruct (isScanning (scan w)); [exact H |].
  destruct (selectedProductId (products w)) as [[| c pid] |]; try exact H.
  destruct (hasAnyAuth (regions w)); cbn [negb]; [| exact H].
  set (w3 := Products.loadProductPromptCount b (String c pid)
               (Products.loadDailyUsage b (set_scan (with_isStarting true) w))).
  destruct (StartScan.quota_blocks (products w3)).
  { destruct (0 <? pendingEvaluations (dailyUsage (products w3)));
      reflexivity. }
  destruct (promptCount (products w3) =? 0); [reflexivity |].
  apply (start_checked_outcome b (String c pid) w3).
Qed.

Lemma X12_startScan_clears_starting_flag_witness :
  isStarting (scan (StartScan.startScan
                      (Spec.backend_with (Ok Spec.usage_partial))
                      Spec.ready_world)) = false.
Proof.
  apply (X12_startScan_clears_starting_flag
           (Spec.backend_with (Ok Spec.usage_partial)) Spec.ready_world).
  vm_compute. reflexivity.
Defined.

(** X13. [startScan] marks a scan active only when it has sent
    [start_scan] and the backend accepted it: the commands sent are then
    the usage check, the prompt fetch, the target regions and the start,
    in this order; the start names the selected product, a non-empty list
    of platforms, and a test budget unless the plan is unlimited; the
    view is the scanning view with the percent at 0; and neither the
    quota gate nor the prompt check had blocked. *)
Theorem X13_scanning_means_start_scan_accepted :
  forall (b : Backend) (w : World),
    isStarting (scan w) = false ->
    isScanning (scan w) = false ->
    isScanning (scan (StartScan.startScan b w)) = true ->
    let w' := StartScan.startScan b w in
    exists pid params,
      selectedProductId (products w) = Some pid
      /\ hasAnyAuth (regions w) = true
      /\ trace w' = trace w ++ [check_daily_usage; fetch_extension_prompts pid;
                                get_prompt_target_regions pid;
                                start_scan params]
      /\ startScanCmd b params = Ok ()
      /\ productId params = pid
      /\ sp_platforms params <> []
      /\ (maxTests params = None
          <-> isUnlimited (dailyUsage (products w')) = true)
      /\ currentView (ui w') = "scanning"
      /\ progress (scan w') = 0
      /\ StartScan.quota_blocks (products w') = false
      /\ promptCount (products w') <> 0.
Proof.
  intros b w Hst Hsc. unfold StartScan.startScan. rewrite Hst, Hsc. cbn [orb].
  destruct (selectedProductId (products w)) as [[| c pid] |];
    try (intros H; congruence).
  destruct (hasAnyAuth (regions w)); cbn [negb];
    [| cbn; intros H; congruence].
  set (w3 := Products.loadProductPromptCount b (String c pid)
               (Products.loadDailyUsage b (set_scan (with_isStarting true) w))).
  destruct (startScan_after_loads b (String c pid) w) as (Hs3 & Hu3 & Ht3).
  fold w3 in Hs3, Hu3, Ht3.
  assert (Hsc3 : isScanning (scan w3) = false) by (rewrite Hs3; exact Hsc).
  destruct (StartScan.quota_blocks (products w3)) eqn:Eq.
  { destruct (0 <? pendingEvaluations (dailyUsage (products w3)));
      cbn; intros H; congruence. }
  destruct (Z.eqb_spec (promptCount (products w3)) 0) as [Ep | Ep].
  { cbn. intros H. congruence. }
  destruct (start_checked_outcome b (String c pid) w3)
    as (_ & [[H | H] | (params & _ & Ht & Hok & Hpid & Hne & Hmax & Hv & Hp & Hpr)]).
  - intros H'. congruence.
  - intros H'. congruence.
  - intros _. cbv zeta. exists (String c pid), params.
    rewrite Ht, Ht3, Hpr, <- app_assoc. repeat split; try assumption.
    + apply Hmax.
    + apply Hmax.
Qed.

Lemma X13_scanning_means_start_scan_accepted_witness :
  exists pid params,
    selectedProductId (products Spec.ready_world) = Some pid
    /\ sp_platforms params <> []
    /\ trace (StartScan.startScan (Spec.backend_with (Ok Spec.usage_full))
                Spec.ready_world)
       = [check_daily_usage; fetch_extension_prompts pid;
          get_prompt_target_regions pid; start_scan params].
Proof.
  destruct (X13_scanning_means_start_scan_accepted
              (Spec.backend_with (Ok Spec.usage_full)) Spec.ready_world)
    as (pid & params & H1 & _ & H3 & _ & _ & H6 & _).
  - vm_compute. reflexivity.
  - vm_compute. reflexivity.
  - vm_compute. reflexivity.
  - exists pid, params. repeat split; assumption.
Defined.

(** X14. When the prompt fetch fails, [loadProductPromptCount] puts the
    prompt count at 0 and keeps the quota; [startScan], if the quota does
    not block, then stops at the prompt check: it shows the "No Prompts"
    warning, sends nothing after the two loads and starts no scan. *)
Theorem X14_failed_prompt_fetch_reports_no_prompts :
  forall (b : Backend) (w : World) (c : ascii) (pid e : string),
    isStarting (scan w) = false ->
    isScanning (scan w) = false ->
    selectedProductId (products w) = Some (String c pid) ->
    hasAnyAuth (regions w) = true ->
    fetchExtensionPrompts b (String c pid) = Err e ->
    StartScan.quota_blocks
      (products (Products.loadDailyUsage b
                   (set_scan (with_isStarting true) w))) = false ->
    let w' := StartScan.startScan b w in
    promptCount (products w') = 0
    /\ title (modal_message (ui w')) = "No Prompts"
    /\ type (modal_message (ui w')) = "warning"
    /\ visible (modal_message (ui w')) = true
    /\ isScanning (scan w') = false
    /\ isStarting (scan w') = false
    /\ currentView (ui w') = currentView (ui w)
    /\ trace w' = trace w ++ [check_daily_usage;
                              fetch_extension_prompts (String c pid)].
Proof.
  intros b w c pid e Hst Hsc Hsel Hauth Hf Hq. cbv zeta.
  unfold StartScan.startScan. rewrite Hst, Hsc, Hsel, Hauth. cbn [orb negb].
  set (w2 := Products.loadDailyUsage b (set_scan (with_isStarting true) w)) in *.
  assert (E : Products.loadProductPromptCount b (String c pid) w2
              = set_products (with_promptCount 0)
                  (invoke (fetch_extension_prompts (String c pid)) w2)).
  { unfold Products.loadProductPromptCount. rewrite Hf. reflexivity. }
  rewrite E.
  assert (Hq' : StartScan.quota_blocks
                  (products (set_products (with_promptCount 0)
                     (invoke (fetch_extension_prompts (String c pid)) w2)))
                = false) by exact Hq.
  rewrite Hq'. cbn.
  destruct (loadDailyUsage_frame b (set_scan (with_isStarting true) w))
    as (Hs2 & Hu2 & _).
  fold w2 in Hs2, Hu2. rewrite Hs2, Hu2. cbn.
  subst w2. rewrite loadDailyUsage_trace, <- app_assoc.
  repeat split. exact Hsc.
Qed.

Lemma X14_failed_prompt_fetch_reports_no_prompts_witness :
  title (modal_message (ui
    (StartScan.startScan
       {| checkDailyUsage := Ok Spec.usage_full;
          fetchExtensionPrompts := fun _ => Err "network error";
          getPromptTargetRegions := fun _ => Ok [];
          startScanCmd := fun _ => Ok () |}
       Spec.ready_world))) = "No Prompts".
Proof.
  refine (proj1 (proj2
    (X14_failed_prompt_fetch_reports_no_prompts
       {| checkDailyUsage := Ok Spec.usage_full;
          fetchExtensionPrompts := fun _ => Err "network error";
          getPromptTargetRegions := fun _ => Ok [];
          startScanCmd := fun _ => Ok () |}
       Spec.ready_world "p"%char "rod-1"%string "network error"%string
       eq_refl eq_refl eq_refl _ eq_refl _))).
  - vm_compute. reflexivity.
  - vm_compute. reflexivity.
Defined.

(** X15. The main view enables its scan button exactly when the quota
    gate of [startScan] would not block on the stored snapshot.  The
    scan button component is stricter: when it is enabled the first three
    guards of [startScan] and its quota gate pass on the stored state,
    but it stays disabled without available tests even on an unlimited
    plan, where the gate lets the scan through. *)
Theorem X15_scan_buttons_and_quota_gate :
  (forall p : ProductsStore,
      MainView.canScan p = negb (StartScan.quota_blocks p))
  /\ (forall w : World,
        ScanControls.canScan w = true ->
        isScanning (scan w) = false
        /\ (exists c pid, selectedProductId (products w) = Some (String c pid))
        /\ hasAnyAuth (regions w) = true
        /\ StartScan.quota_blocks (products w) = false
        /\ MainView.canScan (products w) = true)
  /\ (forall w : World,
        isUnlimited (dailyUsage (products w)) = true ->
        Products.availableTests (products w) <= 0 ->
        ScanControls.canScan w = false
        /\ MainView.canScan (products w) = true
        /\ StartScan.quota_blocks (products w) = false).
Proof.
  split; [| split].
  - intros p. unfold MainView.canScan, StartScan.quota_blocks.
    destruct (isUnlimited (dailyUsage p)); cbn [negb andb orb]; [reflexivity |].
    destruct (Z.ltb_spec 0 (Products.availableTests p)),
             (Z.leb_spec (Products.availableTests p) 0);
      (reflexivity || lia).
  - intros w H. unfold ScanControls.canScan in H.
    destruct (selectedProductId (products w)) as [[| c pid] |];
      try discriminate.
    apply andb_prop in H as [H Hsc]. apply andb_prop in H as [Hauth Hav].
    apply negb_true_iff in Hsc. apply Z.ltb_lt in Hav.
    unfold StartScan.quota_blocks, MainView.canScan.
    destruct (Z.leb_spec (Products.availableTests (products w)) 0); [lia |].
    destruct (Z.ltb_spec 0 (Products.availableTests (products w))); [| lia].
    rewrite andb_false_r, orb_true_r. repeat split; eauto.
  - intros w Hun Hav. unfold ScanControls.canScan, MainView.canScan,
      StartScan.quota_blocks.
    rewrite Hun. cbn [negb andb orb].
    destruct (Z.ltb_spec 0 (Products.availableTests (products w))); [lia |].
    rewrite andb_false_r. cbn [andb].
    destruct (selectedProductId (products w)) as [[| c pid] |]; repeat split.
Qed.

Lemma X15_scan_buttons_and_quota_gate_witness :
  ScanControls.canScan
    (Products.loadDailyUsage (Spec.backend_with (Ok Spec.usage_unlimited))
       Spec.ready_world) = false
  /\ MainView.canScan
       (products (Products.loadDailyUsage
                    (Spec.backend_with (Ok Spec.usage_unlimited))
                    Spec.ready_world)) = true.
Proof.
  destruct (proj2 (proj2 X15_scan_buttons_and_quota_gate)
              (Products.loadDailyUsage
                 (Spec.backend_with (Ok Spec.usage_unlimited))
                 Spec.ready_world)) as (H1 & H2 & _).
  - vm_compute. reflexivity.
  - vm_compute. discriminate.
  - split; assumption.
Defined.

(** * Further properties of the quota snapshot *)

(** X16. The limit either loader stores is never 0: a reported limit of 0,
    like a missing one, is stored as 5 by the usage check and as 30 by
    the product scoped quota; every other reported limit, the unlimited
    mark -1 included, is stored as reported. *)
Theorem X16_stored_limit_never_zero :
  (forall usage : UsageResponse,
      limit (Products.usage_snapshot usage) <> 0
      /\ (u_limit usage = Some 0 \/ u_limit usage = None ->
          limit (Products.usage_snapshot usage) = 5)
      /\ (forall l, u_limit usage = Some l -> l <> 0 ->
                    limit (Products.usage_snapshot usage) = l))
  /\ (forall q : Quota,
        limit (Products.quota_snapshot q) <> 0
        /\ (promptsPerDay q = 0 -> limit (Products.quota_snapshot q) = 30)
        /\ (promptsPerDay q <> 0 ->
            limit (Products.quota_snapshot q) = promptsPerDay q)).
Proof.
  split.
  - intros usage. cbn. unfold JS.num_or.
    destruct (u_limit usage) as [l |].
    + destruct (Z.eqb_spec l 0) as [-> | Hl].
      * repeat split; try lia. intros l' [= <-] H. contradiction.
      * repeat split; try assumption.
        -- intros [[= ->] | [=]]. contradiction.
        -- intros l' [= <-] _. reflexivity.
    + repeat split; try lia. intros l' [=].
  - intros q. cbn. unfold JS.or0.
    destruct (Z.eqb_spec (promptsPerDay q) 0) as [E | E];
      repeat split; try lia; try contradiction.
Qed.

Lemma X16_stored_limit_never_zero_witness :
  limit (Products.usage_snapshot Spec.usage_unlimited) = -1.
Proof.
  apply (proj2 (proj2 (proj1 X16_stored_limit_never_zero Spec.usage_unlimited))
           (-1) eq_refl).
  discriminate.
Defined.

(** X17. After a successful usage check the tests available are the
    reported effective remainder when there is one, else the reported
    remainder when there is one, else 30.  So an answer that reports
    neither stores a remainder of 0 and yet 30 available tests, and
    neither the quota gate nor the main view's button blocks. *)
Theorem X17_available_tests_after_usage_check :
  forall (b : Backend) (w : World) (usage : UsageResponse),
    checkDailyUsage b = Ok usage ->
    let p := products (Products.loadDailyUsage b w) in
    (forall e, u_effectiveRemaining usage = Some e ->
               Products.availableTests p = e)
    /\ (forall r, u_effectiveRemaining usage = None ->
                  u_remaining usage = Some r ->
                  Products.availableTests p = r /\ remaining (dailyUsage p) = r)
    /\ (u_effectiveRemaining usage = None -> u_remaining usage = None ->
        remaining (dailyUsage p) = 0
        /\ Products.availableTests p = 30
        /\ StartScan.quota_blocks p = false
        /\ MainView.canScan p = true).
Proof.
  intros b w usage H. cbv zeta. rewrite (loadDailyUsage_ok b w usage H).
  unfold Products.availableTests, StartScan.quota_blocks, MainView.canScan,
    Products.availableTests. cbn.
  split; [| split].
  - intros e ->. reflexivity.
  - intros r -> ->. cbn. split; [reflexivity |].
    destruct (Z.eqb_spec r 0); congruence.
  - intros -> ->. cbn. rewrite andb_false_r, orb_true_r. repeat split.
Qed.

Lemma X17_available_tests_after_usage_check_witness :
  Products.availableTests
    (products (Products.loadDailyUsage
                 (Spec.backend_with (Ok Spec.usage_partial)) initial_world))
  = 30.
Proof.
  apply (proj2 (proj2 (X17_available_tests_after_usage_check
                         (Spec.backend_with (Ok Spec.usage_partial))
                         initial_world Spec.usage_partial eq_refl))
           eq_refl eq_refl).
Defined.

(** * Properties of the regions store *)

Lemma hasAnyAuth_iff (r : RegionsStore) :
  hasAnyAuth r = true <-> exists k, platformAuthStatus r !! k = Some true.
Proof.
  unfold hasAnyAuth, Object_values. rewrite existsb_exists. split.
  - intros (v & Hin & Hv). destruct v; [| discriminate].
    apply list_elem_of_In, list_elem_of_fmap in Hin as ([k v] & Hv' & Hkv).
    cbn in Hv'. subst v. exists k. apply elem_of_map_to_list. exact Hkv.
  - intros (k & Hk). exists true. split; [| reflexivity].
    apply list_elem_of_In, list_elem_of_fmap. exists (k, true).
    split; [reflexivity |]. apply elem_of_map_to_list. exact Hk.
Qed.

Lemma isPlatformAuthForRegion_true (r : RegionsStore) (region platform : string) :
  isPlatformAuthForRegion r region platform = true
  <-> platformAuthStatus r !! auth_key region platform = Some true.
Proof.
  unfold isPlatformAuthForRegion.
  destruct (platformAuthStatus r !! auth_key region platform) as [[|] |];
    split; congruence.
Qed.

(** X18. [hasAnyAuth] holds exactly when some key of the status map is
    true; it follows from any platform being signed in for any region, and
    without it [startScan] would find no signed-in platform at all. *)
Theorem X18_hasAnyAuth :
  forall (w : World),
    (hasAnyAuth (regions w) = true
     <-> exists k, platformAuthStatus (regions w) !! k = Some true)
    /\ (forall region platform,
          isPlatformAuthForRegion (regions w) region platform = true ->
          hasAnyAuth (regions w) = true)
    /\ (hasAnyAuth (regions w) = false -> StartScan.authPlatforms w = []).
Proof.
  intros w. split; [apply hasAnyAuth_iff |]. split.
  - intros region platform H. apply hasAnyAuth_iff.
    exists (auth_key region platform).
    apply isPlatformAuthForRegion_true, H.
  - intros H. unfold StartScan.authPlatforms.
    induction (platformIds (platformsStore w)) as [| p ids IH];
      [reflexivity |].
    cbn [List.filter].
    destruct (existsb (fun r => isPlatformAuthForRegion (regions w) r p)
                (configuredRegions (regions w))) eqn:E; [| exact IH].
    apply existsb_exists in E as (r & _ & Hr).
    assert (hasAnyAuth (regions w) = true).
    { apply hasAnyAuth_iff. exists (auth_key r p).
      apply isPlatformAuthForRegion_true, Hr. }
    congruence.
Qed.

Lemma X18_hasAnyAuth_witness :
  hasAnyAuth (regions Spec.ready_world) = true.
Proof.
  apply (proj1 (proj2 (X18_hasAnyAuth Spec.ready_world)) "local" "chatgpt").
  vm_compute. reflexivity.
Defined.

Lemma auth_key_String (c : ascii) (r p : string) :
  auth_key (String c r) p = String c (auth_key r p).
Proof. reflexivity. Qed.

Lemma auth_key_Empty (p : string) : auth_key EmptyString p = String ":" p.
Proof. reflexivity. Qed.

(** X19. The key of the status map tells region and platform apart as
    long as region codes hold no colon: two pairs with the same key are
    then the same pair.  With a colon in a region code two different
    pairs can share a key. *)
Theorem X19_auth_key_injective :
  (forall r r' p p' : string,
      Regions.has_colon r = false -> Regions.has_colon r' = false ->
      auth_key r p = auth_key r' p' -> r = r' /\ p = p')
  /\ auth_key "us:east" "chatgpt" = auth_key "us" "east:chatgpt".
Proof.
  split; [| reflexivity].
  induction r as [| c r IH]; intros r' p p' Hr Hr' H.
  - destruct r' as [| c' r'].
    + rewrite !auth_key_Empty in H. split; congruence.
    + rewrite auth_key_Empty, auth_key_String in H.
      injection H as <- _. cbn in Hr'. discriminate.
  - destruct r' as [| c' r'].
    + rewrite auth_key_Empty, auth_key_String in H.
      injection H as -> _. cbn in Hr. discriminate.
    + rewrite !auth_key_String in H. injection H as -> H.
      cbn in Hr, Hr'. apply orb_false_elim in Hr as [_ Hr].
      apply orb_false_elim in Hr' as [_ Hr'].
      destruct (IH r' p p' Hr Hr' H) as [-> ->]. split; reflexivity.
Qed.

Lemma X19_auth_key_injective_witness :
  "local"%string = "local"%string /\ "claude"%string = "claude"%string.
Proof.
  apply (proj1 X19_auth_key_injective "local" "local" "claude" "claude");
    reflexivity.
Defined.

(** X20. Recording a sign-in state for a region and a platform makes
    [isPlatformAuthForRegion] answer that state for the pair, changes the
    answer for no pair with another key, and keeps the configured
    regions; recording a sign-in makes [hasAnyAuth] hold; and the toggle
    of the region-auth view flips the answer and sends the new state. *)
Theorem X20_auth_status_round_trip :
  forall (st : RegionsStore) (region platform : string) (v : bool),
    let st' := Regions.assign_auth region platform v st in
    isPlatformAuthForRegion st' region platform = v
    /\ (forall r' p',
          auth_key r' p' <> auth_key region platform ->
          isPlatformAuthForRegion st' r' p' = isPlatformAuthForRegion st r' p')
    /\ configuredRegions st' = configuredRegions st
    /\ (v = true -> hasAnyAuth st' = true)
    /\ (let '(st2, cmds) := Regions.handleToggleAuth region platform st in
        isPlatformAuthForRegion st2 region platform
        = negb (isPlatformAuthForRegion st region platform)
        /\ cmds = [Regions.set_platform_auth_status region platform
                     (negb (isPlatformAuthForRegion st region platform))]).
Proof.
  intros st region platform v st'.
  assert (E : forall b, isPlatformAuthForRegion
                          (Regions.assign_auth region platform b st)
                          region platform = b).
  { intros b. unfold isPlatformAuthForRegion, Regions.assign_auth. cbn.
    rewrite lookup_insert_eq. destruct b; reflexivity. }
  split; [apply E |]. split; [| split; [reflexivity | split]].
  - intros r' p' Hne. subst st'.
    unfold isPlatformAuthForRegion, Regions.assign_auth. cbn.
    rewrite lookup_insert_ne by congruence. reflexivity.
  - intros ->. apply hasAnyAuth_iff. exists (auth_key region platform).
    subst st'. unfold Regions.assign_auth. cbn. apply lookup_insert_eq.
  - unfold Regions.handleToggleAuth, Regions.setAuthStatus.
    split; [apply E | reflexivity].
Qed.

Lemma X20_auth_status_round_trip_witness :
  hasAnyAuth (Regions.assign_auth "de" "claude" true initial_regions) = true.
Proof.
  apply (proj1 (proj2 (proj2 (proj2
           (X20_auth_status_round_trip initial_regions "de" "claude" true))))).
  reflexivity.
Defined.

Lemma removeRegion_loop (code : string) (ids : list string) (r : RegionsStore) :
  let r' :=
    foldl (fun acc platform =>
             Regions.with_platformAuthStatus
               (delete (auth_key code platform) (platformAuthStatus acc)) acc)
          r ids in
  configuredRegions r' = configuredRegions r
  /\ forall k,
       platformAuthStatus r' !! k
       = if decide (k ∈ auth_key code <$> ids) then None
         else platformAuthStatus r !! k.
Proof.
  cbv zeta. revert r. induction ids as [| p ids IH]; intros r; cbn [foldl].
  - split; [reflexivity |]. intros k.
    destruct (decide (k ∈ auth_key code <$> [])) as [H | _]; [| reflexivity].
    apply elem_of_nil in H. contradiction.
  - destruct (IH (Regions.with_platformAuthStatus
                    (delete (auth_key code p) (platformAuthStatus r)) r))
      as [IH1 IH2].
    split; [rewrite IH1; reflexivity |].
    intros k. rewrite IH2, fmap_cons. cbn [platformAuthStatus
      Regions.with_platformAuthStatus].
    destruct (decide (k ∈ auth_key code <$> ids)) as [Hin | Hnin].
    + destruct (decide (k ∈ auth_key code p :: (auth_key code <$> ids)))
        as [_ | H]; [reflexivity |].
      exfalso. apply H. right. exact Hin.
    + destruct (decide (k = auth_key code p)) as [-> | Hne].
      * rewrite lookup_delete_eq.
        destruct (decide (auth_key code p
                          ∈ auth_key code p :: (auth_key code <$> ids)))
          as [_ | H]; [reflexivity |].
        exfalso. apply H. left.
      * rewrite lookup_delete_ne by congruence.
        destruct (decide (k ∈ auth_key code p :: (auth_key code <$> ids)))
          as [H | _]; [| reflexivity].
        apply elem_of_cons in H as [H | H]; contradiction.
Qed.

(** X21. [removeRegion] refuses the local region: the store is unchanged.
    For any other code the region leaves the configured regions, the
    other regions stay in their order, no known platform is signed in for
    the removed region afterwards, and the status of every other key is
    kept. *)
Theorem X21_removeRegion :
  forall (ids : list string) (code : string) (st : RegionsStore),
    Regions.removeRegion ids "local" st = st
    /\ (code <> "local" ->
        let st' := Regions.removeRegion ids code st in
        configuredRegions st'
        = List.filter (fun x => negb (String.eqb x code)) (configuredRegions st)
        /\ ~ In code (configuredRegions st')
        /\ (In "local" (configuredRegions st) ->
            In "local" (configuredRegions st'))
        /\ (forall p, In p ids -> isPlatformAuthForRegion st' code p = false)
        /\ (forall k, (forall p, In p ids -> k <> auth_key code p) ->
                      platformAuthStatus st' !! k = platformAuthStatus st !! k)).
Proof.
  intros ids code st. split; [reflexivity |].
  intros Hne. cbv zeta. unfold Regions.removeRegion.
  destruct (String.eqb_spec code "local") as [E | _]; [contradiction |].
  destruct (removeRegion_loop code ids
              (Regions.with_configuredRegions
                 (List.filter (fun x => negb (String.eqb x code))
                    (configuredRegions st)) st)) as [H1 H2].
  rewrite H1. cbn [configuredRegions Regions.with_configuredRegions].
  split; [reflexivity |]. split; [| split; [| split]].
  - intros Hin. apply filter_In in Hin as [_ Hin].
    rewrite String.eqb_refl in Hin. discriminate.
  - intros Hin. apply filter_In. split; [exact Hin |].
    destruct (String.eqb_spec "local" code) as [E | _]; [congruence | reflexivity].
  - intros p Hp. unfold isPlatformAuthForRegion. rewrite H2.
    destruct (decide (auth_key code p ∈ auth_key code <$> ids)) as [_ | H];
      [reflexivity |].
    exfalso. apply H. apply list_elem_of_fmap. exists p.
    split; [reflexivity | apply list_elem_of_In, Hp].
  - intros k Hk. rewrite H2.
    destruct (decide (k ∈ auth_key code <$> ids)) as [H | _]; [| reflexivity].
    apply list_elem_of_fmap in H as (p & -> & Hp).
    exfalso. apply (Hk p); [apply list_elem_of_In, Hp | reflexivity].
Qed.

Lemma X21_removeRegion_witness :
  ~ In "de"%string
      (configuredRegions
         (Regions.removeRegion ["chatgpt"; "claude"] "de"
            {| configuredRegions := ["local"; "de"; "fr"];
               platformAuthStatus := {[ "de:claude" := true ]} |})).
Proof.
  apply (proj2 (X21_removeRegion ["chatgpt"; "claude"] "de"
                  {| configuredRegions := ["local"; "de"; "fr"];
                     platformAuthStatus := {[ "de:claude" := true ]} |})).
  discriminate.
Defined.

Lemma addRegion_loop (code : string) (ids : list string) (r : RegionsStore) :
  let r' :=
    foldl (fun acc platform => Regions.assign_auth code platform false acc)
          r ids in
  configuredRegions r' = configuredRegions r
  /\ forall k,
       platformAuthStatus r' !! k
       = if decide (k ∈ auth_key code <$> ids) then Some false
         else platformAuthStatus r !! k.
Proof.
  cbv zeta. revert r. induction ids as [| p ids IH]; intros r; cbn [foldl].
  - split; [reflexivity |]. intros k.
    destruct (decide (k ∈ auth_key code <$> [])) as [H | _]; [| reflexivity].
    apply elem_of_nil in H. contradiction.
  - destruct (IH (Regions.assign_auth code p false r)) as [IH1 IH2].
    split; [rewrite IH1; reflexivity |].
    intros k. rewrite IH2, fmap_cons. unfold Regions.assign_auth.
    cbn [platformAuthStatus Regions.with_platformAuthStatus].
    destruct (decide (k ∈ auth_key code <$> ids)) as [Hin | Hnin].
    + destruct (decide (k ∈ auth_key code p :: (auth_key code <$> ids)))
        as [_ | H]; [reflexivity |].
      exfalso. apply H. right. exact Hin.
    + destruct (decide (k = auth_key code p)) as [-> | Hne].
      * rewrite lookup_insert_eq.
        destruct (decide (auth_key code p
                          ∈ auth_key code p :: (auth_key code <$> ids)))
          as [_ | H]; [reflexivity |].
        exfalso. apply H. left.
      * rewrite lookup_insert_ne by congruence.
        destruct (decide (k ∈ auth_key code p :: (auth_key code <$> ids)))
          as [H | _]; [| reflexivity].
        apply elem_of_cons in H as [H | H]; contradiction.
Qed.

Lemma filter_none_length {A} (f : A -> bool) (l : list A) :
  (forall x, In x l -> f x = false) -> length (List.filter f l) = 0%nat.
Proof.
  induction l as [| x l IH]; intros H; [reflexivity |].
  cbn [List.filter]. rewrite (H x) by (left; reflexivity).
  apply IH. intros y Hy. apply H. right. exact Hy.
Qed.

Lemma includes_str_In (l : list string) (x : string) :
  Regions.includes_str l x = true <-> In x l.
Proof.
  unfold Regions.includes_str. rewrite existsb_exists. split.
  - intros (y & Hy & E). apply String.eqb_eq in E. subst y. exact Hy.
  - intros H. exists x. split; [exact H | apply String.eqb_refl].
Qed.

(** X22. [addRegion] does nothing, and sends nothing, for a region that
    is configured already.  A new region goes to the end of the
    configured regions, every known platform is recorded as signed out
    for it, so its count of signed-in platforms is 0, the status of every
    other key is kept, and one command goes out, naming the first known
    platform if there is one.  Adding the same region again changes
    nothing. *)
Theorem X22_addRegion :
  forall (ids : list string) (code : string) (st : RegionsStore),
    (In code (configuredRegions st) ->
     Regions.addRegion ids code st = (st, []))
    /\ (~ In code (configuredRegions st) ->
        let '(st', cmds) := Regions.addRegion ids code st in
        configuredRegions st' = configuredRegions st ++ [code]
        /\ (forall p, In p ids -> isPlatformAuthForRegion st' code p = false)
        /\ Regions.getAuthCountForRegion ids st' code = 0%nat
        /\ (forall k, (forall p, In p ids -> k <> auth_key code p) ->
                      platformAuthStatus st' !! k = platformAuthStatus st !! k)
        /\ cmds = [Regions.set_country_platform_auth code (head ids) false]
        /\ Regions.addRegion ids code st' = (st', [])).
Proof.
  intros ids code st. split.
  - intros H. unfold Regions.addRegion.
    rewrite (proj2 (includes_str_In _ _) H). reflexivity.
  - intros H. unfold Regions.addRegion.
    destruct (Regions.includes_str (configuredRegions st) code) eqn:E.
    { apply includes_str_In in E. contradiction. }
    destruct (addRegion_loop code ids
                (Regions.with_configuredRegions
                   (configuredRegions st ++ [code]) st)) as [H1 H2].
    cbn [configuredRegions Regions.with_configuredRegions platformAuthStatus]
      in H1, H2.
    assert (Hp : forall p, In p ids ->
                 isPlatformAuthForRegion
                   (foldl (fun acc platform =>
                             Regions.assign_auth code platform false acc)
                      (Regions.with_configuredRegions
                         (configuredRegions st ++ [code]) st) ids)
                   code p = false).
    { intros p Hin. unfold isPlatformAuthForRegion. rewrite H2.
      destruct (decide (auth_key code p ∈ auth_key code <$> ids)) as [_ | Hn];
        [reflexivity |].
      exfalso. apply Hn. apply list_elem_of_fmap. exists p.
      split; [reflexivity | apply list_elem_of_In, Hin]. }
    split; [exact H1 |]. split; [exact Hp |]. split; [| split; [| split]].
    + unfold Regions.getAuthCountForRegion.
      apply filter_none_length, Hp.
    + intros k Hk. rewrite H2.
      destruct (decide (k ∈ auth_key code <$> ids)) as [Hin | _];
        [| reflexivity].
      apply list_elem_of_fmap in Hin as (p & -> & Hin).
      exfalso. apply (Hk p); [apply list_elem_of_In, Hin | reflexivity].
    + reflexivity.
    + assert (Hin : Regions.includes_str
                (configuredRegions
                   (foldl (fun acc platform =>
                             Regions.assign_auth code platform false acc)
                      (Regions.with_configuredRegions
                         (configuredRegions st ++ [code]) st) ids)) code
              = true).
      { apply includes_str_In. rewrite H1. apply in_or_app. right. left.
        reflexivity. }
      rewrite Hin. reflexivity.
Qed.

Lemma X22_addRegion_witness :
  Regions.addRegion ["chatgpt"; "claude"] "local" initial_regions
  = (initial_regions, []).
Proof.
  apply (proj1 (X22_addRegion ["chatgpt"; "claude"] "local" initial_regions)).
  left. reflexivity.
Defined.

(** X23. Whatever the backend answers, and also when it fails,
    [loadConfiguredRegions] leaves a list of configured regions that
    starts with the local region, and it never touches the sign-in
    states.  Without available countries it asks nothing and configures
    the local region alone; so it does after a failure or an empty
    answer.  Every further region comes from the answer, in the answer's
    order, and matches the code of an available country up to case. *)
Theorem X23_loadConfiguredRegions :
  forall (availableCountries : list Regions.Country)
         (answer : Result (option (list string))) (st : RegionsStore),
    let '(st', cmds) :=
      Regions.loadConfiguredRegions availableCountries answer st in
    platformAuthStatus st' = platformAuthStatus st
    /\ (exists rest,
          configuredRegions st' = "local" :: rest
          /\ (availableCountries = [] -> rest = [] /\ cmds = [])
          /\ (availableCountries <> [] ->
              cmds = [Regions.get_configured_proxy_countries])
          /\ (forall e, answer = Err e -> rest = [])
          /\ (answer = Ok None \/ answer = Ok (Some []) -> rest = [])
          /\ (forall regions,
                answer = Ok (Some regions) -> availableCountries <> [] ->
                rest = List.filter
                         (fun r' =>
                            existsb
                              (fun c => String.eqb
                                          (JS.toLowerCase (Regions.code c))
                                          (JS.toLowerCase r'))
                              availableCountries)
                         regions)).
Proof.
  intros avail answer st. unfold Regions.loadConfiguredRegions.
  destruct avail as [| c0 avail].
  - split; [reflexivity |]. exists []. repeat split; congruence.
  - destruct answer as [[[| x xs] |] | e]; (split; [reflexivity |]);
      eexists; (split; [reflexivity |]);
      repeat split; try congruence;
      try (intros [H | H]; congruence);
      try (intros regions [= <-] _; reflexivity).
Qed.

Lemma X23_loadConfiguredRegions_witness :
  exists rest,
    configuredRegions
      (Regions.loadConfiguredRegions
         [{| Regions.code := "DE"; Regions.name := "Germany";
             Regions.flag_emoji := "de" |}]
         (Ok (Some ["de"; "fr"])) initial_regions).1
    = "local" :: rest
    /\ rest = ["de"].
Proof.
  pose proof (X23_loadConfiguredRegions
                [{| Regions.code := "DE"; Regions.name := "Germany";
                    Regions.flag_emoji := "de" |}]
                (Ok (Some ["de"; "fr"])) initial_regions) as H.
  cbn in H. destruct H as (_ & rest & Hc & _ & _ & _ & _ & Hf).
  exists rest. split; [exact Hc |].
  rewrite (Hf ["de"; "fr"] eq_refl) by discriminate. reflexivity.
Defined.

(** * Further properties of the realtime debounce *)

Lemma refreshed_succ_r (b : Backend) (n : nat) (w : World) :
  RealtimeConn.refreshed b (S n) w
  = RealtimeConn.refreshed b n (Products.loadDailyUsage b w).
Proof. unfold RealtimeConn.refreshed. apply Nat.iter_succ_r. Qed.

Lemma refreshed_succ (b : Backend) (n : nat) (w : World) :
  RealtimeConn.refreshed b (S n) w
  = Products.loadDailyUsage b (RealtimeConn.refreshed b n w).
Proof. reflexivity. Qed.

Lemma refreshed_trace (b : Backend) (n : nat) (w : World) :
  trace (RealtimeConn.refreshed b n w)
  = trace w ++ replicate n check_daily_usage.
Proof.
  revert w. induction n as [| n IH]; intros w.
  - cbn. rewrite app_nil_r. reflexivity.
  - rewrite refreshed_succ_r, IH, loadDailyUsage_trace, <- app_assoc.
    reflexivity.
Qed.

Lemma refresh_times_length (t : nat) (gaps : list nat) :
  length (RealtimeConn.refresh_times t gaps)
  = length (List.filter (fun g => Nat.leb Realtime.window g) gaps).
Proof.
  revert t. induction gaps as [| g gaps IH]; intros t; [reflexivity |].
  cbn [RealtimeConn.refresh_times List.filter].
  rewrite length_app, IH. destruct (Nat.leb Realtime.window g); reflexivity.
Qed.

(** A train of notifications with arbitrary gaps, started armed at [t]. *)
Lemma train_from (b : Backend) (gaps : list nat) :
  forall t h r w, exists h',
    foldl (fun s g => Realtime.debouncedRefresh (Realtime.wait b g s))
          (Realtime.armed_at t h r w) gaps
    = Realtime.armed_at (Realtime.last_signal t gaps) h'
        (r ++ RealtimeConn.refresh_times t gaps)
        (RealtimeConn.refreshed b
           (length (RealtimeConn.refresh_times t gaps)) w).
Proof.
  induction gaps as [| g gaps IH]; intros t h r w.
  - exists h. unfold Realtime.last_signal. cbn.
    rewrite Nat.add_0_r, app_nil_r. reflexivity.
  - cbn [foldl RealtimeConn.refresh_times].
    destruct (Nat.leb_spec Realtime.window g) as [Hge | Hlt].
    + rewrite (wait_due b g _ h (t + Realtime.window)%nat)
        by (cbn; unfold Realtime.window in *; first [reflexivity | lia]).
      rewrite debouncedRefresh_spec by (left; split; reflexivity).
      cbn [Realtime.now Realtime.next_handle Realtime.refreshes Realtime.world
             Realtime.armed_at].
      destruct (IH (t + g)%nat (Pos.succ h) (r ++ [(t + Realtime.window)%nat])
                  (Products.loadDailyUsage b w)) as [h' Hh'].
      exists h'. unfold Realtime.armed_at in Hh' at 1. rewrite Hh'.
      unfold Realtime.last_signal. cbn [foldr app length].
      rewrite Nat.add_assoc, <- app_assoc, refreshed_succ_r. reflexivity.
    + rewrite (wait_not_due b g _ h (t + Realtime.window)%nat)
        by (cbn; unfold Realtime.window in *; first [reflexivity | lia]).
      rewrite debouncedRefresh_armed
        by (cbn [Realtime.now Realtime.armed_at];
            apply single_slot_armed_later, Hlt).
      cbn [Realtime.now Realtime.next_handle Realtime.refreshes Realtime.world
             Realtime.armed_at Realtime.set_now].
      destruct (IH (t + g)%nat (Pos.succ h) r w) as [h' Hh'].
      exists h'. rewrite Hh'. unfold Realtime.last_signal. cbn [foldr app].
      rewrite Nat.add_assoc. reflexivity.
Qed.

(** X24. A train of notifications with any gaps causes one refresh for
    each notification that the next does not follow within 500 ms, the
    last one included once 500 ms have passed: each happens 500 ms after
    its notification, their number is one more than the number of gaps of
    500 ms or more, each is one usage check, and no timeout is left
    pending. *)
Theorem X24_refreshes_of_a_train :
  forall (b : Backend) (w : World) (evs : list Realtime.event)
         (gaps : list nat) (n : nat),
    (Realtime.window <= n)%nat ->
    let st0 := Realtime.exec b evs (Realtime.init w) in
    let st := Realtime.wait b n (Realtime.burst b gaps st0) in
    let k := length (List.filter (fun g => Nat.leb Realtime.window g) gaps) in
    Realtime.refreshes st
    = Realtime.refreshes st0
      ++ RealtimeConn.refresh_times (Realtime.now st0) gaps
      ++ [(Realtime.last_signal (Realtime.now st0) gaps + Realtime.window)%nat]
    /\ length (Realtime.refreshes st)
       = (length (Realtime.refreshes st0) + S k)%nat
    /\ trace (Realtime.world st)
       = trace (Realtime.world st0) ++ replicate (S k) check_daily_usage
    /\ Realtime.timers st = ∅
    /\ Realtime.refreshTimer st = None.
Proof.
  intros b w evs gaps n Hn st0 st k.
  assert (Hs : Realtime.single_slot st0)
    by apply single_slot_exec, single_slot_init.
  subst st. unfold Realtime.burst.
  rewrite debouncedRefresh_armed by exact Hs.
  destruct (train_from b gaps (Realtime.now st0) (Realtime.next_handle st0)
              (Realtime.refreshes st0) (Realtime.world st0)) as [h' ->].
  rewrite (wait_due b n _ h'
             (Realtime.last_signal (Realtime.now st0) gaps + Realtime.window)%nat)
    by (cbn; unfold Realtime.window in *; first [reflexivity | lia]).
  cbn [Realtime.refreshes Realtime.world Realtime.timers Realtime.refreshTimer
         Realtime.armed_at].
  rewrite <- refreshed_succ, refreshed_trace, <- app_assoc.
  rewrite !length_app, refresh_times_length. fold k. cbn [length].
  repeat split. lia.
Qed.

Lemma X24_refreshes_of_a_train_witness :
  Realtime.refreshes
    (Realtime.wait (Spec.backend_with (Ok Spec.usage_full)) 500
       (Realtime.burst (Spec.backend_with (Ok Spec.usage_full))
          [100; 600; 499]%nat (Realtime.init initial_world)))
  = [600; 1699]%nat.
Proof.
  apply (X24_refreshes_of_a_train (Spec.backend_with (Ok Spec.usage_full))
           initial_world [] [100; 600; 499]%nat 500%nat).
  apply le_n.
Defined.

(** X25. A cleanup cancels the pending refresh: in whatever state the
    module is, after [cleanupSubscriptions] no timeout is pending, and no
    refresh happens however long one waits. *)
Theorem X25_cleanup_cancels_pending_refresh :
  forall (b : Backend) (w : World) (evs : list Realtime.event) (m : nat),
    let st := Realtime.exec b evs (Realtime.init w) in
    let st' := Realtime.wait b m (Realtime.cleanupSubscriptions st) in
    Realtime.timers (Realtime.cleanupSubscriptions st) = ∅
    /\ Realtime.refreshTimer (Realtime.cleanupSubscriptions st) = None
    /\ Realtime.refreshes st' = Realtime.refreshes st
    /\ Realtime.world st' = Realtime.world st
    /\ Realtime.timers st' = ∅.
Proof.
  intros b w evs m st st'.
  assert (Hs : Realtime.single_slot st)
    by apply single_slot_exec, single_slot_init.
  assert (Hc : Realtime.timers (Realtime.cleanupSubscriptions st) = ∅
               /\ Realtime.refreshTimer (Realtime.cleanupSubscriptions st) = None
               /\ Realtime.refreshes (Realtime.cleanupSubscriptions st)
                  = Realtime.refreshes st
               /\ Realtime.world (Realtime.cleanupSubscriptions st)
                  = Realtime.world st).
  { unfold Realtime.cleanupSubscriptions.
    destruct Hs as [[Hr Ht] | (h & d & Hr & Ht & _)]; rewrite Hr.
    - repeat split; assumption.
    - cbn. rewrite Ht, delete_singleton_eq. repeat split. }
  destruct Hc as (Ht & Hr & Hf & Hw).
  subst st'. rewrite wait_idle by exact Ht. cbn.
  repeat split; assumption.
Qed.


(** * Properties of the realtime connection *)

Lemma open_channels_snoc (ops : list RealtimeConn.ChannelOp)
    (op : RealtimeConn.ChannelOp) :
  ConnRun.open_channels (ops ++ [op])
  = match op with
    | RealtimeConn.subscribe name => ConnRun.open_channels ops ++ [name]
    | RealtimeConn.removeChannel name =>
      List.filter (fun n => negb (String.eqb n name))
                  (ConnRun.open_channels ops)
    end.
Proof. unfold ConnRun.open_channels. rewrite foldl_app. reflexivity. Qed.

Lemma cleanup_inv (c : RealtimeConn.Conn) :
  ConnRun.conn_inv c ->
  let c' := RealtimeConn.cleanupSubscriptions c in
  Realtime.single_slot (RealtimeConn.rt c')
  /\ Realtime.timers (RealtimeConn.rt c') = ∅
  /\ ConnRun.open_channels (RealtimeConn.client_ops c') = []
  /\ RealtimeConn.promptResultsChannel c' = None
  /\ RealtimeConn.realtimeSetup c' = RealtimeConn.realtimeSetup c.
Proof.
  intros (Hs & Ho & _). cbv zeta. unfold RealtimeConn.cleanupSubscriptions.
  assert (Ht : Realtime.single_slot
                 (Realtime.cleanupSubscriptions (RealtimeConn.rt c))
               /\ Realtime.timers
                    (Realtime.cleanupSubscriptions (RealtimeConn.rt c)) = ∅).
  { unfold Realtime.cleanupSubscriptions.
    destruct Hs as [[Hr Ht] | (h & d & Hr & Ht & _)]; rewrite Hr.
    - split; [left; split; assumption | exact Ht].
    - split.
      + left. split; [reflexivity |]. cbn. rewrite Ht.
        apply delete_singleton_eq.
      + cbn. rewrite Ht. apply delete_singleton_eq. }
  destruct Ht as [Ht1 Ht2].
  destruct (RealtimeConn.promptResultsChannel c) as [name |]; cbn.
  - rewrite open_channels_snoc, Ho. cbn. rewrite String.eqb_refl. cbn.
    repeat split; assumption.
  - repeat split; assumption.
Qed.

Lemma conn_inv_setup (org : string) (c : RealtimeConn.Conn) :
  ConnRun.conn_inv c ->
  let c' := RealtimeConn.setupRealtimeSubscriptions org c in
  Realtime.single_slot (RealtimeConn.rt c')
  /\ ConnRun.open_channels (RealtimeConn.client_ops c')
     = [("prompt-results-" ++ org)%string]
  /\ RealtimeConn.promptResultsChannel c'
     = Some ("prompt-results-" ++ org)%string.
Proof.
  intros H. destruct (cleanup_inv c H) as (Hs & _ & Ho & _ & _).
  cbv zeta in *. unfold RealtimeConn.setupRealtimeSubscriptions. cbn.
  rewrite open_channels_snoc, Ho. repeat split. exact Hs.
Qed.

Lemma conn_inv_step (b : Backend) (c : RealtimeConn.Conn)
    (e : ConnRun.conn_event) :
  ConnRun.conn_inv c -> ConnRun.conn_inv (ConnRun.conn_step b c e).
Proof.
  intros H. destruct e as [org | | | status |]; cbn [ConnRun.conn_step].
  - unfold RealtimeConn.initializeRealtime.
    destruct (RealtimeConn.realtimeSetup c) eqn:E; [exact H |].
    destruct (conn_inv_setup org c H) as (Hs & Ho & Hc). cbv zeta in *.
    split; [exact Hs |]. split.
    + cbn [RealtimeConn.client_ops RealtimeConn.promptResultsChannel
             RealtimeConn.set_realtimeSetup]. rewrite Ho, Hc. reflexivity.
    + intros _. eexists. exact Hc.
  - unfold RealtimeConn.disconnectRealtime.
    destruct (cleanup_inv c H) as (Hs & _ & Ho & Hc & _). cbv zeta in *.
    split; [exact Hs |]. split.
    + cbn [RealtimeConn.client_ops RealtimeConn.promptResultsChannel
             RealtimeConn.set_realtimeSetup]. rewrite Ho, Hc. reflexivity.
    + cbn. discriminate.
  - destruct H as (Hs & Ho & Hf). split; [| split; assumption].
    apply (single_slot_step b _ Realtime.Signal), Hs.
  - destruct H as (Hs & Ho & Hf). split; [| split; assumption].
    cbn. unfold RealtimeConn.on_update.
    destruct status as [s |]; [| exact Hs].
    destruct (String.eqb s "evaluated"); [| exact Hs].
    apply (single_slot_step b _ Realtime.Signal), Hs.
  - destruct H as (Hs & Ho & Hf). split; [| split; assumption].
    apply (single_slot_step b _ Realtime.Tick), Hs.
Qed.

Lemma conn_inv_exec (b : Backend) (evs : list ConnRun.conn_event)
    (c : RealtimeConn.Conn) :
  ConnRun.conn_inv c -> ConnRun.conn_inv (ConnRun.conn_exec b evs c).
Proof.
  revert c. induction evs as [| e evs IH]; intros c H; [exact H |].
  apply IH, conn_inv_step, H.
Qed.

(** X26. Through any run of initializations, disconnections, database
    notifications and time, the client holds at most one subscribed
    channel, the one the module remembers, and at most one refresh
    timeout is pending.  Once set up, another initialization does
    nothing, also for another organization.  A disconnection leaves no
    channel and no pending timeout, and an initialization after it
    subscribes to the channel of the organization it is given. *)
Theorem X26_realtime_connection_singleton :
  forall (b : Backend) (w : World) (evs : list ConnRun.conn_event),
    let c := ConnRun.conn_exec b evs (RealtimeConn.init w) in
    ConnRun.conn_inv c
    /\ (length (ConnRun.open_channels (RealtimeConn.client_ops c)) <= 1)%nat
    /\ (size (Realtime.timers (RealtimeConn.rt c)) <= 1)%nat
    /\ (forall org, RealtimeConn.realtimeSetup c = true ->
                    RealtimeConn.initializeRealtime org c = c)
    /\ (let d := RealtimeConn.disconnectRealtime c in
        ConnRun.open_channels (RealtimeConn.client_ops d) = []
        /\ RealtimeConn.promptResultsChannel d = None
        /\ Realtime.timers (RealtimeConn.rt d) = ∅
        /\ RealtimeConn.realtimeSetup d = false)
    /\ (forall org,
          let c' := RealtimeConn.initializeRealtime org
                      (RealtimeConn.disconnectRealtime c) in
          RealtimeConn.realtimeSetup c' = true
          /\ RealtimeConn.promptResultsChannel c'
             = Some ("prompt-results-" ++ org)%string
          /\ ConnRun.open_channels (RealtimeConn.client_ops c')
             = [("prompt-results-" ++ org)%string]).
Proof.
  intros b w evs c.
  assert (H : ConnRun.conn_inv c).
  { apply conn_inv_exec. split; [apply single_slot_init |].
    split; [reflexivity | discriminate]. }
  split; [exact H |].
  pose proof H as (Hs & Ho & Hf).
  split; [rewrite Ho; destruct (RealtimeConn.promptResultsChannel c); cbn; lia |].
  split; [apply single_slot_size, Hs |].
  split.
  { intros org E. unfold RealtimeConn.initializeRealtime. rewrite E.
    reflexivity. }
  destruct (cleanup_inv c H) as (Hs' & Ht' & Ho' & Hc' & _). cbv zeta in *.
  split.
  { unfold RealtimeConn.disconnectRealtime. cbn. repeat split; assumption. }
  intros org.
  assert (Hd : ConnRun.conn_inv (RealtimeConn.disconnectRealtime c))
    by apply (conn_inv_step b c ConnRun.Disconnect), H.
  destruct (conn_inv_setup org _ Hd) as (_ & Ho2 & Hc2). cbv zeta in *.
  unfold RealtimeConn.initializeRealtime.
  change (RealtimeConn.realtimeSetup (RealtimeConn.disconnectRealtime c))
    with false. cbv iota.
  cbn [RealtimeConn.realtimeSetup RealtimeConn.promptResultsChannel
         RealtimeConn.client_ops RealtimeConn.set_realtimeSetup].
  repeat split; assumption.
Qed.

Lemma X26_realtime_connection_singleton_witness :
  RealtimeConn.initializeRealtime "org-2"
    (ConnRun.conn_exec (Spec.backend_with (Ok Spec.usage_full))
       [ConnRun.Initialize "org-1"; ConnRun.Inserted]
       (RealtimeConn.init initial_world))
  = ConnRun.conn_exec (Spec.backend_with (Ok Spec.usage_full))
      [ConnRun.Initialize "org-1"; ConnRun.Inserted]
      (RealtimeConn.init initial_world).
Proof.
  apply (proj1 (proj2 (proj2 (proj2
           (X26_realtime_connection_singleton
              (Spec.backend_with (Ok Spec.usage_full)) initial_world
              [ConnRun.Initialize "org-1"; ConnRun.Inserted])))) "org-2").
  reflexivity.
Defined.

(** * Sign-in check of [startScan] and the updater *)

Lemma missingAuth_loop (w : World) (needed : list string)
    (acc : list (string * list string)) :
  foldl (fun acc region =>
           let hasAuthForRegion :=
             existsb (fun p => isPlatformAuthForRegion (regions w) region p)
                     (platformIds (platformsStore w)) in
           if hasAuthForRegion then acc
           else acc ++ [(region, platformIds (platformsStore w))])
        acc needed
  = acc ++ ((fun region => (region, platformIds (platformsStore w)))
            <$> List.filter
                  (fun region =>
                     negb (existsb
                             (fun p => isPlatformAuthForRegion (regions w)
                                         region p)
                             (platformIds (platformsStore w))))
                  needed).
Proof.
  revert acc. induction needed as [| r needed IH]; intros acc; cbn [foldl].
  - cbn. rewrite app_nil_r. reflexivity.
  - cbv zeta. rewrite IH. cbn [List.filter].
    destruct (existsb (fun p => isPlatformAuthForRegion (regions w) r p)
                (platformIds (platformsStore w))); cbn [negb].
    + reflexivity.
    + rewrite fmap_cons, <- app_assoc. reflexivity.
Qed.

(** X27. The regions [startScan] reports as lacking a sign-in are, in the
    order they are needed, exactly the needed regions for which no known
    platform is signed in, each listed with all known platforms.  When
    there is one, [startScan] shows the sign-in dialog with this list,
    sends no [start_scan] and leaves the scan flags down. *)
Theorem X27_missing_sign_in :
  forall (b : Backend) (pid : string) (w : World)
         (promptRegions : list (string * list string)),
    let ids := platformIds (platformsStore w) in
    let missing := StartScan.missingAuth w (StartScan.neededRegions promptRegions) in
    missing.*1
    = List.filter
        (fun region =>
           negb (existsb (fun p => isPlatformAuthForRegion (regions w) region p)
                         ids))
        (StartScan.neededRegions promptRegions)
    /\ (forall region ps, In (region, ps) missing ->
          ps = ids
          /\ In region (StartScan.neededRegions promptRegions)
          /\ forall p, In p ids ->
                       isPlatformAuthForRegion (regions w) region p = false)
    /\ (getPromptTargetRegions b pid = Ok promptRegions ->
        missing <> [] ->
        let w' := StartScan.start_checked b pid w in
        modal_authRequired (ui w') = true
        /\ authRequiredData (ui w') = missing
        /\ trace w' = trace w ++ [get_prompt_target_regions pid]
        /\ isScanning (scan w') = isScanning (scan w)
        /\ isStarting (scan w') = false
        /\ currentView (ui w') = currentView (ui w)).
Proof.
  intros b pid w promptRegions ids missing.
  assert (E : missing
              = (fun region => (region, ids))
                <$> List.filter
                      (fun region =>
                         negb (existsb
                                 (fun p => isPlatformAuthForRegion (regions w)
                                             region p) ids))
                      (StartScan.neededRegions promptRegions)).
  { subst missing. unfold StartScan.missingAuth.
    rewrite missingAuth_loop. reflexivity. }
  split; [| split].
  - rewrite E. clear E.
    induction (List.filter _ (StartScan.neededRegions promptRegions))
      as [| r l IH]; [reflexivity |].
    rewrite !fmap_cons, IH. reflexivity.
  - intros region ps Hin. rewrite E in Hin.
    apply list_elem_of_In, list_elem_of_fmap in Hin as (r & [= -> ->] & Hr).
    apply list_elem_of_In, filter_In in Hr as [Hr Hf].
    split; [reflexivity |]. split; [exact Hr |].
    intros p Hp. apply negb_true_iff in Hf.
    destruct (isPlatformAuthForRegion (regions w) r p) eqn:Ep; [| reflexivity].
    assert (existsb (fun p => isPlatformAuthForRegion (regions w) r p) ids
            = true).
    { apply existsb_exists. exists p. split; assumption. }
    congruence.
  - intros Hg Hne. cbv zeta. unfold StartScan.start_checked. rewrite Hg.
    change (StartScan.missingAuth (invoke (get_prompt_target_regions pid) w)
              (StartScan.neededRegions promptRegions)) with missing.
    destruct missing as [| m0 missing']; [contradiction |].
    cbn. repeat split.
Qed.

Lemma X27_missing_sign_in_witness :
  authRequiredData
    (ui (StartScan.start_checked
           {| checkDailyUsage := Ok Spec.usage_full;
              fetchExtensionPrompts := fun _ => Ok None;
              getPromptTargetRegions := fun _ => Ok [("prompt-1", ["DE"])];
              startScanCmd := fun _ => Ok () |}
           "prod-1" Spec.ready_world))
  = [("de"%string, ["chatgpt"; "claude"]%string)].
Proof.
  destruct (proj2 (proj2
    (X27_missing_sign_in
       {| checkDailyUsage := Ok Spec.usage_full;
          fetchExtensionPrompts := fun _ => Ok None;
          getPromptTargetRegions := fun _ => Ok [("prompt-1", ["DE"])];
          startScanCmd := fun _ => Ok () |}
       "prod-1" Spec.ready_world [("prompt-1", ["DE"])])) eq_refl)
    as (_ & H & _).
  - vm_compute. discriminate.
  - rewrite H. vm_compute. reflexivity.
Defined.

Lemma run_progress (ps : list Updater.UpdateEvent) (d0 : Updater.Download) :
  Forall Updater.is_progress ps ->
  let d := Updater.run ps d0 in
  Updater.downloaded d
  = Updater.downloaded d0 + foldr Z.add 0 (Updater.chunk_of <$> ps)
  /\ Updater.contentLength d = Updater.contentLength d0
  /\ Updater.updateProgress d
     = match ps with
       | [] => Updater.updateProgress d0
       | _ :: _ =>
         if 0 <? Updater.contentLength d0
         then JS.Math_round
                (JS.fmul (JS.fdiv (inject_Z (Updater.downloaded d))
                                  (inject_Z (Updater.contentLength d0)))
                         (inject_Z 100))
         else Updater.updateProgress d0
       end.
Proof.
  intros H. revert d0. induction H as [| e ps He Hps IH]; intros d0.
  - cbn. repeat split. lia.
  - destruct e as [cl | chunk |]; try contradiction.
    cbv zeta. unfold Updater.run. cbn [foldl].
    destruct (IH (Updater.callback d0 (Updater.Progress chunk)))
      as (H1 & H2 & H3).
    cbv zeta in H1, H2, H3. unfold Updater.run in H1, H2, H3.
    split; [| split].
    + rewrite H1, fmap_cons.
      cbn [Updater.callback Updater.downloaded Updater.chunk_of foldr]. lia.
    + rewrite H2. reflexivity.
    + rewrite H3. destruct ps as [| e' ps'].
      * cbn [foldl Updater.callback Updater.downloaded Updater.updateProgress].
        reflexivity.
      * cbn [Updater.callback Updater.contentLength Updater.updateProgress].
        destruct (0 <? Updater.contentLength d0); reflexivity.
Qed.

(** X28. During an update the callback of [installUpdate] keeps the sum
    of the chunks reported; with a known positive content length the
    percent after a chunk is [Math.round((downloaded / contentLength) * 100)]
    on doubles for the bytes downloaded so far, between 0 and 100 as long
    as the chunks are not negative and do not exceed the content length,
    and never smaller after a further chunk that is not negative; without
    a known content length the percent stays 0; and the end of the
    download puts it at 100. *)
Theorem X28_update_download_percent :
  forall (cl : option Z) (ps : list Updater.UpdateEvent),
    Forall Updater.is_progress ps ->
    let d := Updater.run (Updater.Started cl :: ps) Updater.start in
    let c := JS.num_or cl 0 in
    let total := foldr Z.add 0 (Updater.chunk_of <$> ps) in
    Updater.downloaded d = total
    /\ Updater.contentLength d = c
    /\ (c <= 0 -> Updater.updateProgress d = 0)
    /\ (0 < c -> ps <> [] ->
        Updater.updateProgress d
        = JS.Math_round
            (JS.fmul (JS.fdiv (inject_Z total) (inject_Z c)) (inject_Z 100)))
    /\ (0 < c -> 0 <= total <= c -> 0 <= Updater.updateProgress d <= 100)
    /\ (0 < c -> ps <> [] ->
        forall chunk : option Z,
          0 <= JS.num_or chunk 0 ->
          Updater.updateProgress d
          <= Updater.updateProgress
               (Updater.callback d (Updater.Progress chunk)))
    /\ Updater.updateProgress (Updater.callback d Updater.Finished) = 100.
Proof.
  intros cl ps Hps d c total.
  destruct (run_progress ps (Updater.callback Updater.start (Updater.Started cl))
              Hps) as (H1 & H2 & H3).
  cbv zeta in H1, H2, H3.
  change (Updater.run ps (Updater.callback Updater.start (Updater.Started cl)))
    with d in H1, H2, H3.
  cbn [Updater.callback Updater.downloaded Updater.contentLength
         Updater.updateProgress Updater.start] in H1, H2, H3.
  fold c in H2, H3. fold total in H1. rewrite Z.add_0_l in H1.
  rewrite H1 in H3.
  split; [exact H1 |]. split; [exact H2 |].
  split; [| split; [| split; [| split; [| reflexivity]]]].
  - intros Hc. rewrite H3. destruct ps; [reflexivity |].
    destruct (Z.ltb_spec 0 c); [lia | reflexivity].
  - intros Hc Hne. rewrite H3. destruct ps; [contradiction |].
    destruct (Z.ltb_spec 0 c); [reflexivity | lia].
  - intros Hc [Hlo Hhi]. rewrite H3. destruct ps; [lia |].
    destruct (Z.ltb_spec 0 c); [| lia]. split.
    + apply share_percent_lower; lia.
    + apply share_percent_upper; lia.
  - intros Hc Hne chunk Hchunk.
    cbn [Updater.callback Updater.updateProgress].
    rewrite H2, H1, H3. destruct ps; [contradiction |].
    destruct (Z.ltb_spec 0 c); [| lia].
    apply share_percent_mono; lia.
Qed.

Lemma X28_update_download_percent_witness :
  Updater.updateProgress
    (Updater.run [Updater.Started (Some 1000); Updater.Progress (Some 250);
                  Updater.Progress (Some 125)] Updater.start) = 38.
Proof.
  rewrite (proj1 (proj2 (proj2 (proj2
             (X28_update_download_percent (Some 1000)
                [Updater.Progress (Some 250); Updater.Progress (Some 125)]
                ltac:(repeat constructor)))))).
  - vm_compute. reflexivity.
  - vm_compute. reflexivity.
  - discriminate.
Defined.

Lemma X11_neededRegions_witness :
  In "de"%string
     (StartScan.neededRegions [("prompt-1", ["DE"; "fr"]); ("prompt-2", [])]).
Proof.
  apply (proj2 (X11_neededRegions
                  [("prompt-1", ["DE"; "fr"]); ("prompt-2", [])])).
  right. exists ["DE"; "fr"]%string, "DE"%string.
  split; [left; reflexivity |]. split; [left; reflexivity |].
  vm_compute. reflexivity.
Defined.
